(** * GetRealityDomain: a shallow embedding of the scanner and its properties

    The development follows the Go sources file by file:
    - utils.go   : [ValidateDomainName], [NextIP], [expandCIDR],
                   [IterateCIDR], [IterateAddr], [isValidIP], [ResolveDomain];
    - scanner.go : [ScanTLS], [scanSingleIP], [DetectCloudflareCDN],
                   [CheckDomainConnectivity], [IsRealityFeasible];
    - output.go  : [NewCSVWriter], [WriteResult], [ProcessResults];
    - main.go    : [config], [scanControl], [loadFeasibleResults].

    The parts of the Go standard library the program calls (math/big, net,
    strings, strconv, regexp, encoding/csv, bufio, crypto/tls) are modelled
    in modules named after the Go packages.  Network, clock and disk are oracles of an
    explicit environment; goroutines that feed a channel are modelled by the
    sequence of values they send. *)

From Stdlib Require Import ZArith List Strings.String Strings.Ascii Strings.Byte.
From Stdlib Require Import Bool Lia Sorting.Sorted DecimalString.
Import ListNotations.
Open Scope Z_scope.

(* ================================================================== *)
(** * Part I. The Go packages used by the program                     *)
(* ================================================================== *)

(** ** math/big: the three [big.Int] operations of [NextIP] *)
Module big.

Definition byte_val (b : byte) : Z := Z.of_N (Byte.to_N b).

Definition byte_of (z : Z) : byte :=
  match Byte.of_N (Z.to_N (z mod 256)) with
  | Some b => b
  | None => x00
  end.

(** [SetBytes] reads a slice as a big-endian unsigned integer. *)
Definition SetBytes (buf : list byte) : Z :=
  fold_left (fun acc b => acc * 256 + byte_val b) buf 0.

(** Base-256 digits of [n], most significant first, in front of [acc]. *)
Fixpoint digits (fuel : nat) (n : Z) (acc : list byte) : list byte :=
  match fuel with
  | O => acc
  | S fuel' =>
      if n =? 0 then acc else digits fuel' (n / 256) (byte_of n :: acc)
  end.

(** [Bytes] is the big-endian encoding of the absolute value, without
    leading zeros (the empty slice for zero); the sign is dropped. *)
Definition Bytes (x : Z) : list byte :=
  digits (S (Z.to_nat (Z.log2 (Z.abs x)))) (Z.abs x) [].

End big.

(** ** Slices *)

Definition len {A : Type} (l : list A) : Z := Z.of_nat (List.length l).

(** [make([]byte, n)]: a run-time panic for a negative length. *)
Definition make (n : Z) : option (list byte) :=
  if n <? 0 then None else Some (repeat x00 (Z.to_nat n)).

(** ** net: addresses and networks *)
Module net.

(** [net.IP] is a byte slice; the nil slice is the empty list. *)
Definition IP := list byte.
Definition IPMask := list byte.

Definition IPv4len : Z := 4.
Definition IPv6len : Z := 16.

Definition at_ (p : list byte) (k : nat) : byte := nth k p x00.

Definition isZeros (p : list byte) : bool :=
  forallb (fun b => Byte.eqb b x00) p.

Definition bytesEqual (a b : list byte) : bool :=
  if list_eq_dec Byte.byte_eq_dec a b then true else false.

Definition v4InV6Prefix : list byte :=
  [x00; x00; x00; x00; x00; x00; x00; x00; x00; x00; xff; xff].

Definition IPv6loopback : IP :=
  [x00; x00; x00; x00; x00; x00; x00; x00;
   x00; x00; x00; x00; x00; x00; x00; x01].

(** [To4]: the 4-byte form of an IPv4 address, [None] for Go's nil. *)
Definition To4 (ip : IP) : option IP :=
  if len ip =? IPv4len then Some ip
  else if (len ip =? IPv6len) && isZeros (firstn 10 ip)
          && Byte.eqb (at_ ip 10) xff && Byte.eqb (at_ ip 11) xff
       then Some (firstn 4 (skipn 12 ip))
       else None.

Definition Equal (ip x : IP) : bool :=
  if len ip =? len x then bytesEqual ip x
  else if (len ip =? IPv4len) && (len x =? IPv6len)
       then bytesEqual (firstn 12 x) v4InV6Prefix && bytesEqual ip (skipn 12 x)
  else if (len ip =? IPv6len) && (len x =? IPv4len)
       then bytesEqual (firstn 12 ip) v4InV6Prefix && bytesEqual (skipn 12 ip) x
  else false.

Definition IsLoopback (ip : IP) : bool :=
  match To4 ip with
  | Some ip4 => Byte.eqb (at_ ip4 0) x7f
  | None => Equal ip IPv6loopback
  end.

Definition IsMulticast (ip : IP) : bool :=
  match To4 ip with
  | Some ip4 => Z.land (big.byte_val (at_ ip4 0)) 240 =? 224
  | None => (len ip =? IPv6len) && Byte.eqb (at_ ip 0) xff
  end.

Record IPNet := mkIPNet { NetIP : IP; Mask : IPMask }.

(** [networkNumberAndMask]; the pair of nil slices is [([], [])]. *)
Definition networkNumberAndMask (n : IPNet) : IP * IPMask :=
  let oip :=
    match To4 (NetIP n) with
    | Some ip4 => Some ip4
    | None => if len (NetIP n) =? IPv6len then Some (NetIP n) else None
    end in
  match oip with
  | None => ([], [])
  | Some ip =>
      if len (Mask n) =? IPv4len then
        if len ip =? IPv4len then (ip, Mask n) else ([], [])
      else if len (Mask n) =? IPv6len then
        if len ip =? IPv4len then (ip, skipn 12 (Mask n))
        else (ip, Mask n)
      else ([], [])
  end.

Definition maskByte (m b : byte) : Z :=
  Z.land (big.byte_val b) (big.byte_val m).

(** [nn[i]&m[i] == ip[i]&m[i]] for every index of [ip]. *)
Fixpoint sameMasked (nn m ip : list byte) : bool :=
  match nn, m, ip with
  | a :: nn', k :: m', b :: ip' =>
      (maskByte k a =? maskByte k b) && sameMasked nn' m' ip'
  | _, _, _ => true
  end.

(** [IPNet.Contains]: equality of the masked prefixes. *)
Definition Contains (n : IPNet) (ip : IP) : bool :=
  let (nn, m) := networkNumberAndMask n in
  let ip := match To4 ip with Some x => x | None => ip end in
  if len ip =? len nn then sameMasked nn m ip else false.

End net.

(** ** strings *)
Module strings.

Fixpoint Join (elems : list string) (sep : string) : string :=
  match elems with
  | [] => EmptyString
  | e :: rest =>
      match rest with
      | [] => e
      | _ :: _ => e ++ sep ++ Join rest sep
      end
  end%string.

(** [strings.Contains]: [substr] occurs somewhere in [s]. *)
Fixpoint Contains (s substr : string) : bool :=
  String.prefix substr s ||
  match s with
  | EmptyString => false
  | String _ rest => Contains rest substr
  end.

(** [strings.Split] for a separator of one byte. *)
Fixpoint Split (s : string) (sep : ascii) : list string :=
  match s with
  | EmptyString => [EmptyString]
  | String c rest =>
      if Ascii.eqb c sep then EmptyString :: Split rest sep
      else match Split rest sep with
           | part :: parts => String c part :: parts
           | [] => [String c EmptyString]
           end
  end.

(** [strings.IndexByte(s, c) >= 0]. *)
Fixpoint hasByte (c : ascii) (s : string) : bool :=
  match s with
  | EmptyString => false
  | String a rest => Ascii.eqb c a || hasByte c rest
  end.

(** [strings.LastIndex] for a substring of one byte; [None] is -1. *)
Fixpoint LastIndex (s : string) (c : ascii) : option nat :=
  match s with
  | EmptyString => None
  | String a rest =>
      match LastIndex rest c with
      | Some i => Some (S i)
      | None => if Ascii.eqb a c then Some O else None
      end
  end.

End strings.

(** ** strconv *)
Module strconv.

Definition Itoa (n : Z) : string := NilZero.string_of_int (Z.to_int n).

(** [FormatInt(n, 10)]. *)
Definition FormatInt (n : Z) : string := Itoa n.

Definition FormatBool (b : bool) : string :=
  if b then "true"%string else "false"%string.

End strconv.

(** ** unicode: the white-space test on the first rune of a UTF-8 string *)
Module unicode.

Fixpoint hasPrefixBytes (codes : list N) (s : string) : bool :=
  match codes, s with
  | [], _ => true
  | k :: codes', String c rest => (N_of_ascii c =? k)%N && hasPrefixBytes codes' rest
  | _ :: _, EmptyString => false
  end.

(** [unicode.IsSpace] of the first rune: tab, LF, VT, FF, CR, space, U+0085,
    U+00A0, U+1680, U+2000..U+200A, U+2028, U+2029, U+202F, U+205F, U+3000,
    by their UTF-8 encodings. *)
Definition firstRuneIsSpace (s : string) : bool :=
  match s with
  | EmptyString => false
  | String c rest =>
      let k := N_of_ascii c in
      ((9 <=? k) && (k <=? 13))%N || (k =? 32)%N
      || hasPrefixBytes [194; 133]%N s || hasPrefixBytes [194; 160]%N s
      || hasPrefixBytes [225; 154; 128]%N s
      || (hasPrefixBytes [226; 128]%N s
          && match rest with
             | String _ (String d _) =>
                 let j := N_of_ascii d in
                 ((128 <=? j) && (j <=? 138))%N || (j =? 168)%N
                 || (j =? 169)%N || (j =? 175)%N
             | _ => false
             end)
      || hasPrefixBytes [226; 129; 159]%N s
      || hasPrefixBytes [227; 128; 128]%N s
  end.

End unicode.

(** ** regexp: matching by derivatives *)
Module regexp.

Inductive re : Type :=
| Void
| Eps
| Class (p : ascii -> bool)
| Seq (a b : re)
| Alt (a b : re)
| Star (a : re).

Definition seq (a b : re) : re :=
  match a, b with
  | Void, _ => Void
  | _, Void => Void
  | Eps, _ => b
  | _, Eps => a
  | _, _ => Seq a b
  end.

Definition alt (a b : re) : re :=
  match a, b with
  | Void, _ => b
  | _, Void => a
  | _, _ => Alt a b
  end.

Fixpoint nullable (r : re) : bool :=
  match r with
  | Void => false
  | Eps => true
  | Class _ => false
  | Seq a b => nullable a && nullable b
  | Alt a b => nullable a || nullable b
  | Star _ => true
  end.

Fixpoint deriv (c : ascii) (r : re) : re :=
  match r with
  | Void => Void
  | Eps => Void
  | Class p => if p c then Eps else Void
  | Seq a b =>
      alt (seq (deriv c a) b) (if nullable a then deriv c b else Void)
  | Alt a b => alt (deriv c a) (deriv c b)
  | Star a => seq (deriv c a) (Star a)
  end.

(** [r?] and [r{0,n}]. *)
Definition opt (r : re) : re := Alt r Eps.

Fixpoint upto (n : nat) (r : re) : re :=
  match n with
  | O => Eps
  | S n' => opt (Seq r (upto n' r))
  end.

(** [MatchString] for a pattern anchored by [^] and [$]: the whole input
    has to match. *)
Fixpoint MatchString (r : re) (s : string) : bool :=
  match s with
  | EmptyString => nullable r
  | String c rest => MatchString (deriv c r) rest
  end.

End regexp.

(** ** encoding/csv: [Writer.Write] with the default comma *)
Module csv.

Definition LF : ascii := "010"%char.
Definition CR : ascii := "013"%char.
Definition quote : ascii := "034"%char.
Definition Comma : ascii := ","%char.

Definition special (c : ascii) : bool :=
  Ascii.eqb c LF || Ascii.eqb c CR || Ascii.eqb c quote || Ascii.eqb c Comma.

Fixpoint hasSpecial (field : string) : bool :=
  match field with
  | EmptyString => false
  | String c rest => special c || hasSpecial rest
  end.

Definition fieldNeedsQuotes (field : string) : bool :=
  if String.eqb field EmptyString then false
  else if String.eqb field "\." then true
  else if hasSpecial field then true
  else unicode.firstRuneIsSpace field.

(** Inside a quoted field every quote is doubled; CR and LF are copied. *)
Fixpoint escape (field : string) : string :=
  match field with
  | EmptyString => EmptyString
  | String c rest =>
      if Ascii.eqb c quote then String quote (String quote (escape rest))
      else String c (escape rest)
  end.

Definition writeField (field : string) : string :=
  if fieldNeedsQuotes field
  then (String quote (escape field) ++ String quote EmptyString)%string
  else field.

(** One record: the fields separated by commas, then a line feed. *)
Definition Write (record : list string) : string :=
  (strings.Join (map writeField record) (String Comma EmptyString)
   ++ String LF EmptyString)%string.

End csv.

(** ** bufio: [Scanner] with the default [ScanLines] split function *)
Module bufio.

(** The size of the buffer of [bufio.NewWriter]. *)
Definition defaultBufSize : Z := 4096.

Definition MaxScanTokenSize : Z := 64 * 1024.

(** The input cut at line feeds; a last line without line feed counts when
    it is not empty. *)
Fixpoint lines (data : string) : list string :=
  match data with
  | EmptyString => []
  | String c rest =>
      if Ascii.eqb c csv.LF then EmptyString :: lines rest
      else match lines rest with
           | l :: ls => String c l :: ls
           | [] => [String c EmptyString]
           end
  end.

Fixpoint dropCR (l : string) : string :=
  match l with
  | EmptyString => EmptyString
  | String c rest =>
      match rest with
      | EmptyString => if Ascii.eqb c csv.CR then EmptyString else l
      | String _ _ => String c (dropCR rest)
      end
  end.

(** The successive results of [Scan]/[Text]: scanning stops (with an error
    nobody reads) at the first line that does not fit the token buffer. *)
Fixpoint tokens (ls : list string) : list string :=
  match ls with
  | [] => []
  | l :: rest =>
      if Z.of_nat (String.length l) <? MaxScanTokenSize
      then dropCR l :: tokens rest
      else []
  end.

Definition ScanLines (data : string) : list string := tokens (lines data).

End bufio.

(** ** crypto/tls: the server name of the ClientHello *)
Module tls.

(** [s[len(s)-1]] of a string that is not empty. *)
Fixpoint lastByte (s : string) : option ascii :=
  match s with
  | EmptyString => None
  | String c rest =>
      match rest with
      | EmptyString => Some c
      | String _ _ => lastByte rest
      end
  end.

(** [s[:len(s)-1]]. *)
Definition dropLast (s : string) : string :=
  String.substring 0 (String.length s - 1) s.

(** The loop [for len(name) > 0 && name[len(name)-1] == '.'] that cuts the
    last byte of [name]. *)
Fixpoint trimDots (fuel : nat) (name : string) : string :=
  match fuel with
  | O => name
  | S fuel' =>
      match lastByte name with
      | Some c =>
          if Ascii.eqb c "." then trimDots fuel' (dropLast name) else name
      | None => name
      end
  end.

(** [hostnameInSNI]: what the client writes into the server_name extension
    of its ClientHello for [Config.ServerName].  Square brackets around the
    name and a zone after a percent sign are set aside; a name that then
    parses as an IP address is not sent; of any other name the dots at the
    end are cut.  For the empty result the extension is left out. *)
Definition hostnameInSNI (ParseIP : string -> option net.IP) (name : string)
    : string :=
  let host :=
    match name with
    | EmptyString => name
    | String c rest =>
        if Ascii.eqb c "["
           && match lastByte name with
              | Some d => Ascii.eqb d "]"
              | None => false
              end
        then dropLast rest
        else name
    end in
  let host :=
    match strings.LastIndex host "%" with
    | Some (S i) => String.substring 0 (S i) host
    | _ => host
    end in
  match ParseIP host with
  | Some _ => EmptyString
  | None => trimDots (String.length name) name
  end.

End tls.

(* ================================================================== *)
(** * Part II. The program                                            *)
(* ================================================================== *)

(** ** Types (scanner.go, main.go) *)

Inductive HostType := HostTypeIP | HostTypeCIDR | HostTypeDomain.

Record Host := mkHost {
  Host_IP : net.IP;
  Host_Origin : string;
  Host_Type : HostType
}.

Record ScanResult := mkScanResult {
  IP : string;
  Origin : string;
  Port : Z;
  CertDomain : string;
  CertIssuer : string;
  TLSVersion : string;
  ALPN : string;
  Curve : string;
  GeoCode : string;
  Feasible : bool;
  ResponseTime : Z;
  Error : string
}.

(** Field assignments [result.F = v]. *)
Definition set_CertDomain (v : string) (r : ScanResult) : ScanResult :=
  mkScanResult (IP r) (Origin r) (Port r) v (CertIssuer r) (TLSVersion r)
    (ALPN r) (Curve r) (GeoCode r) (Feasible r) (ResponseTime r) (Error r).
Definition set_CertIssuer (v : string) (r : ScanResult) : ScanResult :=
  mkScanResult (IP r) (Origin r) (Port r) (CertDomain r) v (TLSVersion r)
    (ALPN r) (Curve r) (GeoCode r) (Feasible r) (ResponseTime r) (Error r).
Definition set_TLSVersion (v : string) (r : ScanResult) : ScanResult :=
  mkScanResult (IP r) (Origin r) (Port r) (CertDomain r) (CertIssuer r) v
    (ALPN r) (Curve r) (GeoCode r) (Feasible r) (ResponseTime r) (Error r).
Definition set_ALPN (v : string) (r : ScanResult) : ScanResult :=
  mkScanResult (IP r) (Origin r) (Port r) (CertDomain r) (CertIssuer r)
    (TLSVersion r) v (Curve r) (GeoCode r) (Feasible r) (ResponseTime r)
    (Error r).
Definition set_Curve (v : string) (r : ScanResult) : ScanResult :=
  mkScanResult (IP r) (Origin r) (Port r) (CertDomain r) (CertIssuer r)
    (TLSVersion r) (ALPN r) v (GeoCode r) (Feasible r) (ResponseTime r)
    (Error r).
Definition set_GeoCode (v : string) (r : ScanResult) : ScanResult :=
  mkScanResult (IP r) (Origin r) (Port r) (CertDomain r) (CertIssuer r)
    (TLSVersion r) (ALPN r) (Curve r) v (Feasible r) (ResponseTime r)
    (Error r).
Definition set_Feasible (v : bool) (r : ScanResult) : ScanResult :=
  mkScanResult (IP r) (Origin r) (Port r) (CertDomain r) (CertIssuer r)
    (TLSVersion r) (ALPN r) (Curve r) (GeoCode r) v (ResponseTime r)
    (Error r).
Definition set_ResponseTime (v : Z) (r : ScanResult) : ScanResult :=
  mkScanResult (IP r) (Origin r) (Port r) (CertDomain r) (CertIssuer r)
    (TLSVersion r) (ALPN r) (Curve r) (GeoCode r) (Feasible r) v (Error r).
Definition set_Error (v : string) (r : ScanResult) : ScanResult :=
  mkScanResult (IP r) (Origin r) (Port r) (CertDomain r) (CertIssuer r)
    (TLSVersion r) (ALPN r) (Curve r) (GeoCode r) (Feasible r)
    (ResponseTime r) v.

(** [ScanResult{IP: ip, Origin: origin, Port: port}]: the other fields have
    their zero values. *)
Definition newScanResult (ip origin : string) (port : Z) : ScanResult :=
  mkScanResult ip origin port "" "" "" "" "" "" false 0 "".

Definition RequiredTLSVersion : string := "TLS 1.3".
Definition RequiredALPN : string := "h2".
Definition RequiredCurve : string := "X25519".

(** The global [config] of main.go. *)
Record Config := mkConfig {
  Config_Port : Z;
  Thread : Z;
  Timeout : Z;
  Output : string;
  Verbose : bool;
  IPv6 : bool
}.

Definition config : Config := mkConfig 443 2 10 "out.csv" false false.

(** The global [scanControl] of main.go. *)
Record ScanControl := mkScanControl {
  MaxResults : Z;
  StopOnMax : bool;
  PingDomain : bool
}.

Definition scanControl : ScanControl := mkScanControl 0 false true.

(** ** crypto/tls values the prober builds and reads *)

Record Certificate := mkCertificate {
  DNSNames : list string;
  Subject_CommonName : string;
  Issuer_CommonName : string;
  Issuer_Organization : list string
}.

Record ConnectionState := mkConnectionState {
  Version : Z;
  NegotiatedProtocol : string;
  CipherSuite : Z;
  PeerCertificates : list Certificate
}.

Definition X25519 : Z := 29.

Record TLSConfig := mkTLSConfig {
  InsecureSkipVerify : bool;
  NextProtos : list string;
  CurvePreferences : list Z;
  ServerName : string
}.

Definition set_ServerName (v : string) (c : TLSConfig) : TLSConfig :=
  mkTLSConfig (InsecureSkipVerify c) (NextProtos c) (CurvePreferences c) v.

(** ** The environment: network, resolver, clock *)

Inductive result (A : Type) : Type :=
| Ok (a : A)
| Err (err : string).
Arguments Ok {A} a.
Arguments Err {A} err.

Record Env := mkEnv {
  (** [net.ParseIP], [net.ParseCIDR] and [IP.String] *)
  ParseIP : string -> option net.IP;
  ParseCIDR : string -> option net.IPNet;
  IPString : net.IP -> string;
  (** [net.LookupIP] *)
  LookupIP : string -> result (list net.IP);
  (** [net.DialTimeout("tcp", address, ...)]: the error, if any *)
  DialTimeout : string -> option string;
  (** [tls.Client(conn, cfg).Handshake()] and [ConnectionState()] *)
  Handshake : string -> TLSConfig -> result ConnectionState;
  (** [time.Since(startTime).Milliseconds()] of the probe of an address *)
  SinceMs : string -> Z;
  (** [client.Get(url)]: status code and the outcome of reading the body *)
  HTTPGet : string -> result (Z * result string);
  (** [exec.Command("ping", "-c", "3", "-W", "5", domain).Run() == nil] *)
  PingRun : string -> bool
}.

(** [*Geo]: [None] is the nil pointer, [Some f] answers [GetGeo] with [f]. *)
Definition Geo := option (net.IP -> string).

(** The calls the program makes to the outside: [net.LookupIP],
    [net.DialTimeout], the handshake, [client.Get], the [ping] command;
    and the calls of the two checks the classifier makes on a domain.  What
    such a call does on the network on its own, as the resolution of the
    host name inside [client.Get] and inside [ping], is not an event. *)
Inductive Event :=
| EvLookupIP (domain : string)
| EvDial (address : string)
| EvHandshake (address : string) (tlsConfig : TLSConfig)
| EvDetectCloudflareCDN (domain : string)
| EvHTTPGet (url : string)
| EvCheckDomainConnectivity (domain : string)
| EvPing (domain : string).

(** Computations that log their events. *)
Definition M (A : Type) : Type := (A * list Event)%type.

Definition ret {A : Type} (a : A) : M A := (a, []).

Definition bind {A B : Type} (m : M A) (k : A -> M B) : M B :=
  let (a, t1) := m in
  let (b, t2) := k a in
  (b, t1 ++ t2).

Definition tell (e : Event) : M unit := (tt, [e]).

Declare Scope go_scope.
Delimit Scope go_scope with go.
Notation "x <- m ;; k" := (bind m (fun x => k))
  (at level 61, m at next level, right associativity) : go_scope.
Notation "m ;; k" := (bind m (fun _ => k))
  (at level 61, right associativity) : go_scope.
Open Scope string_scope.
Open Scope list_scope.
Open Scope Z_scope.
Open Scope go_scope.

(** ** utils.go *)

Definition inRange (lo hi c : ascii) : bool :=
  ((N_of_ascii lo <=? N_of_ascii c) && (N_of_ascii c <=? N_of_ascii hi))%N.

(** [[a-zA-Z0-9]] and [[a-zA-Z0-9\-]]. *)
Definition alnum (c : ascii) : bool :=
  inRange "a" "z" c || inRange "A" "Z" c || inRange "0" "9" c.

Definition alnumHyphen (c : ascii) : bool := alnum c || Ascii.eqb c "-".

Definition isDot (c : ascii) : bool := Ascii.eqb c ".".

(** [[a-zA-Z0-9]([a-zA-Z0-9\-]{0,61}[a-zA-Z0-9])?] *)
Definition labelRe : regexp.re :=
  regexp.Seq (regexp.Class alnum)
    (regexp.opt (regexp.Seq (regexp.upto 61 (regexp.Class alnumHyphen))
                            (regexp.Class alnum))).

(** The pattern of [ValidateDomainName]:
    [^LABEL(\.LABEL)*$] with [LABEL] as above. *)
Definition domainRe : regexp.re :=
  regexp.Seq labelRe (regexp.Star (regexp.Seq (regexp.Class isDot) labelRe)).

Definition ValidateDomainName (domain : string) : bool :=
  if (Z.of_nat (String.length domain) =? 0)
     || (Z.of_nat (String.length domain) >? 253)
  then false
  else regexp.MatchString domainRe domain.

Definition isValidRealityDomain (domain : string) : bool :=
  negb (String.eqb domain "").

(** [NextIP]: [None] is the run-time panic of [make] with a negative
    length. *)
Definition NextIP (ip : net.IP) (increment : bool) : option net.IP :=
  let ipb := big.SetBytes ip in
  let ipb := if increment then ipb + 1 else ipb - 1 in
  let b := big.Bytes ipb in
  if len ip =? 4 then
    match make (4 - len b) with
    | Some pad => Some (pad ++ b)
    | None => None
    end
  else
    match make (16 - len b) with
    | Some pad => Some (pad ++ b)
    | None => None
    end.

(** [isValidIP]; the nil slice is the empty list, and [NextIP], the only
    source of its arguments, returns slices of 4 or 16 bytes. *)
Definition isValidIP (ip : net.IP) : bool :=
  match ip with
  | [] => false
  | _ :: _ =>
      if net.IsLoopback ip then false
      else if net.IsMulticast ip then false
      else true
  end.

(** How a producer goroutine ends: it returns and the deferred
    [close(hostChan)] runs, or [NextIP] panics.  [Running] only marks a
    run that was observed for a bounded number of iterations. *)
Inductive ProducerEnd := Closed | Panicked | Running.

Definition maxHosts : Z := 65536.

(** The [for] loop shared, statement for statement, by [expandCIDR] and
    [IterateCIDR]; [fuel] bounds the iterations observed. *)
Fixpoint cidrLoop (fuel : nat) (origin : string) (ipNet : net.IPNet)
    (ip : net.IP) (count : Z) : list Host * ProducerEnd :=
  match fuel with
  | O => ([], Running)
  | S fuel' =>
      if negb (net.Contains ipNet ip) then ([], Closed)
      else if count >=? maxHosts then ([], Closed)
      else
        let newHost := mkHost ip origin HostTypeIP in
        match NextIP ip true with
        | None => ([newHost], Panicked)
        | Some ip' =>
            let (hosts, e) := cidrLoop fuel' origin ipNet ip' (count + 1) in
            (newHost :: hosts, e)
        end
  end.

(** One more iteration than [maxHosts] always reaches a [break]. *)
Definition cidrFuel : nat := S (Z.to_nat maxHosts).

(** [expandCIDR]: the hosts sent to [hostChan]. *)
Definition expandCIDR (env : Env) (host : Host) : list Host * ProducerEnd :=
  match ParseCIDR env (Host_Origin host) with
  | None => ([], Closed)
  | Some ipNet =>
      cidrLoop cidrFuel (Host_Origin host) ipNet (net.NetIP ipNet) 0
  end.

(** [IterateCIDR]: the hosts sent to the returned channel. *)
Definition IterateCIDR (env : Env) (cidr : string) : list Host * ProducerEnd :=
  match ParseCIDR env cidr with
  | None => ([], Closed)
  | Some ipNet => cidrLoop cidrFuel cidr ipNet (net.NetIP ipNet) 0
  end.

(** [math.MaxInt] on a 64-bit platform. *)
Definition MaxInt : Z := 2 ^ 63 - 1.

(** The variables of the loop of [IterateAddr]. *)
Record AddrLoop := mkAddrLoop {
  loop_i : Z;
  lowIP : net.IP;
  highIP : net.IP
}.

(** One evaluation of the loop condition and body: the loop ends, [NextIP]
    panics, or a candidate address is computed and sent if [isValidIP]. *)
Inductive AddrStep :=
| StepExit
| StepPanic
| StepNext (st : AddrLoop) (candidate : net.IP) (sent : option Host).

Definition addrStep (addr : string) (st : AddrLoop) : AddrStep :=
  if loop_i st <? MaxInt then
    if loop_i st mod 2 =? 0 then
      match NextIP (lowIP st) false with
      | None => StepPanic
      | Some low =>
          StepNext (mkAddrLoop (loop_i st + 1) low (highIP st)) low
            (if negb (isValidIP low) then None
             else Some (mkHost low addr HostTypeIP))
      end
    else
      match NextIP (highIP st) true with
      | None => StepPanic
      | Some high =>
          StepNext (mkAddrLoop (loop_i st + 1) (lowIP st) high) high
            (if negb (isValidIP high) then None
             else Some (mkHost high addr HostTypeIP))
      end
  else StepExit.

(** The first [fuel] iterations: every candidate with what was sent for it. *)
Fixpoint addrLoop (fuel : nat) (addr : string) (st : AddrLoop)
    : list (net.IP * option Host) * ProducerEnd * AddrLoop :=
  match fuel with
  | O => ([], Running, st)
  | S fuel' =>
      match addrStep addr st with
      | StepExit => ([], Closed, st)
      | StepPanic => ([], Panicked, st)
      | StepNext st' candidate sent =>
          let '(cs, e, final) := addrLoop fuel' addr st' in
          ((candidate, sent) :: cs, e, final)
      end
  end.

Fixpoint sentHosts (cs : list (net.IP * option Host)) : list Host :=
  match cs with
  | [] => []
  | (_, Some h) :: rest => h :: sentHosts rest
  | (_, None) :: rest => sentHosts rest
  end.

(** [IterateAddr] observed for [fuel] iterations of its loop: the hosts
    sent to the channel and the state of the producer. *)
Definition IterateAddr (env : Env) (addr : string) (fuel : nat)
    : list Host * ProducerEnd :=
  match ParseIP env addr with
  | None => ([], Closed)
  | Some initialIP =>
      let '(cs, e, _) :=
        addrLoop fuel addr (mkAddrLoop 0 initialIP initialIP) in
      (mkHost initialIP addr HostTypeIP :: sentHosts cs, e)
  end.

Definition isSome {A : Type} (o : option A) : bool :=
  match o with Some _ => true | None => false end.

Definition ResolveDomain (env : Env) (cfg : Config) (domain : string)
    : M (result (list net.IP)) :=
  tell (EvLookupIP domain) ;;
  match LookupIP env domain with
  | Err err => ret (Err ("域名解析失败: " ++ err)%string)
  | Ok ips =>
      let result :=
        filter (fun ip => IPv6 cfg || isSome (net.To4 ip)) ips in
      if len result =? 0 then ret (Err "没有找到有效的IP地址")
      else ret (Ok result)
  end.

(** ** scanner.go *)

Definition hexDigit (d : Z) : ascii :=
  if d <? 10 then ascii_of_N (Z.to_N (48 + d))
  else ascii_of_N (Z.to_N (87 + d)).

(** [fmt.Sprintf] of the verb [%04x] for a [uint16]. *)
Definition hex04 (v : Z) : string :=
  String (hexDigit (v / 4096 mod 16))
    (String (hexDigit (v / 256 mod 16))
       (String (hexDigit (v / 16 mod 16))
          (String (hexDigit (v mod 16)) EmptyString))).

Definition getTLSVersionString (version : Z) : string :=
  if version =? 769 then "TLS 1.0"
  else if version =? 770 then "TLS 1.1"
  else if version =? 771 then "TLS 1.2"
  else if version =? 772 then "TLS 1.3"
  else ("Unknown(0x" ++ hex04 version ++ ")")%string.

Definition getCurveString (cipherSuite : Z) : string := "X25519".

Definition DetectCloudflareCDN (env : Env) (domain : string) : M bool :=
  tell (EvDetectCloudflareCDN domain) ;;
  if String.eqb domain "" then ret false
  else
    let url := ("https://" ++ domain ++ "/cdn-cgi/trace")%string in
    tell (EvHTTPGet url) ;;
    match HTTPGet env url with
    | Err _ => ret false
    | Ok (status, body) =>
        if status =? 200 then
          match body with
          | Err _ => ret false
          | Ok bodyStr =>
              ret (strings.Contains bodyStr "fl="
                   || strings.Contains bodyStr "h="
                   || strings.Contains bodyStr "colo="
                   || strings.Contains bodyStr "gateway=")
          end
        else ret false
    end.

Definition pingDomain (env : Env) (domain : string) : M bool :=
  tell (EvPing domain) ;;
  ret (PingRun env domain).

Definition CheckDomainConnectivity (env : Env) (ctl : ScanControl)
    (domain : string) : M bool :=
  tell (EvCheckDomainConnectivity domain) ;;
  if negb (PingDomain ctl) then ret true
  else if String.eqb domain "" || isSome (ParseIP env domain) then ret false
  else if negb (ValidateDomainName domain) then ret false
  else pingDomain env domain.

Definition IsRealityFeasible (env : Env) (ctl : ScanControl)
    (sr : ScanResult) : M bool :=
  if negb (String.eqb (TLSVersion sr) RequiredTLSVersion) then ret false
  else if negb (String.eqb (ALPN sr) RequiredALPN) then ret false
  else if negb (String.eqb (Curve sr) RequiredCurve) then ret false
  else if String.eqb (CertDomain sr) "" then ret false
  else if negb (isValidRealityDomain (CertDomain sr)) then ret false
  else if String.eqb (CertIssuer sr) "" then ret false
  else
    cf <- DetectCloudflareCDN env (CertDomain sr) ;;
    if cf then ret false
    else if PingDomain ctl then
      ok <- CheckDomainConnectivity env ctl (CertDomain sr) ;;
      if negb ok then ret false else ret true
    else ret true.

(** The certificate part of [scanSingleIP]. *)
Definition fillCertificate (state : ConnectionState) (result : ScanResult)
    : ScanResult :=
  match PeerCertificates state with
  | [] => result
  | cert :: _ =>
      let result :=
        if len (DNSNames cert) >? 0
        then set_CertDomain (strings.Join (DNSNames cert) ",") result
        else if negb (String.eqb (Subject_CommonName cert) "")
             then set_CertDomain (Subject_CommonName cert) result
             else result in
      let result := set_CertIssuer (Issuer_CommonName cert) result in
      if String.eqb (CertIssuer result) ""
         && (len (Issuer_Organization cert) >? 0)
      then set_CertIssuer (nth 0 (Issuer_Organization cert) "") result
      else result
  end.

(** [scanSingleIP]: the one result it sends to [resultChan]. *)
Definition scanSingleIP (env : Env) (cfg : Config) (ctl : ScanControl)
    (ip : net.IP) (origin : string) (geo : Geo) : M ScanResult :=
  let result := newScanResult (IPString env ip) origin (Config_Port cfg) in
  let result :=
    match geo with
    | Some GetGeo => set_GeoCode (GetGeo ip) result
    | None => result
    end in
  let address :=
    (IPString env ip ++ ":" ++ strconv.Itoa (Config_Port cfg))%string in
  tell (EvDial address) ;;
  match DialTimeout env address with
  | Some err => ret (set_Error ("TCP连接失败: " ++ err)%string result)
  | None =>
      let tlsConfig := mkTLSConfig true ["h2"; "http/1.1"] [X25519] origin in
      let tlsConfig :=
        if ValidateDomainName origin
        then set_ServerName origin tlsConfig
        else set_ServerName "" tlsConfig in
      tell (EvHandshake address tlsConfig) ;;
      match Handshake env address tlsConfig with
      | Err err => ret (set_Error ("TLS握手失败: " ++ err)%string result)
      | Ok state =>
          let result := set_ResponseTime (SinceMs env address) result in
          let result :=
            set_TLSVersion (getTLSVersionString (Version state)) result in
          let result := set_ALPN (NegotiatedProtocol state) result in
          let result :=
            set_Curve (getCurveString (CipherSuite state)) result in
          let result := fillCertificate state result in
          feasible <- IsRealityFeasible env ctl result ;;
          ret (set_Feasible feasible result)
      end
  end.

Fixpoint scanEach (env : Env) (cfg : Config) (ctl : ScanControl)
    (ips : list net.IP) (origin : string) (geo : Geo) : M (list ScanResult) :=
  match ips with
  | [] => ret []
  | ip :: rest =>
      r <- scanSingleIP env cfg ctl ip origin geo ;;
      rs <- scanEach env cfg ctl rest origin geo ;;
      ret (r :: rs)
  end.

(** [ScanTLS]: the results it sends to [resultChan], in order. *)
Definition ScanTLS (env : Env) (cfg : Config) (ctl : ScanControl)
    (host : Host) (geo : Geo) : M (list ScanResult) :=
  match Host_Type host with
  | HostTypeIP =>
      scanEach env cfg ctl [Host_IP host] (Host_Origin host) geo
  | HostTypeDomain =>
      r <- ResolveDomain env cfg (Host_Origin host) ;;
      match r with
      | Err err =>
          ret [set_Error ("域名解析失败: " ++ err)%string
                 (newScanResult "" (Host_Origin host) (Config_Port cfg))]
      | Ok ips => scanEach env cfg ctl ips (Host_Origin host) geo
      end
  | HostTypeCIDR =>
      ret [set_Error "不支持的主机类型"
             (newScanResult "" (Host_Origin host) (Config_Port cfg))]
  end.

(** ** output.go *)

(** The output file behind the [bufio.Writer] of the [csv.Writer]: the
    bytes that reached the file, and the error the writer holds once a
    write to the file has failed.  From then on the writer hands nothing
    more to the file and each of its methods returns that error. *)
Record CSVWriter := mkCSVWriter {
  file : string;
  writerErr : option string
}.

Definition headers : list string :=
  ["IP"; "ORIGIN"; "PORT"; "CERT_DOMAIN"; "CERT_ISSUER"; "TLS_VERSION";
   "ALPN"; "CURVE"; "GEO_CODE"; "FEASIBLE"; "RESPONSE_TIME_MS"; "ERROR";
   "SCAN_TIME"].

(** [NewCSVWriter] on a file that could be created and that took the
    header. *)
Definition NewCSVWriter : CSVWriter := mkCSVWriter (csv.Write headers) None.

(** The clock and the disk as the sink meets them, for the k-th result
    taken from the channel: the formatted time
    [time.Now().Format("2006-01-02 15:04:05")]; the error of a write to
    the file, when one fails while the record of the result is written and
    flushed; the number of bytes of the record that reached the file before
    it; and whether the write that failed was made inside [writer.Write],
    which hands a record that overflows the buffer to the file, or by
    [Flush]. *)
Record Sink := mkSink {
  Now : Z -> string;
  WriteError : Z -> option string;
  Landed : Z -> nat;
  DuringWrite : Z -> bool
}.

Definition recordOf (result : ScanResult) (now : string) : list string :=
  [IP result; Origin result; strconv.Itoa (Port result); CertDomain result;
   CertIssuer result; TLSVersion result; ALPN result; Curve result;
   GeoCode result; strconv.FormatBool (Feasible result);
   strconv.FormatInt (ResponseTime result); Error result; now].

(** [WriteResult]: the writer afterwards and the error returned.
    [writer.Write] fills the buffer and returns the error the writer holds
    or, for a record that overflows the buffer, the error of the file;
    [WriteResult] returns it.  The record reaches the file in [Flush],
    whose error [WriteResult] does not look at: it stays in the writer. *)
Definition WriteResult (cw : CSVWriter) (result : ScanResult) (now : string)
    (werr : option string) (landed : nat) (duringWrite : bool)
    : CSVWriter * option string :=
  let record := recordOf result now in
  match writerErr cw with
  | Some err => (cw, Some ("写入CSV记录失败: " ++ err)%string)
  | None =>
      match werr with
      | None => (mkCSVWriter (file cw ++ csv.Write record)%string None, None)
      | Some err =>
          let cw :=
            mkCSVWriter
              (file cw ++ String.substring 0 landed (csv.Write record))%string
              (Some err) in
          if (bufio.defaultBufSize
              <? Z.of_nat (String.length (csv.Write record)))
             && duringWrite
          then (cw, Some ("写入CSV记录失败: " ++ err)%string)
          else (cw, None)
      end
  end.

Record ResultProcessor := mkResultProcessor {
  csvWriter : CSVWriter;
  totalCount : Z;
  feasibleCount : Z;
  errorCount : Z;
  totalTargets : Z
}.

Definition NewResultProcessorWithProgress (totalTargets : Z)
    : ResultProcessor :=
  mkResultProcessor NewCSVWriter 0 0 0 totalTargets.

(** [ProcessResults]: the processor when the loop is left, and the results
    it left in the channel.  The status lines are not modelled. *)
Fixpoint ProcessResults (ctl : ScanControl) (sink : Sink)
    (rp : ResultProcessor) (resultChan : list ScanResult)
    : ResultProcessor * list ScanResult :=
  match resultChan with
  | [] => (rp, [])
  | result :: rest =>
      let total := totalCount rp + 1 in
      match WriteResult (csvWriter rp) result (Now sink total)
                        (WriteError sink total) (Landed sink total)
                        (DuringWrite sink total) with
      | (cw, Some _) =>
          ProcessResults ctl sink
            (mkResultProcessor cw total (feasibleCount rp)
               (errorCount rp) (totalTargets rp)) rest
      | (cw, None) =>
          if negb (String.eqb (Error result) "") then
            ProcessResults ctl sink
              (mkResultProcessor cw total (feasibleCount rp)
                 (errorCount rp + 1) (totalTargets rp)) rest
          else if Feasible result then
            let rp' :=
              mkResultProcessor cw total (feasibleCount rp + 1)
                (errorCount rp) (totalTargets rp) in
            if StopOnMax ctl && (feasibleCount rp' >=? MaxResults ctl)
            then (rp', rest)
            else ProcessResults ctl sink rp' rest
          else
            ProcessResults ctl sink
              (mkResultProcessor cw total (feasibleCount rp)
                 (errorCount rp) (totalTargets rp)) rest
      end
  end.

(** ** main.go *)

(** [loadFeasibleResults] on the content of a file that could be opened. *)
Definition loadFeasibleResults (content : string) : list (list string) :=
  let scanned := bufio.ScanLines content in
  let afterHeader := match scanned with [] => [] | _ :: rest => rest end in
  filter (fun parts => (len parts >=? 10) && String.eqb (nth 9 parts "") "true")
         (map (fun line => strings.Split line ",") afterHeader).

(** The records [WriteResult] appends for the results [rs], the first of
    them being result number [k] of the run, when no write fails. *)
Fixpoint writtenRecords (sink : Sink) (k : Z) (rs : list ScanResult)
    : list (list string) :=
  match rs with
  | [] => []
  | r :: rest => recordOf r (Now sink k) :: writtenRecords sink (k + 1) rest
  end.

Fixpoint appendAll (parts : list string) : string :=
  match parts with
  | [] => EmptyString
  | p :: rest => (p ++ appendAll rest)%string
  end.

(** The file after [NewCSVWriter] and one [writer.Write] per record. *)
Definition fileOf (records : list (list string)) : string :=
  (csv.Write headers ++ appendAll (map csv.Write records))%string.

Definition countFeasible (rs : list ScanResult) : Z :=
  len (filter (fun r => String.eqb (Error r) "" && Feasible r) rs).

(* ================================================================== *)
(** * Part III. Vocabulary of the properties, and sample inputs       *)
(* ================================================================== *)

(** The width [NextIP] restores: 4 for a 4-byte slice, 16 otherwise. *)
Definition widthOf (ip : net.IP) : Z := if len ip =? 4 then 4 else 16.

(** The integer [NextIP] hands to [Bytes]. *)
Definition stepped (ip : net.IP) (increment : bool) : Z :=
  if increment then big.SetBytes ip + 1 else big.SetBytes ip - 1.

Definition ip4 (a b c d : Z) : net.IP :=
  [big.byte_of a; big.byte_of b; big.byte_of c; big.byte_of d].

(** The 16-byte slice whose last bytes are [tail]. *)
Definition ip16 (tail : list byte) : net.IP :=
  repeat x00 (16 - List.length tail) ++ tail.

Definition allOnes4 : net.IP := repeat xff 4.
Definition allOnes16 : net.IP := repeat xff 16.

(** Addresses compared as big-endian integers. *)
Definition hostBefore (a b : Host) : Prop :=
  big.SetBytes (Host_IP a) < big.SetBytes (Host_IP b).

(** Dotted decimal for 4-byte slices, for the sample environments. *)
Definition dotted (ip : net.IP) : string :=
  strings.Join (map (fun b => strconv.Itoa (big.byte_val b)) ip) ".".

(** An environment in which nothing parses, resolves or connects. *)
Definition deadEnv : Env :=
  mkEnv (fun _ => None) (fun _ => None) dotted
        (fun _ => Err "no such host") (fun _ => Some "connection refused")
        (fun _ _ => Err "EOF") (fun _ => 0)
        (fun _ => Err "timeout") (fun _ => false).

(** [deadEnv] with a parser that knows 192.0.2.0/30. *)
Definition cidrEnv : Env :=
  mkEnv (fun _ => None)
        (fun s => if String.eqb s "192.0.2.0/30"
                  then Some (net.mkIPNet (ip4 192 0 2 0) (ip4 255 255 255 252))
                  else None)
        dotted
        (fun _ => Err "no such host") (fun _ => Some "connection refused")
        (fun _ _ => Err "EOF") (fun _ => 0)
        (fun _ => Err "timeout") (fun _ => false).

(** What the loop of [IterateAddr] sends for a candidate. *)
Definition sendIfValid (addr : string) (ip : net.IP) : option Host :=
  if negb (isValidIP ip) then None else Some (mkHost ip addr HostTypeIP).

(** The loop of [IterateAddr] started at the seed [s]. *)
Definition seedLoop (addr : string) (s : net.IP) (fuel : nat)
    : list (net.IP * option Host) * ProducerEnd * AddrLoop :=
  addrLoop fuel addr (mkAddrLoop 0 s s).

Definition candidates (addr : string) (s : net.IP) (fuel : nat)
    : list (net.IP * option Host) :=
  fst (fst (seedLoop addr s fuel)).

Definition finalLoop (addr : string) (s : net.IP) (fuel : nat) : AddrLoop :=
  snd (seedLoop addr s fuel).

(** The candidate the spec expects at position [j] around the seed value
    [S]: S - (k+1) at j = 2k and S + (k+1) at j = 2k+1. *)
Definition outward (S j : Z) : Z :=
  if j mod 2 =? 0 then S - (j / 2 + 1) else S + (j / 2 + 1).

(** Both cursors of a loop state are where the alternation around [S]
    puts them after [loop_i] steps. *)
Definition cursorsAt (S w : Z) (st : AddrLoop) : Prop :=
  0 <= loop_i st
  /\ len (lowIP st) = w /\ len (highIP st) = w
  /\ big.SetBytes (lowIP st) = S - (loop_i st + 1) / 2
  /\ big.SetBytes (highIP st) = S + loop_i st / 2.

(** The sentence of the spec on the candidates of a seed, at one [k], read
    for the addresses that exist: when the seed has an address k+1 below
    it, that address is the 2k-th candidate, and when it has an address
    k+1 above it, that address is the (2k+1)-th candidate. *)
Definition outwardAsStated (addr : string) (s : net.IP) (k : nat) : Prop :=
  (Z.of_nat k + 1 <= big.SetBytes s ->
   exists lo,
     option_map fst (nth_error (candidates addr s (2 * k + 2)) (2 * k))
     = Some lo
     /\ big.SetBytes lo = big.SetBytes s - (Z.of_nat k + 1))
  /\ (big.SetBytes s + (Z.of_nat k + 1) < 256 ^ len s ->
      exists hi,
        option_map fst (nth_error (candidates addr s (2 * k + 2)) (2 * k + 1))
        = Some hi
        /\ big.SetBytes hi = big.SetBytes s + (Z.of_nat k + 1)).

(** Environments whose parser knows one seed. *)
Definition seedEnv (addr : string) (s : net.IP) : Env :=
  mkEnv (fun a => if String.eqb a addr then Some s else None)
        (fun _ => None) dotted
        (fun _ => Err "no such host") (fun _ => Some "connection refused")
        (fun _ _ => Err "EOF") (fun _ => 0)
        (fun _ => Err "timeout") (fun _ => false).

(** 192.0.2.50 as [net.ParseIP] returns it: 16 bytes, IPv4-mapped. *)
Definition seed_192_0_2_50 : net.IP :=
  net.v4InV6Prefix ++ ip4 192 0 2 50.

(** The IPv6 address ::2. *)
Definition seed_v6_2 : net.IP := ip16 [x02].

(** The sentence of the spec on the end of the seed stream: however long
    the producer is observed, it is still running. *)
Definition neverEndsAsStated (env : Env) (addr : string) : Prop :=
  forall fuel : nat, snd (IterateAddr env addr fuel) = Running.

Definition allOnesText : string := "ffff:ffff:ffff:ffff:ffff:ffff:ffff:ffff".

(** The address [scanSingleIP] dials and the [tls.Config] it hands to the
    handshake. *)
Definition addressOf (env : Env) (cfg : Config) (ip : net.IP) : string :=
  IPString env ip ++ ":" ++ strconv.Itoa (Config_Port cfg).

Definition probeTLSConfig (origin : string) : TLSConfig :=
  mkTLSConfig true ["h2"; "http/1.1"] [X25519]
    (if ValidateDomainName origin then origin else "").

(** The invariant of the spec on one result. *)
Definition feasibleImplies (r : ScanResult) : Prop :=
  Feasible r = true ->
  Error r = ""
  /\ TLSVersion r = "TLS 1.3"
  /\ ALPN r = "h2"
  /\ Curve r = "X25519"
  /\ CertDomain r <> ""
  /\ CertIssuer r <> "".

(** The sentence of the spec on steps 7 and 8: whatever domain the two
    checks are called with is the first DNS name of the certificate. *)
Definition firstSANAsStated (names : list string) (events : list Event)
    : Prop :=
  forall d,
    In (EvDetectCloudflareCDN d) events
    \/ In (EvCheckDomainConnectivity d) events ->
    hd_error names = Some d.

(** A server that completes TLS 1.3 with ALPN h2 and a certificate for
    [names] issued by Test CA; [trace] is the answer to /cdn-cgi/trace. *)
Definition sampleState (names : list string) : ConnectionState :=
  mkConnectionState 772 "h2" 4865 [mkCertificate names "" "Test CA" []].

Definition frontEnv (names : list string) (trace : result (Z * result string))
    : Env :=
  mkEnv (fun _ => None) (fun _ => None) dotted
        (fun _ => Err "no such host") (fun _ => None)
        (fun _ _ => Ok (sampleState names)) (fun _ => 12)
        (fun _ => trace) (fun _ => true).

Definition pingOff : ScanControl := mkScanControl 0 false false.
Definition pingOn : ScanControl := mkScanControl 0 false true.

(** A field [csv.Writer] writes as it is. *)
Definition plain (field : string) : Prop := csv.fieldNeedsQuotes field = false.

Definition plainResult (r : ScanResult) : Prop :=
  plain (IP r) /\ plain (Origin r) /\ plain (CertDomain r)
  /\ plain (CertIssuer r) /\ plain (TLSVersion r) /\ plain (ALPN r)
  /\ plain (Curve r) /\ plain (GeoCode r) /\ plain (Error r).

(** A written line, line feed included, that fits the buffer of
    [bufio.Scanner]. *)
Definition fitsScanner (record : list string) : Prop :=
  Z.of_nat (String.length (csv.Write record)) <= bufio.MaxScanTokenSize.

(** Writing the results [rs] with [WriteResult], none of the writes
    failing; the first is result number [k]. *)
Fixpoint writeAll (sink : Sink) (cw : CSVWriter) (k : Z)
    (rs : list ScanResult) : CSVWriter :=
  match rs with
  | [] => cw
  | r :: rest =>
      writeAll sink (fst (WriteResult cw r (Now sink k) None 0%nat false))
        (k + 1) rest
  end.

(** The records written for the feasible ones among [rs]. *)
Fixpoint feasibleRecords (sink : Sink) (k : Z) (rs : list ScanResult)
    : list (list string) :=
  match rs with
  | [] => []
  | r :: rest =>
      if Feasible r
      then recordOf r (Now sink k) :: feasibleRecords sink (k + 1) rest
      else feasibleRecords sink (k + 1) rest
  end.

(** The sentence of the spec on the round trip: the loader gives back the
    records that were written. *)
Definition roundTripAsStated (sink : Sink) (rs : list ScanResult) : Prop :=
  loadFeasibleResults (file (writeAll sink NewCSVWriter 1 rs))
  = writtenRecords sink 1 rs.

Definition sampleSink : Sink :=
  mkSink (fun _ => "2024-05-01 12:00:00") (fun _ => None)
         (fun _ => 0%nat) (fun _ => false).

Definition goodResult : ScanResult :=
  mkScanResult "192.0.2.10" "192.0.2.0/30" 443 "good.example.test" "Test CA"
    "TLS 1.3" "h2" "X25519" "US" true 12 "".

Definition tls12Result : ScanResult :=
  mkScanResult "192.0.2.11" "192.0.2.0/30" 443 "old.example.test" "Test CA"
    "TLS 1.2" "h2" "X25519" "US" false 15 "".

Definition multiSANResult : ScanResult :=
  mkScanResult "192.0.2.12" "192.0.2.0/30" 443 "a.example,b.example"
    "Test CA" "TLS 1.3" "h2" "X25519" "US" true 9 "".

(** An environment for the seed 1.2.3.4 in which every dial succeeds. *)
Definition quadEnv : Env :=
  mkEnv (fun a => if String.eqb a "1.2.3.4"
                  then Some (net.v4InV6Prefix ++ ip4 1 2 3 4) else None)
        (fun _ => None) dotted
        (fun _ => Err "no such host") (fun _ => None)
        (fun _ _ => Err "EOF") (fun _ => 0)
        (fun _ => Err "timeout") (fun _ => false).

(** The bytes of a decimal numeral. *)
Definition decChar (c : ascii) : bool :=
  Ascii.eqb c "-" || inRange "0" "9" c.

Fixpoint allChars (p : ascii -> bool) (s : string) : bool :=
  match s with
  | EmptyString => true
  | String c rest => p c && allChars p rest
  end.

(** What the loader keeps of a list of records. *)
Definition keptByLoader (records : list (list string)) : list (list string) :=
  filter (fun parts => (len parts >=? 10) && String.eqb (nth 9 parts "") "true")
         records.

(** No character class of [r] accepts [c]. *)
Fixpoint avoids (c : ascii) (r : regexp.re) : bool :=
  match r with
  | regexp.Void => true
  | regexp.Eps => true
  | regexp.Class p => negb (p c)
  | regexp.Seq a b => avoids c a && avoids c b
  | regexp.Alt a b => avoids c a && avoids c b
  | regexp.Star a => avoids c a
  end.

(** [deadEnv] with a parser that knows 10.0.0.0/8. *)
Definition tenEnv : Env :=
  mkEnv (fun _ => None)
        (fun s => if String.eqb s "10.0.0.0/8"
                  then Some (net.mkIPNet (ip4 10 0 0 0) (ip4 255 0 0 0))
                  else None)
        dotted
        (fun _ => Err "no such host") (fun _ => Some "connection refused")
        (fun _ _ => Err "EOF") (fun _ => 0)
        (fun _ => Err "timeout") (fun _ => false).

(* ================================================================== *)
(** * Part III-b. More of the Go packages and of the program          *)
(* ================================================================== *)

(** ** strings: [TrimSpace] and [HasPrefix] *)
Module str.

(** The width in bytes of the white-space rune [s] starts with; 0 when it
    starts with no such rune. *)
Definition leadingSpace (s : string) : nat :=
  match s with
  | EmptyString => 0
  | String c _ =>
      if unicode.firstRuneIsSpace s then
        if (N_of_ascii c <? 128)%N then 1
        else if (N_of_ascii c =? 194)%N then 2 else 3
      else 0
  end.

(** [TrimLeftFunc(s, unicode.IsSpace)]; [skip] bytes of a rune that is
    being removed are still to be dropped. *)
Fixpoint trimLeft (skip : nat) (s : string) : string :=
  match s with
  | EmptyString => EmptyString
  | String c rest =>
      match skip with
      | S k => trimLeft k rest
      | O =>
          match leadingSpace s with
          | O => s
          | S w => trimLeft w rest
          end
      end
  end.

(** The width of the white-space rune at the end of a string whose bytes
    are given last byte first. *)
Definition trailingSpace (r : list N) : nat :=
  match r with
  | [] => 0
  | k :: before =>
      if (k <? 128)%N then
        if ((9 <=? k) && (k <=? 13))%N || (k =? 32)%N then 1 else 0
      else
        match before with
        | 194%N :: _ => if (k =? 133)%N || (k =? 160)%N then 2 else 0
        | 154%N :: 225%N :: _ => if (k =? 128)%N then 3 else 0
        | 128%N :: 226%N :: _ =>
            if ((128 <=? k) && (k <=? 138))%N || (k =? 168)%N
               || (k =? 169)%N || (k =? 175)%N
            then 3 else 0
        | 129%N :: 226%N :: _ => if (k =? 159)%N then 3 else 0
        | 128%N :: 227%N :: _ => if (k =? 128)%N then 3 else 0
        | _ => 0
        end
  end.

(** [TrimRightFunc(s, unicode.IsSpace)] on the bytes last first. *)
Fixpoint trimRightRev (skip : nat) (r : list ascii) : list ascii :=
  match r with
  | [] => []
  | c :: before =>
      match skip with
      | S k => trimRightRev k before
      | O =>
          match trailingSpace (map N_of_ascii r) with
          | O => r
          | S w => trimRightRev w before
          end
      end
  end.

Definition trimRight (s : string) : string :=
  string_of_list_ascii (rev (trimRightRev 0 (rev (list_ascii_of_string s)))).

(** [strings.TrimSpace]: the leading and trailing white space, as Unicode
    defines it, is removed. *)
Definition TrimSpace (s : string) : string := trimRight (trimLeft 0 s).

Definition HasPrefix (s prefix : string) : bool := String.prefix prefix s.

End str.

(** ** strconv: [Atoi] *)
Module conv.

Definition digitVal (c : ascii) : option Z :=
  if ((48 <=? N_of_ascii c) && (N_of_ascii c <=? 57))%N
  then Some (Z.of_N (N_of_ascii c) - 48) else None.

Fixpoint digitsVal (s : string) (acc : Z) : option Z :=
  match s with
  | EmptyString => Some acc
  | String c rest =>
      match digitVal c with
      | Some d => digitsVal rest (acc * 10 + d)
      | None => None
      end
  end.

(** [strconv.Atoi] on a 64-bit platform: one optional sign, then at least
    one decimal digit, the value within the range of [int]; [None] for
    every error. *)
Definition Atoi (s : string) : option Z :=
  match s with
  | EmptyString => None
  | String c rest =>
      let neg := Ascii.eqb c "-" in
      let body := if Ascii.eqb c "-" || Ascii.eqb c "+" then rest else s in
      match body with
      | EmptyString => None
      | String _ _ =>
          match digitsVal body 0 with
          | None => None
          | Some n =>
              let v := if neg then - n else n in
              if (- 2 ^ 63 <=? v) && (v <=? 2 ^ 63 - 1) then Some v else None
          end
      end
  end.

End conv.

(** ** net: masks *)
Module netmask.

(** The loop of [CIDRMask] over the [l] bytes of the mask, [n] one bits
    still to place. *)
Fixpoint maskBytes (l : nat) (n : Z) : list byte :=
  match l with
  | O => []
  | S l' =>
      if n >=? 8 then xff :: maskBytes l' (n - 8)
      else big.byte_of (255 - Z.shiftr 255 n) :: maskBytes l' 0
  end.

(** [net.CIDRMask(ones, bits)]; [None] is the nil mask. *)
Definition CIDRMask (ones bits : Z) : option net.IPMask :=
  if negb (bits =? 32) && negb (bits =? 128) then None
  else if (ones <? 0) || (ones >? bits) then None
  else Some (maskBytes (Z.to_nat (bits / 8)) ones).

(** [for v&0x80 != 0 { n++; v <<= 1 }] on a byte. *)
Fixpoint countOnes (fuel : nat) (v n : Z) : Z * Z :=
  match fuel with
  | O => (v, n)
  | S fuel' =>
      if negb (Z.land v 128 =? 0)
      then countOnes fuel' (Z.shiftl v 1 mod 256) (n + 1)
      else (v, n)
  end.

Fixpoint simpleMaskLengthFrom (mask : list byte) (n : Z) : Z :=
  match mask with
  | [] => n
  | v :: rest =>
      if Byte.eqb v xff then simpleMaskLengthFrom rest (n + 8)
      else
        let (v', n') := countOnes 8 (big.byte_val v) n in
        if negb (v' =? 0) then -1
        else if forallb (fun b => Byte.eqb b x00) rest then n' else -1
  end.

Definition simpleMaskLength (mask : net.IPMask) : Z :=
  simpleMaskLengthFrom mask 0.

(** [IPMask.Size]. *)
Definition Size (m : net.IPMask) : Z * Z :=
  let ones := simpleMaskLength m in
  if ones =? -1 then (0, 0) else (ones, len m * 8).

End netmask.

(** ** utils.go, continued *)

Definition ExistOnlyOne (strs : list string) : bool :=
  fold_left (fun count s => if negb (String.eqb s "") then count + 1 else count)
            strs 0 =? 1.

(** [ParseHost]. *)
Definition ParseHost (env : Env) (hostStr : string) : result Host :=
  let hostStr := str.TrimSpace hostStr in
  match ParseIP env hostStr with
  | Some ip => Ok (mkHost ip hostStr HostTypeIP)
  | None =>
      match ParseCIDR env hostStr with
      | Some _ => Ok (mkHost [] hostStr HostTypeCIDR)
      | None =>
          if ValidateDomainName hostStr
          then Ok (mkHost [] hostStr HostTypeDomain)
          else Err ("无法解析主机: " ++ hostStr)%string
      end
  end.

(** The loop of [Iterate] over the lines the scanner delivers: the hosts
    sent to the channel; a panic inside [expandCIDR] ends the producer. *)
Fixpoint iterateLines (env : Env) (scanned : list string)
    : list Host * ProducerEnd :=
  match scanned with
  | [] => ([], Closed)
  | text :: rest =>
      let line := str.TrimSpace text in
      if String.eqb line "" || str.HasPrefix line "#"
      then iterateLines env rest
      else
        match ParseHost env line with
        | Err _ => iterateLines env rest
        | Ok host =>
            match Host_Type host with
            | HostTypeCIDR =>
                match expandCIDR env host with
                | (hosts, Closed) =>
                    let (more, e) := iterateLines env rest in
                    (hosts ++ more, e)
                | (hosts, e) => (hosts, e)
                end
            | _ =>
                let (more, e) := iterateLines env rest in
                (host :: more, e)
            end
        end
  end.

(** [Iterate] on the content of the reader. *)
Definition Iterate (env : Env) (content : string) : list Host * ProducerEnd :=
  iterateLines env (bufio.ScanLines content).

(** [IsPrivateIP]; [None] is the panic of [ip[0]] on an empty slice. *)
Definition IsPrivateIP (ip : net.IP) : option bool :=
  match net.To4 ip with
  | Some ip4 =>
      let b0 := big.byte_val (net.at_ ip4 0) in
      let b1 := big.byte_val (net.at_ ip4 1) in
      Some ((b0 =? 10)
            || ((b0 =? 172) && (b1 >=? 16) && (b1 <=? 31))
            || ((b0 =? 192) && (b1 =? 168)))
  | None =>
      if (len ip =? 16) && Byte.eqb (net.at_ ip 0) xfc then Some true
      else
        match ip with
        | [] => None
        | b :: _ => Some (Byte.eqb b xfd)
        end
  end.

(** ** scanner.go, continued *)

(** [BatchScan] of one worker: the results sent for the hosts received,
    in order. *)
Fixpoint BatchScan (env : Env) (cfg : Config) (ctl : ScanControl)
    (hostChan : list Host) (geo : Geo) : M (list ScanResult) :=
  match hostChan with
  | [] => ret []
  | host :: rest =>
      sent <- ScanTLS env cfg ctl host geo ;;
      more <- BatchScan env cfg ctl rest geo ;;
      ret (sent ++ more)
  end.

Definition ValidateRealityTarget (result : ScanResult) : bool * list string :=
  let issues : list string := [] in
  let issues :=
    if negb (String.eqb (TLSVersion result) RequiredTLSVersion)
    then issues ++ [("TLS版本不符合要求，需要" ++ RequiredTLSVersion ++ "，实际"
                     ++ TLSVersion result)%string]
    else issues in
  let issues :=
    if negb (String.eqb (ALPN result) RequiredALPN)
    then issues ++ [("ALPN协议不符合要求，需要" ++ RequiredALPN ++ "，实际"
                     ++ ALPN result)%string]
    else issues in
  let issues :=
    if negb (String.eqb (Curve result) RequiredCurve)
    then issues ++ [("椭圆曲线不符合要求，需要" ++ RequiredCurve ++ "，实际"
                     ++ Curve result)%string]
    else issues in
  let issues :=
    if String.eqb (CertDomain result) "" then issues ++ ["证书域名为空"]
    else issues in
  let issues :=
    if String.eqb (CertIssuer result) "" then issues ++ ["证书颁发者为空"]
    else issues in
  (len issues =? 0, issues).

(** ** output.go, continued *)

(** [truncateString]; [None] is the panic of [s[:maxLen-3]] for a negative
    bound. *)
Definition truncateString (s : string) (maxLen : Z) : option string :=
  if Z.of_nat (String.length s) <=? maxLen then Some s
  else if maxLen - 3 <? 0 then None
  else Some (String.substring 0 (Z.to_nat (maxLen - 3)) s ++ "...")%string.

(** ** main.go, continued *)

Definition isValidMask (mask : string) : bool :=
  if negb (str.HasPrefix mask "/") then false
  else
    match mask with
    | EmptyString => false
    | String _ maskStr =>
        match conv.Atoi maskStr with
        | None => false
        | Some maskBits => (maskBits >=? 0) && (maskBits <=? 32)
        end
    end.

(** [network[i] = ip[i] & maskValue[i]]. *)
Fixpoint andBytes (ip mask : list byte) : list byte :=
  match ip, mask with
  | a :: ip', m :: mask' =>
      big.byte_of (Z.land (big.byte_val a) (big.byte_val m)) :: andBytes ip' mask'
  | _, _ => []
  end.

(** [calculateNetworkAddress]; the outer [None] is a panic: [mask[1:]] on
    the empty string, or [maskValue[i]] on the nil mask [CIDRMask] returns
    for a bit count outside 0..32. *)
Definition calculateNetworkAddress (env : Env) (ipStr mask : string)
    : option (result string) :=
  match ParseIP env ipStr with
  | None => Some (Err "无效的IP地址")
  | Some ip =>
      match net.To4 ip with
      | None => Some (Err "不是有效的IPv4地址")
      | Some ip4 =>
          match mask with
          | EmptyString => None
          | String _ maskStr =>
              match conv.Atoi maskStr with
              | None => Some (Err "无效的掩码位数")
              | Some maskBits =>
                  match netmask.CIDRMask maskBits 32 with
                  | None => None
                  | Some maskValue =>
                      Some (Ok (IPString env (andBytes ip4 maskValue)))
                  end
              end
          end
      end
  end.

(** The CIDR branch of [scanAddress]: the number of targets announced. *)
Definition totalTargetsOf (ipNet : net.IPNet) : Z :=
  let (ones, bits) := netmask.Size (net.Mask ipNet) in
  let hostBits := bits - ones in
  if hostBits >? 16 then 65536 else Z.shiftl 1 hostBits.

(** ** Vocabulary of the further properties *)

(** The checks of [IsRealityFeasible] that need no network. *)
Definition localChecks (sr : ScanResult) : bool :=
  String.eqb (TLSVersion sr) RequiredTLSVersion
  && String.eqb (ALPN sr) RequiredALPN
  && String.eqb (Curve sr) RequiredCurve
  && negb (String.eqb (CertDomain sr) "")
  && negb (String.eqb (CertIssuer sr) "").

(** The value of a lower-case hexadecimal digit. *)
Definition hexVal (c : ascii) : Z :=
  let k := Z.of_N (N_of_ascii c) in
  if k <? 58 then k - 48 else k - 87.

(** A disk that fails while the second result is flushed, after 20 bytes
    of its record. *)
Definition faultySink : Sink :=
  mkSink (fun _ => "2024-05-01 12:00:00")
         (fun k => if k =? 2 then Some "disk full" else None)
         (fun _ => 20%nat) (fun _ => false).

(** The calls of one probe of the address [a] with the TLS configuration
    [c] and the certificate names [d], in the order of the code. *)
Definition probeEvents (a : string) (c : TLSConfig) (d : string)
    : list Event :=
  [EvDial a; EvHandshake a c; EvDetectCloudflareCDN d;
   EvHTTPGet ("https://" ++ d ++ "/cdn-cgi/trace")%string;
   EvCheckDomainConnectivity d; EvPing d].

(** What [Iterate] may send for the line [text] of its input. *)
Definition sentFor (env : Env) (text : string) (h : Host) : Prop :=
  let line := str.TrimSpace text in
  line <> "" /\ str.HasPrefix line "#" = false
  /\ Host_Origin h = str.TrimSpace line
  /\ ((Host_Type h = HostTypeIP
       /\ ParseIP env (Host_Origin h) = Some (Host_IP h))
      \/ (Host_Type h = HostTypeIP
          /\ ParseIP env (Host_Origin h) = None
          /\ exists ipNet,
               ParseCIDR env (Host_Origin h) = Some ipNet
               /\ net.Contains ipNet (Host_IP h) = true)
      \/ (Host_Type h = HostTypeDomain
          /\ Host_IP h = []
          /\ ParseIP env (Host_Origin h) = None
          /\ ParseCIDR env (Host_Origin h) = None
          /\ ValidateDomainName (Host_Origin h) = true)).


(** ** The language of a pattern *)

(** The strings a pattern matches in full, by the structure of the
    pattern. *)
Inductive matches : regexp.re -> string -> Prop :=
| MEps : matches regexp.Eps ""
| MClass (p : ascii -> bool) (c : ascii) :
    p c = true -> matches (regexp.Class p) (String c "")
| MSeq (a b : regexp.re) (s t : string) :
    matches a s -> matches b t -> matches (regexp.Seq a b) (s ++ t)
| MAltL (a b : regexp.re) (s : string) :
    matches a s -> matches (regexp.Alt a b) s
| MAltR (a b : regexp.re) (s : string) :
    matches b s -> matches (regexp.Alt a b) s
| MStarNil (a : regexp.re) : matches (regexp.Star a) ""
| MStarApp (a : regexp.re) (s t : string) :
    matches a s -> matches (regexp.Star a) t ->
    matches (regexp.Star a) (s ++ t).

(** The last byte of the string that starts with [c] and goes on with
    [rest]. *)
Fixpoint lastChar (c : ascii) (rest : string) : ascii :=
  match rest with
  | EmptyString => c
  | String d rest' => lastChar d rest'
  end.

(** A label of a domain name as the pattern of [ValidateDomainName] has
    it: 1 to 63 letters, digits and hyphens, no hyphen first or last. *)
Definition isLabel (l : string) : bool :=
  match l with
  | EmptyString => false
  | String c rest =>
      alnum c && alnum (lastChar c rest) && allChars alnumHyphen rest
      && (Z.of_nat (String.length l) <=? 63)
  end.

(** The labels, each after a dot. *)
Fixpoint dotJoin (labels : list string) : string :=
  match labels with
  | [] => EmptyString
  | l :: rest => String "." (l ++ dotJoin rest)
  end.

(** ** main.go: the table of [showResultsPaginated] *)

(** The arguments of the [Printf] of row [i] of the table, evaluated in
    order; [None] is the panic of an index out of range. *)
Definition showRow (i : Z) (result : list string) : option (list string) :=
  match nth_error result 0 with
  | None => None
  | Some ip =>
      match nth_error result 3 with
      | None => None
      | Some certDomain =>
          match truncateString certDomain 25 with
          | None => None
          | Some shown =>
              match nth_error result 8 with
              | None => None
              | Some geoCode =>
                  match nth_error result 10 with
                  | None => None
                  | Some ms => Some [strconv.Itoa (i + 1); ip; shown; geoCode; ms]
                  end
              end
          end
      end
  end.

(** A result that is not feasible, from a certificate whose issuer name
    carries two line feeds. *)
Definition plantedResult : ScanResult :=
  mkScanResult "192.0.2.13" "192.0.2.0/30" 443 "old.example.test"
    ("CA" ++ String csv.LF "1,2,3,4,5,6,7,8,9,true" ++ String csv.LF "Z")
    "TLS 1.2" "h2" "X25519" "US" false 15 "".

(** ** main.go: the questions of [main] *)

(** The scan target [main] builds from the address in use, the answer on
    the /24 segment and the mask typed otherwise; [None] is a panic. *)
Definition scanTargetOf (env : Env) (targetIP : string) (use24Subnet : bool)
    (maskInput : string) : option string :=
  if use24Subnet then Some (targetIP ++ "/24")%string
  else if String.eqb maskInput "" then Some (targetIP ++ "/24")%string
  else
    let maskInput :=
      if negb (str.HasPrefix maskInput "/") then ("/" ++ maskInput)%string
      else maskInput in
    if isValidMask maskInput then
      match calculateNetworkAddress env targetIP maskInput with
      | None => None
      | Some (Err _) => Some (targetIP ++ "/24")%string
      | Some (Ok networkAddr) => Some (networkAddr ++ maskInput)%string
      end
    else Some (targetIP ++ "/24")%string.

(** The scan control [main] sets from the answer on stopping at ten, the
    maximum typed otherwise, and the answer on the ping test. *)
Definition scanControlOf (stopAt10 : bool) (maxStr : string)
    (pingDomain : bool) : ScanControl :=
  if stopAt10 then mkScanControl 10 true pingDomain
  else if String.eqb maxStr "" then mkScanControl 0 false pingDomain
  else
    match conv.Atoi maxStr with
    | Some max =>
        if max >? 0 then mkScanControl max true pingDomain
        else mkScanControl 0 false pingDomain
    | None => mkScanControl 0 false pingDomain
    end.

(** Whether the failure of the disk at result number [k] comes back from
    [writer.Write]: the record [r] overflows the buffer and the write that
    failed was made inside [writer.Write].  A failure inside [Flush] stays
    in the writer. *)
Definition failureReturned (sink : Sink) (k : Z) (r : ScanResult) : bool :=
  (bufio.defaultBufSize
   <? Z.of_nat (String.length (csv.Write (recordOf r (Now sink k)))))
  && DuringWrite sink k.

(** The results with an error text. *)
Definition withError (rs : list ScanResult) : list ScanResult :=
  filter (fun r => negb (String.eqb (Error r) "")) rs.

(** The books of a run of [ProcessResults] that starts at [rp] with a
    writer in working order, ends at [rp'] and took the results [taken].
    Either the disk took every record: the file grew by the records of all
    the results taken, and [errorCount] and [feasibleCount] count them all.
    Or the disk failed first at the record of the result [r], number [f] of
    the run: the file grew by the records of the results before [r] and by
    the bytes of the record of [r] that had landed, the writer holds the
    error, and the counters count the results before [r], and [r] itself
    unless [writer.Write] returned the failure; of the results after [r]
    nothing is written or counted. *)
Definition booksBalance (sink : Sink) (rp rp' : ResultProcessor)
    (taken : list ScanResult) : Prop :=
  ((forall j, totalCount rp < j <= totalCount rp + len taken ->
              WriteError sink j = None)
   /\ writerErr (csvWriter rp') = None
   /\ file (csvWriter rp')
      = (file (csvWriter rp)
         ++ appendAll (map csv.Write
                         (writtenRecords sink (totalCount rp + 1) taken)))%string
   /\ errorCount rp' = errorCount rp + len (withError taken)
   /\ feasibleCount rp' = feasibleCount rp + countFeasible taken)
  \/
  (exists before r after e f,
      taken = before ++ r :: after
      /\ f = totalCount rp + len before + 1
      /\ (forall j, totalCount rp < j < f -> WriteError sink j = None)
      /\ WriteError sink f = Some e
      /\ writerErr (csvWriter rp') = Some e
      /\ file (csvWriter rp')
         = (file (csvWriter rp)
            ++ appendAll (map csv.Write
                            (writtenRecords sink (totalCount rp + 1) before))
            ++ String.substring 0 (Landed sink f)
                 (csv.Write (recordOf r (Now sink f))))%string
      /\ errorCount rp'
         = errorCount rp + len (withError before)
           + (if failureReturned sink f r then 0 else len (withError [r]))
      /\ feasibleCount rp'
         = feasibleCount rp + countFeasible before
           + (if failureReturned sink f r then 0 else countFeasible [r])).


(** ** The server name a handshake sends *)

(** The server name indication of a handshake made with the configuration
    [c]: [tls.Client] sends [hostnameInSNI(c.ServerName)]. *)
Definition serverNameIndication (env : Env) (c : TLSConfig) : string :=
  tls.hostnameInSNI (ParseIP env) (ServerName c).

(** [scanAddress]: the hosts of the channel it hands to
    [ScanWithConcurrency], the generator of a seed observed for [fuel]
    iterations of its loop. *)
Definition scanAddressHosts (env : Env) (addr : string) (fuel : nat)
    : result (list Host * ProducerEnd) :=
  match ParseHost env addr with
  | Err err => Err ("解析地址失败: " ++ err)%string
  | Ok host =>
      match Host_Type host with
      | HostTypeIP => Ok (IterateAddr env addr fuel)
      | HostTypeCIDR =>
          match ParseCIDR env addr with
          | None =>
              Err ("解析CIDR失败: invalid CIDR address: " ++ addr)%string
          | Some _ => Ok (IterateCIDR env addr)
          end
      | HostTypeDomain => Ok ([host], Closed)
      end
  end.

(** The hosts the program hands to [ScanTLS]: those of the channel of
    [scanAddress], and those [Iterate] sends for a list of targets. *)
Definition scannedHost (env : Env) (host : Host) : Prop :=
  (exists addr fuel run,
      scanAddressHosts env addr fuel = Ok run /\ In host (fst run))
  \/ (exists content, In host (fst (Iterate env content))).

(* ================================================================== *)
(** * Part IV. Properties                                             *)
(* ================================================================== *)

(** ** Big-endian integers *)

Lemma byte_val_range (b : byte) : 0 <= big.byte_val b < 256.
Proof.
  unfold big.byte_val. pose proof (Byte.to_N_bounded b). lia.
Qed.

Lemma byte_val_of (z : Z) : big.byte_val (big.byte_of z) = z mod 256.
Proof.
  unfold big.byte_val, big.byte_of.
  pose proof (Z.mod_pos_bound z 256 ltac:(lia)) as Hm.
  destruct (Byte.of_N (Z.to_N (z mod 256))) as [b|] eqn:E.
  - apply Byte.to_of_N in E. rewrite E. lia.
  - apply Byte.of_N_None_iff in E. lia.
Qed.

Lemma byte_of_val (b : byte) : big.byte_of (big.byte_val b) = b.
Proof.
  unfold big.byte_of.
  pose proof (byte_val_range b) as Hr.
  rewrite Z.mod_small by lia.
  unfold big.byte_val. rewrite N2Z.id, Byte.of_to_N. reflexivity.
Qed.

Lemma byte_val_inj (a b : byte) : big.byte_val a = big.byte_val b -> a = b.
Proof.
  intros H. rewrite <- (byte_of_val a), <- (byte_of_val b), H. reflexivity.
Qed.

Lemma len_nil {A : Type} : len (@nil A) = 0.
Proof. reflexivity. Qed.

Lemma len_cons {A : Type} (a : A) (l : list A) : len (a :: l) = len l + 1.
Proof. unfold len. cbn [List.length]. lia. Qed.

Lemma len_app {A : Type} (l1 l2 : list A) : len (l1 ++ l2) = len l1 + len l2.
Proof. unfold len. rewrite length_app. lia. Qed.

Lemma len_nonneg {A : Type} (l : list A) : 0 <= len l.
Proof. unfold len. lia. Qed.

Lemma fold_SetBytes (l : list byte) (a : Z) :
  fold_left (fun acc b => acc * 256 + big.byte_val b) l a
  = a * 256 ^ len l + big.SetBytes l.
Proof.
  unfold big.SetBytes. revert a.
  induction l as [|b l IH]; intros a; cbn [fold_left].
  - rewrite len_nil. cbn. lia.
  - rewrite IH, (IH (0 * 256 + big.byte_val b)), len_cons.
    rewrite Z.pow_add_r by (pose proof (len_nonneg l); lia). lia.
Qed.

Lemma SetBytes_cons (b : byte) (l : list byte) :
  big.SetBytes (b :: l) = big.byte_val b * 256 ^ len l + big.SetBytes l.
Proof.
  unfold big.SetBytes at 1. cbn [fold_left]. rewrite fold_SetBytes. lia.
Qed.

Lemma SetBytes_app (l1 l2 : list byte) :
  big.SetBytes (l1 ++ l2) = big.SetBytes l1 * 256 ^ len l2 + big.SetBytes l2.
Proof.
  unfold big.SetBytes at 1. rewrite fold_left_app.
  rewrite fold_SetBytes. reflexivity.
Qed.

Lemma SetBytes_range (l : list byte) : 0 <= big.SetBytes l < 256 ^ len l.
Proof.
  induction l as [|b l IH].
  - cbn. lia.
  - rewrite SetBytes_cons, len_cons.
    pose proof (byte_val_range b). pose proof (len_nonneg l).
    rewrite Z.pow_add_r by lia. nia.
Qed.

Lemma SetBytes_zeros (n : nat) (l : list byte) :
  big.SetBytes (repeat x00 n ++ l) = big.SetBytes l.
Proof.
  induction n as [|n IH]; [reflexivity|].
  cbn [repeat app]. rewrite SetBytes_cons, IH. cbn. lia.
Qed.

(** Two slices of one length that denote the same integer are equal. *)
Lemma SetBytes_inj (l1 l2 : list byte) :
  List.length l1 = List.length l2 -> big.SetBytes l1 = big.SetBytes l2 -> l1 = l2.
Proof.
  revert l2. induction l1 as [|a l1 IH]; intros [|b l2] Hlen Hval;
    try discriminate; [reflexivity|].
  injection Hlen as Hlen.
  rewrite !SetBytes_cons in Hval.
  assert (Hl : len l1 = len l2) by (unfold len; lia).
  rewrite Hl in Hval.
  pose proof (SetBytes_range l1) as R1. pose proof (SetBytes_range l2) as R2.
  rewrite Hl in R1.
  pose proof (byte_val_range a). pose proof (byte_val_range b).
  assert (big.byte_val a = big.byte_val b) by nia.
  f_equal.
  - now apply byte_val_inj.
  - apply IH; [assumption | nia].
Qed.

Lemma digits_spec (fuel : nat) :
  forall (n : Z) (acc : list byte),
    0 <= n < 2 ^ Z.of_nat fuel ->
    exists ds,
      big.digits fuel n acc = ds ++ acc
      /\ big.SetBytes ds = n
      /\ forall w : nat, (List.length ds <= w)%nat <-> n < 256 ^ Z.of_nat w.
Proof.
  induction fuel as [|fuel IH]; intros n acc Hn.
  - exists []. cbn in Hn. assert (n = 0) by lia. subst n.
    repeat split; try reflexivity; intros; cbn [List.length]; lia.
  - cbn [big.digits]. destruct (n =? 0) eqn:E.
    + apply Z.eqb_eq in E. subst n. exists [].
      repeat split; try reflexivity; intros; cbn [List.length]; lia.
    + apply Z.eqb_neq in E.
      assert (Hq : 0 <= n / 256 < 2 ^ Z.of_nat fuel).
      { split; [apply Z.div_pos; lia|].
        rewrite Nat2Z.inj_succ, Z.pow_succ_r in Hn by lia.
        apply Z.div_lt_upper_bound; lia. }
      destruct (IH (n / 256) (big.byte_of n :: acc) Hq) as (ds & Hd & Hv & Hw).
      exists (ds ++ [big.byte_of n]). split; [|split].
      * rewrite Hd, <- app_assoc. reflexivity.
      * rewrite SetBytes_app, Hv. cbn [len List.length].
        change (big.SetBytes [big.byte_of n]) with (0 * 256 + big.byte_val (big.byte_of n)).
        rewrite byte_val_of. change (256 ^ len [big.byte_of n]) with 256.
        pose proof (Z.div_mod n 256). lia.
      * intros w. rewrite length_app. cbn [List.length].
        destruct w as [|w].
        -- cbn. split; intros; lia.
        -- rewrite Nat2Z.inj_succ, Z.pow_succ_r by lia.
           specialize (Hw w).
           split; intros Hx.
           ++ assert (n / 256 < 256 ^ Z.of_nat w) by (apply Hw; lia).
              pose proof (Z.div_mod n 256). pose proof (Z.mod_pos_bound n 256).
              lia.
           ++ assert (n / 256 < 256 ^ Z.of_nat w)
                by (apply Z.div_lt_upper_bound; lia).
              apply Hw in H. lia.
Qed.

Lemma Bytes_spec (x : Z) :
  big.SetBytes (big.Bytes x) = Z.abs x
  /\ forall w : nat,
       (List.length (big.Bytes x) <= w)%nat <-> Z.abs x < 256 ^ Z.of_nat w.
Proof.
  unfold big.Bytes.
  assert (Hn : 0 <= Z.abs x < 2 ^ Z.of_nat (S (Z.to_nat (Z.log2 (Z.abs x))))).
  { split; [lia|].
    rewrite Nat2Z.inj_succ, Z2Nat.id by apply Z.log2_nonneg.
    destruct (Z.eq_dec (Z.abs x) 0) as [->|Hz]; [cbn; lia|].
    apply Z.log2_spec. lia. }
  destruct (digits_spec _ _ [] Hn) as (ds & Hd & Hv & Hw).
  rewrite Hd, app_nil_r. auto.
Qed.

(** ** [NextIP] *)

Lemma widthOf_cases (ip : net.IP) :
  (len ip = 4 /\ widthOf ip = 4) \/ (len ip <> 4 /\ widthOf ip = 16).
Proof.
  unfold widthOf. destruct (len ip =? 4) eqn:E.
  - apply Z.eqb_eq in E. auto.
  - apply Z.eqb_neq in E. auto.
Qed.

Lemma make_pad (w : nat) (b : list byte) :
  (List.length b <= w)%nat ->
  exists pad,
    make (Z.of_nat w - len b) = Some pad
    /\ len (pad ++ b) = Z.of_nat w
    /\ big.SetBytes (pad ++ b) = big.SetBytes b.
Proof.
  intros Hle. unfold make, len.
  destruct (Z.of_nat w - Z.of_nat (List.length b) <? 0) eqn:E.
  - apply Z.ltb_lt in E. lia.
  - eexists. split; [reflexivity|]. split.
    + rewrite length_app, repeat_length. lia.
    + apply SetBytes_zeros.
Qed.

Lemma make_panics (w : nat) (b : list byte) :
  (w < List.length b)%nat -> make (Z.of_nat w - len b) = None.
Proof.
  intros Hlt. unfold make, len.
  destruct (Z.of_nat w - Z.of_nat (List.length b) <? 0) eqn:E;
    [reflexivity|]. apply Z.ltb_ge in E. lia.
Qed.

(** [NextIP] returns the [widthOf]-byte encoding of the magnitude of the
    stepped integer whenever that magnitude fits the width. *)
Lemma NextIP_fits (ip : net.IP) (increment : bool) :
  Z.abs (stepped ip increment) < 256 ^ widthOf ip ->
  exists ip',
    NextIP ip increment = Some ip'
    /\ len ip' = widthOf ip
    /\ big.SetBytes ip' = Z.abs (stepped ip increment).
Proof.
  intros Hfit. unfold NextIP. fold (stepped ip increment).
  destruct (Bytes_spec (stepped ip increment)) as [Hv Hw].
  unfold widthOf in *. destruct (len ip =? 4).
  - destruct (make_pad 4 (big.Bytes (stepped ip increment))) as (pad & Hp & Hl & Hs).
    { apply Hw. exact Hfit. }
    change (Z.of_nat 4) with 4 in *. rewrite Hp.
    exists (pad ++ big.Bytes (stepped ip increment)). rewrite Hs. auto.
  - destruct (make_pad 16 (big.Bytes (stepped ip increment))) as (pad & Hp & Hl & Hs).
    { apply Hw. exact Hfit. }
    change (Z.of_nat 16) with 16 in *. rewrite Hp.
    exists (pad ++ big.Bytes (stepped ip increment)). rewrite Hs. auto.
Qed.

(** Otherwise the padding has a negative length and [NextIP] panics. *)
Lemma NextIP_overflow (ip : net.IP) (increment : bool) :
  256 ^ widthOf ip <= Z.abs (stepped ip increment) ->
  NextIP ip increment = None.
Proof.
  intros Hbig. unfold NextIP. fold (stepped ip increment).
  destruct (Bytes_spec (stepped ip increment)) as [Hv Hw].
  unfold widthOf in *. destruct (len ip =? 4).
  - rewrite (make_panics 4); [reflexivity|].
    destruct (le_lt_dec (List.length (big.Bytes (stepped ip increment))) 4) as [H|H];
      [apply Hw in H; change (Z.of_nat 4) with 4 in H; lia | exact H].
  - rewrite (make_panics 16); [reflexivity|].
    destruct (le_lt_dec (List.length (big.Bytes (stepped ip increment))) 16) as [H|H];
      [apply Hw in H; change (Z.of_nat 16) with 16 in H; lia | exact H].
Qed.

Lemma widthOf_len (ip : net.IP) : len ip = 4 \/ len ip = 16 -> widthOf ip = len ip.
Proof.
  unfold widthOf. intros [H|H]; rewrite H; reflexivity.
Qed.

Lemma widthOf_eq (ip ip' : net.IP) :
  len ip = 4 \/ len ip = 16 -> len ip' = widthOf ip -> widthOf ip' = widthOf ip.
Proof.
  intros H Hl. rewrite (widthOf_len ip H) in *.
  apply widthOf_len in H as Hw. rewrite widthOf_len; lia.
Qed.

(** C6. For a 4-byte or 16-byte address that is not the all-ones address of
    its width (so that neither step overflows), incrementing with [NextIP]
    and then decrementing gives back the same slice, hence the same address
    with the same byte width. *)
Theorem NextIP_up_then_down (ip : net.IP) :
  len ip = 4 \/ len ip = 16 ->
  big.SetBytes ip + 1 < 256 ^ len ip ->
  exists up,
    NextIP ip true = Some up
    /\ len up = len ip
    /\ NextIP up false = Some ip.
Proof.
  intros Hlen Hno.
  pose proof (SetBytes_range ip) as Hr.
  pose proof (widthOf_len ip Hlen) as Hw.
  destruct (NextIP_fits ip true) as (up & Hup & Hlup & Hvup).
  { unfold stepped. rewrite Hw. lia. }
  unfold stepped in Hvup. rewrite Z.abs_eq in Hvup by lia.
  exists up. split; [exact Hup|]. split; [lia|].
  pose proof (widthOf_eq ip up Hlen Hlup) as Hwup.
  destruct (NextIP_fits up false) as (back & Hback & Hlb & Hvb).
  { unfold stepped. rewrite Hwup, Hw, Hvup. lia. }
  unfold stepped in Hvb. rewrite Hvup in Hvb.
  rewrite Z.abs_eq in Hvb by lia.
  rewrite Hback. f_equal.
  apply SetBytes_inj; [|lia].
  unfold len in *. lia.
Qed.

Lemma NextIP_up_then_down_witness :
  (len (ip4 192 0 2 255) = 4 \/ len (ip4 192 0 2 255) = 16)
  /\ big.SetBytes (ip4 192 0 2 255) + 1 < 256 ^ len (ip4 192 0 2 255)
  /\ exists up,
       NextIP (ip4 192 0 2 255) true = Some up
       /\ len up = len (ip4 192 0 2 255)
       /\ NextIP up false = Some (ip4 192 0 2 255).
Proof.
  assert (H1 : len (ip4 192 0 2 255) = 4 \/ len (ip4 192 0 2 255) = 16)
    by (left; reflexivity).
  assert (H2 : big.SetBytes (ip4 192 0 2 255) + 1 < 256 ^ len (ip4 192 0 2 255))
    by (vm_compute; reflexivity).
  split; [exact H1|]. split; [exact H2|].
  exact (NextIP_up_then_down (ip4 192 0 2 255) H1 H2).
Defined.

(** C10. [NextIP] is partial at the width boundary.  Incrementing the
    all-ones address of 4 (or 16) bytes gives an integer of 5 (or 17) bytes,
    the padding is requested with the negative length 4 - 5 (or 16 - 17),
    [make] panics and so does [NextIP]: no wrap-around, no error value.
    Decrementing 0.0.0.0 gives -1, whose magnitude is encoded: the result is
    0.0.0.1, not 255.255.255.255. *)
Theorem NextIP_width_boundary :
  (len (big.Bytes (stepped allOnes4 true)) = 5
   /\ make (4 - len (big.Bytes (stepped allOnes4 true))) = None
   /\ NextIP allOnes4 true = None)
  /\ (len (big.Bytes (stepped allOnes16 true)) = 17
      /\ make (16 - len (big.Bytes (stepped allOnes16 true))) = None
      /\ NextIP allOnes16 true = None)
  /\ (stepped (ip4 0 0 0 0) false = -1
      /\ NextIP (ip4 0 0 0 0) false = Some (ip4 0 0 0 1)
      /\ NextIP (ip4 0 0 0 0) false <> Some allOnes4).
Proof.
  repeat split; try (vm_compute; reflexivity).
  vm_compute. discriminate.
Qed.

(** ** The CIDR enumerator *)

Lemma NextIP_up_value (ip ip' : net.IP) :
  NextIP ip true = Some ip' ->
  big.SetBytes ip' = big.SetBytes ip + 1 /\ len ip' = widthOf ip.
Proof.
  intros H.
  pose proof (SetBytes_range ip) as Hr.
  destruct (Z_lt_le_dec (Z.abs (stepped ip true)) (256 ^ widthOf ip)) as [Hfit|Hbig].
  - destruct (NextIP_fits ip true Hfit) as (x & Hx & Hl & Hv).
    rewrite Hx in H. injection H as <-.
    unfold stepped in Hv. rewrite Z.abs_eq in Hv by lia. auto.
  - rewrite (NextIP_overflow ip true Hbig) in H. discriminate.
Qed.

Section CidrLoop.

Variables (origin : string) (ipNet : net.IPNet).

Lemma cidrLoop_emitted (fuel : nat) :
  forall ip count,
    Forall (fun h => net.Contains ipNet (Host_IP h) = true
                     /\ Host_Origin h = origin
                     /\ Host_Type h = HostTypeIP)
           (fst (cidrLoop fuel origin ipNet ip count)).
Proof.
  induction fuel as [|fuel IH]; intros ip count; cbn [cidrLoop].
  - constructor.
  - destruct (net.Contains ipNet ip) eqn:Hc; cbn [negb]; [|constructor].
    destruct (count >=? maxHosts); [constructor|].
    destruct (NextIP ip true) as [ip'|].
    + specialize (IH ip' (count + 1)).
      destruct (cidrLoop fuel origin ipNet ip' (count + 1)) as [hosts e].
      cbn [fst] in *. constructor; auto.
    + cbn [fst]. constructor; auto.
Qed.

Lemma cidrLoop_count (fuel : nat) :
  forall ip count,
    count <= maxHosts ->
    len (fst (cidrLoop fuel origin ipNet ip count)) <= maxHosts - count.
Proof.
  induction fuel as [|fuel IH]; intros ip count Hc; cbn [cidrLoop].
  - cbn [fst]. rewrite len_nil. lia.
  - destruct (negb (net.Contains ipNet ip)); [cbn [fst]; rewrite len_nil; lia|].
    destruct (count >=? maxHosts) eqn:E; [cbn [fst]; rewrite len_nil; lia|].
    rewrite Z.geb_leb in E. apply Z.leb_gt in E.
    destruct (NextIP ip true) as [ip'|].
    + specialize (IH ip' (count + 1) ltac:(lia)).
      destruct (cidrLoop fuel origin ipNet ip' (count + 1)) as [hosts e].
      cbn [fst] in *. rewrite len_cons. lia.
    + cbn [fst]. rewrite len_cons, len_nil. lia.
Qed.

Lemma cidrLoop_ends (fuel : nat) :
  forall ip count,
    count <= maxHosts ->
    maxHosts - count < Z.of_nat fuel ->
    snd (cidrLoop fuel origin ipNet ip count) <> Running.
Proof.
  induction fuel as [|fuel IH]; intros ip count Hc Hf; cbn [cidrLoop].
  - lia.
  - destruct (negb (net.Contains ipNet ip)); [cbn; discriminate|].
    destruct (count >=? maxHosts) eqn:E; [cbn; discriminate|].
    rewrite Z.geb_leb in E. apply Z.leb_gt in E.
    destruct (NextIP ip true) as [ip'|]; [|cbn; discriminate].
    specialize (IH ip' (count + 1) ltac:(lia) ltac:(lia)).
    destruct (cidrLoop fuel origin ipNet ip' (count + 1)) as [hosts e].
    exact IH.
Qed.

Lemma cidrLoop_nth (fuel : nat) :
  forall ip count (k : nat) h,
    nth_error (fst (cidrLoop fuel origin ipNet ip count)) k = Some h ->
    big.SetBytes (Host_IP h) = big.SetBytes ip + Z.of_nat k
    /\ (k = 0%nat -> Host_IP h = ip).
Proof.
  induction fuel as [|fuel IH]; intros ip count k h; cbn [cidrLoop].
  - destruct k; discriminate.
  - destruct (negb (net.Contains ipNet ip)); [destruct k; discriminate|].
    destruct (count >=? maxHosts); [destruct k; discriminate|].
    destruct (NextIP ip true) as [ip'|] eqn:Hn.
    + specialize (IH ip' (count + 1)).
      destruct (cidrLoop fuel origin ipNet ip' (count + 1)) as [hosts e].
      cbn [fst] in *. destruct k as [|k]; cbn [nth_error].
      * intros [= <-]. cbn [Host_IP Z.of_nat]. split; [lia|reflexivity].
      * intros Hk. destruct (IH k h Hk) as [Hv _].
        apply NextIP_up_value in Hn as [Hn _]. split; [lia|discriminate].
    + cbn [fst]. destruct k as [|[|k]]; cbn [nth_error]; try discriminate.
      intros [= <-]. cbn [Host_IP Z.of_nat]. split; [lia|reflexivity].
Qed.

Lemma cidrLoop_sorted (fuel : nat) :
  forall ip count,
    StronglySorted hostBefore (fst (cidrLoop fuel origin ipNet ip count)).
Proof.
  intros ip count.
  remember (fst (cidrLoop fuel origin ipNet ip count)) as hosts eqn:Hh.
  assert (Hn : forall k h, nth_error hosts k = Some h ->
                 big.SetBytes (Host_IP h) = big.SetBytes ip + Z.of_nat k).
  { intros k h Hk. subst hosts. now apply cidrLoop_nth in Hk. }
  clear Hh. revert Hn. generalize (big.SetBytes ip) as base.
  induction hosts as [|h hosts IH]; intros base Hn; constructor.
  - apply (IH (base + 1)). intros k x Hk.
    specialize (Hn (S k) x Hk). lia.
  - apply Forall_forall. intros x Hx.
    destruct (In_nth_error _ _ Hx) as [k Hk].
    pose proof (Hn 0%nat h eq_refl). pose proof (Hn (S k) x Hk).
    unfold hostBefore. lia.
Qed.

End CidrLoop.

Lemma sameMasked_refl (nn m : list byte) : net.sameMasked nn m nn = true.
Proof.
  revert m. induction nn as [|a nn IH]; intros [|k m]; cbn [net.sameMasked];
    try reflexivity.
  rewrite Z.eqb_refl, IH. reflexivity.
Qed.

Lemma To4_len (ip ip4 : net.IP) : net.To4 ip = Some ip4 -> len ip4 = 4.
Proof.
  unfold net.To4, net.IPv4len, net.IPv6len.
  destruct (len ip =? 4) eqn:E.
  - intros [= <-]. now apply Z.eqb_eq.
  - destruct (_ && _ && _ && _) eqn:Ec; [|discriminate].
    intros Heq.
    assert (Hip : ip4 = firstn 4 (skipn 12 ip)) by congruence.
    repeat (apply andb_true_iff in Ec as [Ec _]).
    apply Z.eqb_eq in Ec. unfold len in *.
    rewrite Hip, length_firstn, length_skipn. lia.
Qed.

Lemma networkNumber_of_parsed (n : net.IPNet) :
  len (net.NetIP n) = len (net.Mask n) ->
  len (net.NetIP n) = 4 \/ len (net.NetIP n) = 16 ->
  exists m,
    net.networkNumberAndMask n
    = (match net.To4 (net.NetIP n) with
       | Some x => x
       | None => net.NetIP n
       end, m).
Proof.
  intros Hm Hw. unfold net.networkNumberAndMask.
  destruct (net.To4 (net.NetIP n)) as [ip4|] eqn:E4.
  - rewrite (To4_len _ _ E4), <- Hm. unfold net.IPv4len, net.IPv6len.
    destruct Hw as [Hw|Hw]; rewrite Hw; cbn; eexists; reflexivity.
  - destruct Hw as [Hw|Hw].
    + unfold net.To4, net.IPv4len in E4. rewrite Hw in E4. discriminate.
    + unfold net.IPv4len, net.IPv6len. rewrite <- Hm, Hw. cbn.
      rewrite Hw. cbn. eexists. reflexivity.
Qed.

(** A parsed network contains its own address. *)
Lemma Contains_network_address (n : net.IPNet) :
  len (net.NetIP n) = len (net.Mask n) ->
  len (net.NetIP n) = 4 \/ len (net.NetIP n) = 16 ->
  net.Contains n (net.NetIP n) = true.
Proof.
  intros Hm Hw. unfold net.Contains.
  destruct (networkNumber_of_parsed n Hm Hw) as [m ->].
  rewrite Z.eqb_refl. apply sameMasked_refl.
Qed.

(** The enumeration of a parsed network is not empty: it starts with the
    network address. *)
Lemma IterateCIDR_starts_at_network_address (env : Env) (cidr : string)
    (ipNet : net.IPNet) :
  ParseCIDR env cidr = Some ipNet ->
  len (net.NetIP ipNet) = len (net.Mask ipNet) ->
  len (net.NetIP ipNet) = 4 \/ len (net.NetIP ipNet) = 16 ->
  exists rest,
    fst (IterateCIDR env cidr)
    = mkHost (net.NetIP ipNet) cidr HostTypeIP :: rest.
Proof.
  intros Hp Hm Hw. unfold IterateCIDR, cidrFuel. rewrite Hp.
  generalize (Z.to_nat maxHosts) as fuel. intros fuel.
  cbn [cidrLoop]. rewrite (Contains_network_address ipNet Hm Hw).
  cbn [negb]. change (0 >=? maxHosts) with false. cbv iota.
  destruct (NextIP (net.NetIP ipNet) true) as [ip'|].
  - destruct (cidrLoop _ _ _ _ _) as [hosts e]. eexists. reflexivity.
  - eexists. reflexivity.
Qed.

(** The loop of [IterateCIDR], property by property. *)
Lemma IterateCIDR_details (env : Env) (cidr : string) :
  len (fst (IterateCIDR env cidr)) <= 65536
  /\ snd (IterateCIDR env cidr) <> Running
  /\ (forall h, In h (fst (IterateCIDR env cidr)) ->
        exists ipNet,
          ParseCIDR env cidr = Some ipNet
          /\ net.Contains ipNet (Host_IP h) = true
          /\ Host_Origin h = cidr
          /\ Host_Type h = HostTypeIP)
  /\ (forall ipNet (k : nat) h,
        ParseCIDR env cidr = Some ipNet ->
        nth_error (fst (IterateCIDR env cidr)) k = Some h ->
        big.SetBytes (Host_IP h) = big.SetBytes (net.NetIP ipNet) + Z.of_nat k
        /\ (k = 0%nat -> Host_IP h = net.NetIP ipNet))
  /\ StronglySorted hostBefore (fst (IterateCIDR env cidr))
  /\ (forall host, Host_Origin host = cidr ->
        expandCIDR env host = IterateCIDR env cidr).
Proof.
  unfold IterateCIDR, expandCIDR.
  destruct (ParseCIDR env cidr) as [ipNet|] eqn:Hp.
  - split; [|split; [|split; [|split; [|split]]]].
    + pose proof (cidrLoop_count cidr ipNet cidrFuel (net.NetIP ipNet) 0).
      unfold maxHosts in *. lia.
    + apply cidrLoop_ends; unfold cidrFuel, maxHosts; lia.
    + intros h Hin. exists ipNet. split; [reflexivity|].
      pose proof (cidrLoop_emitted cidr ipNet cidrFuel (net.NetIP ipNet) 0) as Hall.
      rewrite Forall_forall in Hall. exact (Hall h Hin).
    + intros n k h [= <-] Hk. exact (cidrLoop_nth _ _ _ _ _ _ _ Hk).
    + apply cidrLoop_sorted.
    + intros host ->. rewrite Hp. reflexivity.
  - cbn [fst snd]. split; [cbn; lia|]. split; [discriminate|].
    split; [intros h []|]. split; [discriminate|]. split; [constructor|].
    intros host ->. rewrite Hp. reflexivity.
Qed.

(** C4. For every CIDR string, [IterateCIDR] sends at most 65 536 hosts and
    its loop ends; every host sent has an address the parsed network
    contains, the CIDR string as origin and the kind IP; the k-th host sent
    (from 0) has the address network address + k as a big-endian integer,
    the first being the network address itself, so the addresses are
    strictly ascending; for a network as [net.ParseCIDR] returns it (address
    and mask of one length, 4 or 16) the first host is sent; [expandCIDR]
    sends the same hosts for a host whose origin is the CIDR string. *)
Theorem IterateCIDR_bounded_contained_ascending (env : Env) (cidr : string) :
  len (fst (IterateCIDR env cidr)) <= 65536
  /\ snd (IterateCIDR env cidr) <> Running
  /\ (forall h, In h (fst (IterateCIDR env cidr)) ->
        exists ipNet,
          ParseCIDR env cidr = Some ipNet
          /\ net.Contains ipNet (Host_IP h) = true
          /\ Host_Origin h = cidr
          /\ Host_Type h = HostTypeIP)
  /\ (forall ipNet (k : nat) h,
        ParseCIDR env cidr = Some ipNet ->
        nth_error (fst (IterateCIDR env cidr)) k = Some h ->
        big.SetBytes (Host_IP h) = big.SetBytes (net.NetIP ipNet) + Z.of_nat k
        /\ (k = 0%nat -> Host_IP h = net.NetIP ipNet))
  /\ StronglySorted hostBefore (fst (IterateCIDR env cidr))
  /\ (forall ipNet,
        ParseCIDR env cidr = Some ipNet ->
        len (net.NetIP ipNet) = len (net.Mask ipNet) ->
        len (net.NetIP ipNet) = 4 \/ len (net.NetIP ipNet) = 16 ->
        exists rest,
          fst (IterateCIDR env cidr)
          = mkHost (net.NetIP ipNet) cidr HostTypeIP :: rest)
  /\ (forall host, Host_Origin host = cidr ->
        expandCIDR env host = IterateCIDR env cidr).
Proof.
  destruct (IterateCIDR_details env cidr) as (H1 & H2 & H3 & H4 & H5 & H6).
  repeat (split; [assumption|]).
  split; [|exact H6].
  intros ipNet Hp Hm Hw.
  exact (IterateCIDR_starts_at_network_address env cidr ipNet Hp Hm Hw).
Qed.

Lemma IterateCIDR_bounded_contained_ascending_witness :
  In (mkHost (ip4 192 0 2 3) "192.0.2.0/30" HostTypeIP)
     (fst (IterateCIDR cidrEnv "192.0.2.0/30"))
  /\ nth_error (fst (IterateCIDR cidrEnv "192.0.2.0/30")) 3
     = Some (mkHost (ip4 192 0 2 3) "192.0.2.0/30" HostTypeIP)
  /\ (exists ipNet,
        ParseCIDR cidrEnv "192.0.2.0/30" = Some ipNet
        /\ net.Contains ipNet (ip4 192 0 2 3) = true)
  /\ big.SetBytes (ip4 192 0 2 3) = big.SetBytes (ip4 192 0 2 0) + 3.
Proof.
  assert (Hin : In (mkHost (ip4 192 0 2 3) "192.0.2.0/30" HostTypeIP)
                   (fst (IterateCIDR cidrEnv "192.0.2.0/30")))
    by (vm_compute; tauto).
  assert (Hnth : nth_error (fst (IterateCIDR cidrEnv "192.0.2.0/30")) 3
                 = Some (mkHost (ip4 192 0 2 3) "192.0.2.0/30" HostTypeIP))
    by (vm_compute; reflexivity).
  destruct (IterateCIDR_bounded_contained_ascending cidrEnv "192.0.2.0/30")
    as (_ & _ & Hc & Hk & _).
  split; [exact Hin|]. split; [exact Hnth|]. split.
  - destruct (Hc _ Hin) as (n & Hp & Hcont & _). exists n. split; assumption.
  - exact (proj1 (Hk _ 3%nat _ eq_refl Hnth)).
Defined.

(** ** The seed enumerator *)

Lemma pow256_width (w : Z) : w = 4 \/ w = 16 -> 2 < 256 ^ w.
Proof. intros [->| ->]; cbn; lia. Qed.

Lemma NextIP_down_total (ip : net.IP) :
  len ip = 4 \/ len ip = 16 ->
  exists ip',
    NextIP ip false = Some ip'
    /\ len ip' = len ip
    /\ big.SetBytes ip' = Z.abs (big.SetBytes ip - 1).
Proof.
  intros Hlen.
  pose proof (SetBytes_range ip) as Hr.
  pose proof (widthOf_len ip Hlen) as Hw.
  pose proof (pow256_width (len ip) Hlen) as Hp.
  destruct (NextIP_fits ip false) as (x & Hx & Hl & Hv).
  { unfold stepped. rewrite Hw. lia. }
  exists x. unfold stepped in Hv. rewrite Hw in Hl. auto.
Qed.

Lemma NextIP_up_fits (ip : net.IP) :
  len ip = 4 \/ len ip = 16 ->
  big.SetBytes ip + 1 < 256 ^ len ip ->
  exists ip',
    NextIP ip true = Some ip'
    /\ len ip' = len ip
    /\ big.SetBytes ip' = big.SetBytes ip + 1.
Proof.
  intros Hlen Hfit.
  pose proof (SetBytes_range ip) as Hr.
  pose proof (widthOf_len ip Hlen) as Hw.
  destruct (NextIP_fits ip true) as (x & Hx & Hl & Hv).
  { unfold stepped. rewrite Hw. lia. }
  exists x. unfold stepped in Hv. rewrite Z.abs_eq in Hv by lia.
  rewrite Hw in Hl. auto.
Qed.

Ltac parity :=
  unfold outward in *; Z.to_euclidean_division_equations; lia.

(** One step of the loop while both cursors stay inside the address
    space. *)
Lemma addrStep_cursors (addr : string) (S w : Z) (st : AddrLoop) :
  w = 4 \/ w = 16 ->
  cursorsAt S w st ->
  loop_i st < MaxInt ->
  (loop_i st + 2) / 2 <= S ->
  S + (loop_i st + 1) / 2 < 256 ^ w ->
  exists st' c,
    addrStep addr st = StepNext st' c (sendIfValid addr c)
    /\ cursorsAt S w st'
    /\ loop_i st' = loop_i st + 1
    /\ len c = w
    /\ big.SetBytes c = outward S (loop_i st)
    /\ c = (if loop_i st mod 2 =? 0 then lowIP st' else highIP st').
Proof.
  intros Hw (Hi & Hll & Hlh & Hlo & Hhi) Hmax Hlow Hhigh.
  unfold addrStep.
  destruct (loop_i st <? MaxInt) eqn:E; [|apply Z.ltb_ge in E; lia].
  destruct (loop_i st mod 2 =? 0) eqn:P.
  - apply Z.eqb_eq in P.
    destruct (NextIP_down_total (lowIP st)) as (c & Hc & Hl & Hv); [lia|].
    rewrite Hc. exists (mkAddrLoop (loop_i st + 1) c (highIP st)), c.
    assert (Hval : big.SetBytes c = S - (loop_i st / 2 + 1)).
    { rewrite Hv, Hlo. rewrite Z.abs_eq; parity. }
    unfold cursorsAt, outward. cbn [loop_i lowIP highIP].
    rewrite (proj2 (Z.eqb_eq _ _) P).
    repeat split; try reflexivity; try lia; try parity.
  - apply Z.eqb_neq in P.
    destruct (NextIP_up_fits (highIP st)) as (c & Hc & Hl & Hv); [lia| |].
    { rewrite Hhi, Hlh. parity. }
    rewrite Hc. exists (mkAddrLoop (loop_i st + 1) (lowIP st) c), c.
    unfold cursorsAt, outward. cbn [loop_i lowIP highIP].
    rewrite (proj2 (Z.eqb_neq _ _) P).
    repeat split; try reflexivity; try lia; try parity.
Qed.

Lemma addrLoop_cursors (addr : string) (S w : Z) (Hw : w = 4 \/ w = 16) :
  forall (n : nat) (st : AddrLoop),
    cursorsAt S w st ->
    loop_i st + Z.of_nat n <= MaxInt ->
    (loop_i st + Z.of_nat n + 1) / 2 <= S ->
    S + (loop_i st + Z.of_nat n) / 2 < 256 ^ w ->
    snd (fst (addrLoop n addr st)) = Running
    /\ cursorsAt S w (snd (addrLoop n addr st))
    /\ loop_i (snd (addrLoop n addr st)) = loop_i st + Z.of_nat n
    /\ forall j : nat, (j < n)%nat ->
         exists c,
           nth_error (fst (fst (addrLoop n addr st))) j
           = Some (c, sendIfValid addr c)
           /\ len c = w
           /\ big.SetBytes c = outward S (loop_i st + Z.of_nat j)
           /\ (j = (n - 1)%nat ->
               c = if (loop_i st + Z.of_nat j) mod 2 =? 0
                   then lowIP (snd (addrLoop n addr st))
                   else highIP (snd (addrLoop n addr st))).
Proof.
  induction n as [|n IH]; intros st Hc Hmax Hlow Hhigh.
  - cbn [addrLoop fst snd]. repeat split; try apply Hc; lia.
  - cbn [addrLoop].
    assert (Hi : 0 <= loop_i st) by apply Hc.
    destruct (addrStep_cursors addr S w st Hw Hc)
      as (st' & c & Hs & Hc' & Hi' & Hlc & Hvc & Hcur);
      [lia | parity | | ].
    { assert ((loop_i st + 1) / 2 <= (loop_i st + Z.of_nat (Datatypes.S n)) / 2)
        by (apply Z.div_le_mono; lia). lia. }
    rewrite Hs.
    destruct (IH st' Hc') as (He & Hcf & Hif & Hnth);
      [lia | rewrite Hi'; replace (loop_i st + 1 + Z.of_nat n + 1)
                             with (loop_i st + Z.of_nat (Datatypes.S n) + 1) by lia;
             exact Hlow
       | rewrite Hi'; replace (loop_i st + 1 + Z.of_nat n)
                         with (loop_i st + Z.of_nat (Datatypes.S n)) by lia;
             exact Hhigh | ].
    destruct (addrLoop n addr st') as [[cs e] final] eqn:Hrun.
    cbn [fst snd] in *.
    split; [exact He|]. split; [exact Hcf|]. split; [lia|].
    intros [|j] Hj; cbn [nth_error].
    + exists c. rewrite Z.add_0_r. repeat split; try assumption.
      intros Hn. destruct n; [|lia].
      cbn [addrLoop] in Hrun. injection Hrun as _ _ <-. exact Hcur.
    + destruct (Hnth j ltac:(lia)) as (c' & Hn' & Hl' & Hv' & Hlast).
      exists c'. rewrite Hi' in Hv', Hlast.
      replace (loop_i st + Z.of_nat (Datatypes.S j)) with (loop_i st + 1 + Z.of_nat j) by lia.
      repeat split; try assumption.
      intros Hn. apply Hlast. lia.
Qed.

Lemma IterateAddr_unfold (env : Env) (addr : string) (s : net.IP) (fuel : nat) :
  ParseIP env addr = Some s ->
  IterateAddr env addr fuel
  = (mkHost s addr HostTypeIP :: sentHosts (candidates addr s fuel),
     snd (fst (seedLoop addr s fuel))).
Proof.
  intros Hp. unfold IterateAddr, candidates, seedLoop. rewrite Hp.
  destruct (addrLoop fuel addr (mkAddrLoop 0 s s)) as [[cs e] final].
  reflexivity.
Qed.

Lemma cursorsAt_seed (s : net.IP) :
  cursorsAt (big.SetBytes s) (len s) (mkAddrLoop 0 s s).
Proof.
  unfold cursorsAt. cbn [loop_i lowIP highIP].
  change ((0 + 1) / 2) with 0. change (0 / 2) with 0.
  repeat split; lia.
Qed.

Lemma outward_even (S k : Z) : outward S (2 * k) = S - (k + 1).
Proof.
  unfold outward.
  replace ((2 * k) mod 2) with 0 by (Z.to_euclidean_division_equations; lia).
  cbn [Z.eqb]. Z.to_euclidean_division_equations; lia.
Qed.

Lemma outward_odd (S k : Z) : outward S (2 * k + 1) = S + (k + 1).
Proof.
  unfold outward.
  replace ((2 * k + 1) mod 2) with 1 by (Z.to_euclidean_division_equations; lia).
  cbn [Z.eqb]. Z.to_euclidean_division_equations; lia.
Qed.

(** ** The end of the seed stream *)

Lemma MaxInt_pos : 0 < MaxInt.
Proof. reflexivity. Qed.

(** While the high cursor stays below the all-ones address the loop keeps
    running: the low cursor cannot make [NextIP] panic. *)
Lemma addrLoop_running (addr : string) (w : Z) (Hw : w = 4 \/ w = 16) :
  forall (n : nat) (st : AddrLoop),
    0 <= loop_i st ->
    len (lowIP st) = w ->
    len (highIP st) = w ->
    loop_i st + Z.of_nat n <= MaxInt ->
    big.SetBytes (highIP st) + (Z.of_nat n + loop_i st mod 2) / 2 < 256 ^ w ->
    snd (fst (addrLoop n addr st)) = Running
    /\ len (fst (fst (addrLoop n addr st))) = Z.of_nat n
    /\ loop_i (snd (addrLoop n addr st)) = loop_i st + Z.of_nat n
    /\ len (lowIP (snd (addrLoop n addr st))) = w
    /\ len (highIP (snd (addrLoop n addr st))) = w
    /\ big.SetBytes (highIP (snd (addrLoop n addr st)))
       = big.SetBytes (highIP st) + (Z.of_nat n + loop_i st mod 2) / 2.
Proof.
  induction n as [|n IH]; intros st Hi Hl Hh Hmax Hfit.
  - cbn [addrLoop fst snd]. rewrite len_nil.
    repeat split; try assumption; try lia.
    Z.to_euclidean_division_equations; lia.
  - cbn [addrLoop]. unfold addrStep.
    destruct (loop_i st <? MaxInt) eqn:E; [|apply Z.ltb_ge in E; lia].
    destruct (loop_i st mod 2 =? 0) eqn:P.
    + apply Z.eqb_eq in P.
      destruct (NextIP_down_total (lowIP st)) as (c & Hc & Hlc & _); [lia|].
      rewrite Hc.
      destruct (IH (mkAddrLoop (loop_i st + 1) c (highIP st)))
        as (He & Hn & Hif & Hlf & Hhf & Hvf); cbn [loop_i lowIP highIP];
        try lia.
      { eapply Z.le_lt_trans; [|exact Hfit].
        apply Z.add_le_mono_l. Z.to_euclidean_division_equations; lia. }
      destruct (addrLoop n addr (mkAddrLoop (loop_i st + 1) c (highIP st)))
        as [[cs e] final].
      cbn [fst snd loop_i lowIP highIP] in *. rewrite len_cons.
      repeat split; try assumption; try lia.
      rewrite Hvf. f_equal. Z.to_euclidean_division_equations; lia.
    + apply Z.eqb_neq in P.
      destruct (NextIP_up_fits (highIP st)) as (c & Hc & Hlc & Hvc); [lia| |].
      { eapply Z.le_lt_trans; [|rewrite <- Hh in Hfit; exact Hfit].
        apply Z.add_le_mono_l. Z.to_euclidean_division_equations; lia. }
      rewrite Hc.
      destruct (IH (mkAddrLoop (loop_i st + 1) (lowIP st) c))
        as (He & Hn & Hif & Hlf & Hhf & Hvf); cbn [loop_i lowIP highIP];
        try lia.
      { eapply Z.le_lt_trans; [|exact Hfit]. rewrite Hvc.
        Z.to_euclidean_division_equations; lia. }
      destruct (addrLoop n addr (mkAddrLoop (loop_i st + 1) (lowIP st) c))
        as [[cs e] final].
      cbn [fst snd loop_i lowIP highIP] in *. rewrite len_cons.
      repeat split; try assumption; try lia.
      rewrite Hvf, Hvc. Z.to_euclidean_division_equations; lia.
Qed.

Lemma addrLoop_split (addr : string) :
  forall (n m : nat) (st : AddrLoop),
    addrLoop (n + m) addr st
    = match addrLoop n addr st with
      | (cs, Running, final) =>
          let '(cs', e', final') := addrLoop m addr final in
          (cs ++ cs', e', final')
      | stopped => stopped
      end.
Proof.
  induction n as [|n IH]; intros m st.
  - cbn [Nat.add addrLoop].
    destruct (addrLoop m addr st) as [[cs e] final]. reflexivity.
  - cbn [Nat.add addrLoop].
    destruct (addrStep addr st) as [| |st' c sent]; try reflexivity.
    rewrite IH.
    destruct (addrLoop n addr st') as [[cs e] final].
    destruct e; try reflexivity.
    destruct (addrLoop m addr final) as [[cs' e'] final']. reflexivity.
Qed.

(** The loop condition [i < math.MaxInt] fails at [i = math.MaxInt]: the
    goroutine returns and the deferred [close] runs. *)
Lemma addrLoop_exit (addr : string) (m : nat) (st : AddrLoop) :
  MaxInt <= loop_i st -> addrLoop (S m) addr st = ([], Closed, st).
Proof.
  intros H. cbn [addrLoop]. unfold addrStep.
  destruct (loop_i st <? MaxInt) eqn:E; [apply Z.ltb_lt in E; lia|].
  reflexivity.
Qed.

Lemma seedLoop_running (addr : string) (s : net.IP) (n : nat) :
  len s = 4 \/ len s = 16 ->
  Z.of_nat n <= MaxInt ->
  big.SetBytes s + Z.of_nat n / 2 < 256 ^ len s ->
  snd (fst (seedLoop addr s n)) = Running
  /\ len (candidates addr s n) = Z.of_nat n
  /\ loop_i (finalLoop addr s n) = Z.of_nat n.
Proof.
  intros Hw Hmax Hfit.
  destruct (addrLoop_running addr (len s) Hw n (mkAddrLoop 0 s s))
    as (He & Hn & Hi & _); cbn [loop_i lowIP highIP]; try lia.
  { change (0 mod 2) with 0. rewrite Z.add_0_r. exact Hfit. }
  unfold candidates, finalLoop, seedLoop. cbn [loop_i] in Hi.
  repeat split; try assumption; lia.
Qed.

Lemma seedLoop_closes (addr : string) (s : net.IP) (n : nat) :
  len s = 4 \/ len s = 16 ->
  big.SetBytes s + MaxInt / 2 < 256 ^ len s ->
  MaxInt < Z.of_nat n ->
  snd (fst (seedLoop addr s n)) = Closed
  /\ len (candidates addr s n) = MaxInt.
Proof.
  intros Hw Hfit Hn.
  pose proof MaxInt_pos as Hpos.
  destruct (seedLoop_running addr s (Z.to_nat MaxInt) Hw) as (He & Hc & Hi).
  { lia. }
  { rewrite Z2Nat.id by lia. exact Hfit. }
  rewrite Z2Nat.id in Hc, Hi by lia.
  unfold candidates, finalLoop, seedLoop in *.
  replace n with (Z.to_nat MaxInt + S (n - Z.to_nat MaxInt - 1))%nat by lia.
  rewrite addrLoop_split.
  destruct (addrLoop (Z.to_nat MaxInt) addr (mkAddrLoop 0 s s))
    as [[cs e] final].
  cbn [fst snd] in *. subst e.
  rewrite addrLoop_exit by lia.
  cbn [fst snd]. rewrite app_nil_r. auto.
Qed.



Lemma ends_after_MaxInt (env : Env) (addr : string) (s : net.IP) :
  ParseIP env addr = Some s ->
  len s = 4 \/ len s = 16 ->
  big.SetBytes s + MaxInt / 2 < 256 ^ len s ->
  ~ neverEndsAsStated env addr.
Proof.
  intros Hp Hw Hfit H.
  pose proof MaxInt_pos as Hpos.
  assert (Hn : exists n : nat, MaxInt < Z.of_nat n).
  { exists (Z.to_nat (MaxInt + 1)). rewrite Z2Nat.id; lia. }
  destruct Hn as [n Hn].
  specialize (H n). rewrite (IterateAddr_unfold env addr s n Hp) in H.
  cbn [snd] in H.
  destruct (seedLoop_closes addr s n Hw Hfit Hn) as [Hc _].
  rewrite Hc in H. discriminate.
Qed.

(** The stream of the seed 192.0.2.50 does not go on for ever: the loop
    condition fails after math.MaxInt iterations and the channel is
    closed. *)
Lemma seed_stream_ends_on_its_own :
  ~ neverEndsAsStated (seedEnv "192.0.2.50" seed_192_0_2_50) "192.0.2.50".
Proof.
  apply (ends_after_MaxInt _ _ seed_192_0_2_50).
  - reflexivity.
  - right. reflexivity.
  - vm_compute. reflexivity.
Qed.

(** ** The order of the candidates *)

Lemma addrLoop_length (addr : string) :
  forall (n : nat) (st : AddrLoop),
    snd (fst (addrLoop n addr st)) = Running ->
    List.length (fst (fst (addrLoop n addr st))) = n.
Proof.
  induction n as [|n IH]; intros st; cbn [addrLoop]; [reflexivity|].
  destruct (addrStep addr st) as [| |st' c sent]; try discriminate.
  specialize (IH st').
  destruct (addrLoop n addr st') as [[cs e] final]. cbn [fst snd] in *.
  intros H. cbn [List.length]. rewrite (IH H). reflexivity.
Qed.

(** The candidate of the iteration that follows [n] iterations that left
    the loop running. *)
Lemma addrLoop_next (addr : string) (n : nat) (st st' : AddrLoop)
    (c : net.IP) (sent : option Host) :
  snd (fst (addrLoop n addr st)) = Running ->
  addrStep addr (snd (addrLoop n addr st)) = StepNext st' c sent ->
  (forall fuel : nat,
     (n < fuel)%nat ->
     nth_error (fst (fst (addrLoop fuel addr st))) n = Some (c, sent))
  /\ snd (addrLoop (n + 1) addr st) = st'.
Proof.
  intros Hrun Hstep.
  pose proof (addrLoop_length addr n st Hrun) as Hlen. split.
  - intros fuel Hf. replace fuel with (n + S (fuel - n - 1))%nat by lia.
    rewrite addrLoop_split.
    destruct (addrLoop n addr st) as [[cs e] final]. cbn [fst snd] in *.
    subst e. cbn [addrLoop]. rewrite Hstep.
    destruct (addrLoop (fuel - n - 1) addr st') as [[cs' e'] final'].
    cbn [fst]. rewrite nth_error_app2 by lia.
    rewrite Hlen, Nat.sub_diag. reflexivity.
  - rewrite addrLoop_split.
    destruct (addrLoop n addr st) as [[cs e] final]. cbn [fst snd] in *.
    subst e. cbn [addrLoop]. rewrite Hstep. reflexivity.
Qed.

(** The high cursor does not depend on the low one: the (2k+1)-th
    candidate is s+(k+1) as soon as that address exists. *)
Lemma seedLoop_high (addr : string) (s : net.IP) (k : nat) :
  len s = 4 \/ len s = 16 ->
  2 * Z.of_nat k + 1 < MaxInt ->
  big.SetBytes s + (Z.of_nat k + 1) < 256 ^ len s ->
  exists hi,
    (forall fuel : nat,
       (2 * k + 1 < fuel)%nat ->
       nth_error (candidates addr s fuel) (2 * k + 1)
       = Some (hi, sendIfValid addr hi))
    /\ len hi = len s
    /\ big.SetBytes hi = big.SetBytes s + (Z.of_nat k + 1)
    /\ highIP (finalLoop addr s (2 * k + 2)) = hi.
Proof.
  intros Hw Hmax Hfit.
  destruct (addrLoop_running addr (len s) Hw (2 * k + 1) (mkAddrLoop 0 s s))
    as (He & _ & Hi & _ & Hlh & Hv); cbn [loop_i lowIP highIP]; try lia.
  { change (0 mod 2) with 0. Z.to_euclidean_division_equations; lia. }
  cbn [loop_i highIP] in Hi, Hv. change (0 mod 2) with 0 in Hv.
  assert (Hk : (Z.of_nat (2 * k + 1) + 0) / 2 = Z.of_nat k)
    by (Z.to_euclidean_division_equations; lia).
  rewrite Hk in Hv.
  set (final := snd (addrLoop (2 * k + 1) addr (mkAddrLoop 0 s s))) in *.
  destruct (NextIP_up_fits (highIP final)) as (hi & Hn & Hl & Hval).
  { lia. }
  { rewrite Hv, Hlh. lia. }
  assert (Hstep : addrStep addr final
                  = StepNext (mkAddrLoop (loop_i final + 1) (lowIP final) hi)
                      hi (sendIfValid addr hi)).
  { unfold addrStep, sendIfValid.
    destruct (Z.ltb_spec (loop_i final) MaxInt) as [_|Hge]; [|lia].
    destruct (Z.eqb_spec (loop_i final mod 2) 0) as [Hev|_].
    - exfalso. rewrite Hi in Hev. Z.to_euclidean_division_equations; lia.
    - rewrite Hn. reflexivity. }
  destruct (addrLoop_next addr (2 * k + 1) (mkAddrLoop 0 s s) _ _ _ He Hstep)
    as [Hnth Hfinal].
  exists hi. split; [exact Hnth|]. split; [lia|]. split; [lia|].
  unfold finalLoop, seedLoop.
  replace (2 * k + 2)%nat with (2 * k + 1 + 1)%nat by lia.
  rewrite Hfinal. reflexivity.
Qed.

(** The low cursor: the 2k-th candidate is s-(k+1) when that address
    exists and the high cursor has not been stepped beyond the all-ones
    address before. *)
Lemma seedLoop_low (addr : string) (s : net.IP) (k : nat) :
  len s = 4 \/ len s = 16 ->
  2 * Z.of_nat k < MaxInt ->
  Z.of_nat k + 1 <= big.SetBytes s ->
  big.SetBytes s + Z.of_nat k < 256 ^ len s ->
  exists lo,
    (forall fuel : nat,
       (2 * k < fuel)%nat ->
       nth_error (candidates addr s fuel) (2 * k)
       = Some (lo, sendIfValid addr lo))
    /\ len lo = len s
    /\ big.SetBytes lo = big.SetBytes s - (Z.of_nat k + 1)
    /\ lowIP (finalLoop addr s (2 * k + 1)) = lo.
Proof.
  intros Hw Hmax Hlow Hfit.
  destruct (addrLoop_cursors addr (big.SetBytes s) (len s) Hw (2 * k)
              (mkAddrLoop 0 s s) (cursorsAt_seed s))
    as (He & Hc & Hi & _); cbn [loop_i]; try lia.
  { Z.to_euclidean_division_equations; lia. }
  { Z.to_euclidean_division_equations; lia. }
  cbn [loop_i] in Hi.
  set (final := snd (addrLoop (2 * k) addr (mkAddrLoop 0 s s))) in *.
  destruct (addrStep_cursors addr (big.SetBytes s) (len s) final Hw Hc)
    as (st' & lo & Hstep & _ & _ & Hl & Hval & Hcur).
  { lia. }
  { rewrite Hi. Z.to_euclidean_division_equations; lia. }
  { rewrite Hi. Z.to_euclidean_division_equations; lia. }
  destruct (addrLoop_next addr (2 * k) (mkAddrLoop 0 s s) _ _ _ He Hstep)
    as [Hnth Hfinal].
  exists lo. split; [exact Hnth|]. split; [exact Hl|]. split.
  - rewrite Hval, Hi. replace (0 + Z.of_nat (2 * k)) with (2 * Z.of_nat k) by lia.
    apply outward_even.
  - unfold finalLoop, seedLoop. rewrite Hfinal.
    rewrite Hi in Hcur.
    replace ((0 + Z.of_nat (2 * k)) mod 2) with 0 in Hcur
      by (Z.to_euclidean_division_equations; lia).
    cbn [Z.eqb] in Hcur. symmetry. exact Hcur.
Qed.



(** From the all-ones seed the second iteration steps the high cursor
    beyond the last address: [NextIP] panics and the producer is gone. *)
Lemma all_ones_seed_panics :
  IterateAddr (seedEnv allOnesText allOnes16) allOnesText 4
  = ([mkHost allOnes16 allOnesText HostTypeIP], Panicked)
  /\ map fst (candidates allOnesText allOnes16 4)
     = [repeat xff 15 ++ [xfe]].
Proof. vm_compute. split; reflexivity. Qed.


(** ** The prober and the classifier *)

Lemma eqb_false_neq (a b : string) : String.eqb a b = false -> a <> b.
Proof. intros H. now apply String.eqb_neq. Qed.

(** What a positive verdict of [IsRealityFeasible] requires. *)
Lemma IsRealityFeasible_true (env : Env) (ctl : ScanControl) (sr : ScanResult) :
  fst (IsRealityFeasible env ctl sr) = true ->
  TLSVersion sr = "TLS 1.3"
  /\ ALPN sr = "h2"
  /\ Curve sr = "X25519"
  /\ CertDomain sr <> ""
  /\ CertIssuer sr <> "".
Proof.
  unfold IsRealityFeasible, RequiredTLSVersion, RequiredALPN, RequiredCurve.
  destruct (String.eqb (TLSVersion sr) "TLS 1.3") eqn:E1; cbn [negb];
    [|discriminate].
  destruct (String.eqb (ALPN sr) "h2") eqn:E2; cbn [negb]; [|discriminate].
  destruct (String.eqb (Curve sr) "X25519") eqn:E3; cbn [negb];
    [|discriminate].
  destruct (String.eqb (CertDomain sr) "") eqn:E4; [discriminate|].
  destruct (negb (isValidRealityDomain (CertDomain sr))); [discriminate|].
  destruct (String.eqb (CertIssuer sr) "") eqn:E5; [discriminate|].
  intros _.
  apply String.eqb_eq in E1, E2, E3.
  apply String.eqb_neq in E4, E5. auto.
Qed.

Lemma fillCertificate_keeps (state : ConnectionState) (r : ScanResult) :
  let r' := fillCertificate state r in
  IP r' = IP r /\ Origin r' = Origin r /\ Port r' = Port r
  /\ TLSVersion r' = TLSVersion r /\ ALPN r' = ALPN r /\ Curve r' = Curve r
  /\ GeoCode r' = GeoCode r /\ Feasible r' = Feasible r
  /\ ResponseTime r' = ResponseTime r /\ Error r' = Error r.
Proof.
  unfold fillCertificate.
  destruct (PeerCertificates state) as [|cert certs]; [cbn; tauto|].
  destruct (len (DNSNames cert) >? 0);
    [|destruct (negb (String.eqb (Subject_CommonName cert) ""))];
    match goal with
    | |- context [if ?b then _ else _] => destruct b
    end; cbn; tauto.
Qed.

(** The three outcomes of [scanSingleIP]. *)
Lemma scanSingleIP_dial_error (env : Env) (cfg : Config) (ctl : ScanControl)
    (ip : net.IP) (origin : string) (geo : Geo) (err : string) :
  DialTimeout env (addressOf env cfg ip) = Some err ->
  let r := fst (scanSingleIP env cfg ctl ip origin geo) in
  Error r = ("TCP连接失败: " ++ err)%string /\ Feasible r = false.
Proof.
  intros Hd. unfold scanSingleIP. fold (addressOf env cfg ip).
  unfold bind, tell, ret. rewrite Hd. destruct geo; cbn; auto.
Qed.

Lemma probeTLSConfig_built (origin : string) :
  (if ValidateDomainName origin
   then set_ServerName origin
          (mkTLSConfig true ["h2"; "http/1.1"] [X25519] origin)
   else set_ServerName ""
          (mkTLSConfig true ["h2"; "http/1.1"] [X25519] origin))
  = probeTLSConfig origin.
Proof.
  unfold probeTLSConfig. destruct (ValidateDomainName origin); reflexivity.
Qed.

Lemma scanSingleIP_handshake_error (env : Env) (cfg : Config)
    (ctl : ScanControl) (ip : net.IP) (origin : string) (geo : Geo)
    (err : string) :
  DialTimeout env (addressOf env cfg ip) = None ->
  Handshake env (addressOf env cfg ip) (probeTLSConfig origin) = Err err ->
  let r := fst (scanSingleIP env cfg ctl ip origin geo) in
  Error r = ("TLS握手失败: " ++ err)%string /\ Feasible r = false.
Proof.
  intros Hd Hh. unfold scanSingleIP. fold (addressOf env cfg ip).
  rewrite probeTLSConfig_built.
  unfold bind, tell, ret. rewrite Hd, Hh. destruct geo; cbn; auto.
Qed.

(** The result built after a completed handshake, before the verdict. *)
Lemma scanSingleIP_handshake_ok (env : Env) (cfg : Config)
    (ctl : ScanControl) (ip : net.IP) (origin : string) (geo : Geo)
    (state : ConnectionState) :
  DialTimeout env (addressOf env cfg ip) = None ->
  Handshake env (addressOf env cfg ip) (probeTLSConfig origin) = Ok state ->
  exists probed,
    scanSingleIP env cfg ctl ip origin geo
    = (set_Feasible (fst (IsRealityFeasible env ctl probed)) probed,
       EvDial (addressOf env cfg ip)
       :: EvHandshake (addressOf env cfg ip) (probeTLSConfig origin)
       :: snd (IsRealityFeasible env ctl probed))
    /\ Error probed = ""
    /\ TLSVersion probed = getTLSVersionString (Version state)
    /\ ALPN probed = NegotiatedProtocol state
    /\ Curve probed = "X25519"
    /\ CertDomain probed
       = CertDomain (fillCertificate state
                       (newScanResult "" "" 0))
    /\ CertIssuer probed
       = CertIssuer (fillCertificate state (newScanResult "" "" 0)).
Proof.
  intros Hd Hh. unfold scanSingleIP. fold (addressOf env cfg ip).
  rewrite probeTLSConfig_built.
  unfold bind at 1. unfold tell at 1. rewrite Hd.
  unfold bind at 1. unfold tell at 1. rewrite Hh.
  match goal with
  | |- context [IsRealityFeasible env ctl ?p] => exists p
  end.
  split.
  - unfold bind, ret.
    match goal with
    | |- context [IsRealityFeasible env ctl ?p] =>
        destruct (IsRealityFeasible env ctl p) as [f tr]
    end.
    cbn [fst snd app]. rewrite app_nil_r. reflexivity.
  - unfold fillCertificate.
    destruct (PeerCertificates state) as [|cert certs];
      [destruct geo; cbn; tauto|].
    destruct (len (DNSNames cert) >? 0);
      [|destruct (negb (String.eqb (Subject_CommonName cert) ""))];
      destruct geo; cbn [set_CertIssuer set_CertDomain CertIssuer CertDomain
        set_Curve set_ALPN set_TLSVersion set_ResponseTime set_GeoCode
        newScanResult IP Origin Port TLSVersion ALPN Curve GeoCode Feasible
        ResponseTime Error];
      destruct (String.eqb (Issuer_CommonName cert) "");
      cbn [andb]; try destruct (len (Issuer_Organization cert) >? 0);
      cbn; tauto.
Qed.

Lemma scanSingleIP_invariant (env : Env) (cfg : Config) (ctl : ScanControl)
    (ip : net.IP) (origin : string) (geo : Geo) :
  let r := fst (scanSingleIP env cfg ctl ip origin geo) in
  feasibleImplies r /\ (Error r <> "" -> Feasible r = false).
Proof.
  destruct (DialTimeout env (addressOf env cfg ip)) as [err|] eqn:Hd.
  - destruct (scanSingleIP_dial_error env cfg ctl ip origin geo err Hd)
      as [He Hf].
    cbn zeta. unfold feasibleImplies. rewrite Hf. split; [discriminate|auto].
  - destruct (Handshake env (addressOf env cfg ip) (probeTLSConfig origin))
      as [state|err] eqn:Hh.
    + destruct (scanSingleIP_handshake_ok env cfg ctl ip origin geo state Hd Hh)
        as (probed & Hs & He & _).
      cbn zeta. rewrite Hs. cbn [fst]. unfold feasibleImplies.
      cbn [set_Feasible Feasible Error TLSVersion ALPN Curve CertDomain
           CertIssuer].
      split.
      * intros Hf. apply IsRealityFeasible_true in Hf. tauto.
      * intros Hne. contradiction.
    + destruct (scanSingleIP_handshake_error env cfg ctl ip origin geo err Hd Hh)
        as [He Hf].
      cbn zeta. unfold feasibleImplies. rewrite Hf. split; [discriminate|auto].
Qed.

Lemma scanEach_invariant (env : Env) (cfg : Config) (ctl : ScanControl)
    (origin : string) (geo : Geo) (ips : list net.IP) :
  Forall (fun r => feasibleImplies r /\ (Error r <> "" -> Feasible r = false))
         (fst (scanEach env cfg ctl ips origin geo)).
Proof.
  induction ips as [|ip ips IH]; cbn [scanEach].
  - constructor.
  - pose proof (scanSingleIP_invariant env cfg ctl ip origin geo) as H1.
    unfold bind, ret.
    destruct (scanSingleIP env cfg ctl ip origin geo) as [r t1].
    destruct (scanEach env cfg ctl ips origin geo) as [rs t2].
    cbn [fst] in *. constructor; assumption.
Qed.

(** Every result [ScanTLS] sends satisfies the invariant of the spec. *)
Lemma ScanTLS_invariant (env : Env) (cfg : Config) (ctl : ScanControl)
    (host : Host) (geo : Geo) :
  Forall (fun r => feasibleImplies r /\ (Error r <> "" -> Feasible r = false))
         (fst (ScanTLS env cfg ctl host geo)).
Proof.
  unfold ScanTLS. destruct (Host_Type host).
  - apply scanEach_invariant.
  - cbn [fst ret]. constructor; [|constructor].
    unfold feasibleImplies. cbn. split; [discriminate|auto].
  - unfold bind.
    destruct (ResolveDomain env cfg (Host_Origin host)) as [[ips|err] t1].
    + pose proof (scanEach_invariant env cfg ctl (Host_Origin host) geo ips) as H.
      destruct (scanEach env cfg ctl ips (Host_Origin host) geo) as [rs t2].
      exact H.
    + cbn [fst ret]. constructor; [|constructor].
      unfold feasibleImplies. cbn. split; [discriminate|auto].
Qed.

(** C1. Every result [ScanTLS] sends satisfies: if [Feasible] is true then
    [Error] is empty, [TLSVersion] is TLS 1.3, [ALPN] is h2, [Curve] is
    X25519 and [CertDomain] and [CertIssuer] are not empty; a result with an
    error is not feasible.  Each error path sends a result that carries the
    error and is not feasible: the failed resolution of a domain (one
    result, no address), the failed TCP connection, the failed TLS
    handshake. *)
Theorem ScanTLS_feasible_invariant
    (env : Env) (cfg : Config) (ctl : ScanControl) (host : Host) (geo : Geo) :
  (forall r, In r (fst (ScanTLS env cfg ctl host geo)) ->
     (Feasible r = true ->
      Error r = "" /\ TLSVersion r = "TLS 1.3" /\ ALPN r = "h2"
      /\ Curve r = "X25519" /\ CertDomain r <> "" /\ CertIssuer r <> "")
     /\ (Error r <> "" -> Feasible r = false))
  /\ (forall err,
        Host_Type host = HostTypeDomain ->
        fst (ResolveDomain env cfg (Host_Origin host)) = Err err ->
        exists r,
          fst (ScanTLS env cfg ctl host geo) = [r]
          /\ IP r = ""
          /\ Error r = ("域名解析失败: " ++ err)%string
          /\ Feasible r = false)
  /\ (forall ip origin err,
        DialTimeout env (addressOf env cfg ip) = Some err ->
        Error (fst (scanSingleIP env cfg ctl ip origin geo))
        = ("TCP连接失败: " ++ err)%string
        /\ Feasible (fst (scanSingleIP env cfg ctl ip origin geo)) = false)
  /\ (forall ip origin err,
        DialTimeout env (addressOf env cfg ip) = None ->
        Handshake env (addressOf env cfg ip) (probeTLSConfig origin) = Err err ->
        Error (fst (scanSingleIP env cfg ctl ip origin geo))
        = ("TLS握手失败: " ++ err)%string
        /\ Feasible (fst (scanSingleIP env cfg ctl ip origin geo)) = false).
Proof.
  split; [|split; [|split]].
  - intros r Hin.
    pose proof (ScanTLS_invariant env cfg ctl host geo) as Hall.
    rewrite Forall_forall in Hall. exact (Hall r Hin).
  - intros err Ht Hr. unfold ScanTLS. rewrite Ht. unfold bind.
    destruct (ResolveDomain env cfg (Host_Origin host)) as [res t1].
    cbn [fst] in Hr. subst res. cbn [ret fst].
    eexists. split; [reflexivity|]. cbn. auto.
  - intros ip origin err Hd.
    exact (scanSingleIP_dial_error env cfg ctl ip origin geo err Hd).
  - intros ip origin err Hd Hh.
    exact (scanSingleIP_handshake_error env cfg ctl ip origin geo err Hd Hh).
Qed.

Lemma ScanTLS_feasible_invariant_witness :
  In (mkScanResult "192.0.2.10" "192.0.2.10" 443 "good.example.test"
        "Test CA" "TLS 1.3" "h2" "X25519" "" true 12 "")
     (fst (ScanTLS (frontEnv ["good.example.test"] (Ok (404, Ok "")))
             config pingOff
             (mkHost (ip4 192 0 2 10) "192.0.2.10" HostTypeIP) None))
  /\ (Feasible (mkScanResult "192.0.2.10" "192.0.2.10" 443
                  "good.example.test" "Test CA" "TLS 1.3" "h2" "X25519" ""
                  true 12 "") = true ->
      Error (mkScanResult "192.0.2.10" "192.0.2.10" 443 "good.example.test"
               "Test CA" "TLS 1.3" "h2" "X25519" "" true 12 "") = ""
      /\ CertDomain (mkScanResult "192.0.2.10" "192.0.2.10" 443
                       "good.example.test" "Test CA" "TLS 1.3" "h2" "X25519"
                       "" true 12 "") <> "").
Proof.
  assert (Hin :
    In (mkScanResult "192.0.2.10" "192.0.2.10" 443 "good.example.test"
          "Test CA" "TLS 1.3" "h2" "X25519" "" true 12 "")
       (fst (ScanTLS (frontEnv ["good.example.test"] (Ok (404, Ok "")))
               config pingOff
               (mkHost (ip4 192 0 2 10) "192.0.2.10" HostTypeIP) None)))
    by (vm_compute; tauto).
  split; [exact Hin|].
  destruct (ScanTLS_feasible_invariant
              (frontEnv ["good.example.test"] (Ok (404, Ok "")))
              config pingOff
              (mkHost (ip4 192 0 2 10) "192.0.2.10" HostTypeIP) None)
    as [Hall _].
  intros Hf. destruct (Hall _ Hin) as [Himp _].
  destruct (Himp Hf) as (He & _ & _ & _ & Hd & _). split; assumption.
Defined.

(** ** The domain the classifier checks *)

Lemma DetectCloudflareCDN_events (env : Env) (d : string) :
  In (EvDetectCloudflareCDN d) (snd (DetectCloudflareCDN env d))
  /\ forall e, In e (snd (DetectCloudflareCDN env d)) ->
       e = EvDetectCloudflareCDN d
       \/ e = EvHTTPGet ("https://" ++ d ++ "/cdn-cgi/trace")%string.
Proof.
  unfold DetectCloudflareCDN, bind, tell, ret.
  destruct (String.eqb d ""); [cbn; intuition|].
  destruct (HTTPGet env _) as [[status body]|err]; [|cbn; intuition].
  destruct (status =? 200); [|cbn; intuition].
  destruct body; cbn; intuition.
Qed.

Lemma CheckDomainConnectivity_events (env : Env) (ctl : ScanControl)
    (d : string) :
  In (EvCheckDomainConnectivity d) (snd (CheckDomainConnectivity env ctl d))
  /\ forall e, In e (snd (CheckDomainConnectivity env ctl d)) ->
       e = EvCheckDomainConnectivity d \/ e = EvPing d.
Proof.
  unfold CheckDomainConnectivity, pingDomain, bind, tell, ret.
  destruct (negb (PingDomain ctl)); [cbn; intuition|].
  destruct (String.eqb d "" || isSome (ParseIP env d)); [cbn; intuition|].
  destruct (negb (ValidateDomainName d)); cbn; intuition.
Qed.

Lemma IsRealityFeasible_events (env : Env) (ctl : ScanControl)
    (sr : ScanResult) :
  (forall d,
     In (EvDetectCloudflareCDN d) (snd (IsRealityFeasible env ctl sr))
     \/ In (EvCheckDomainConnectivity d) (snd (IsRealityFeasible env ctl sr)) ->
     d = CertDomain sr)
  /\ (TLSVersion sr = "TLS 1.3" -> ALPN sr = "h2" -> Curve sr = "X25519" ->
      CertDomain sr <> "" -> CertIssuer sr <> "" ->
      In (EvDetectCloudflareCDN (CertDomain sr))
         (snd (IsRealityFeasible env ctl sr))
      /\ (fst (DetectCloudflareCDN env (CertDomain sr)) = false ->
          PingDomain ctl = true ->
          In (EvCheckDomainConnectivity (CertDomain sr))
             (snd (IsRealityFeasible env ctl sr)))).
Proof.
  destruct (DetectCloudflareCDN_events env (CertDomain sr)) as [Hcf1 Hcf2].
  destruct (CheckDomainConnectivity_events env ctl (CertDomain sr))
    as [Hck1 Hck2].
  unfold IsRealityFeasible, RequiredTLSVersion, RequiredALPN, RequiredCurve,
    isValidRealityDomain.
  destruct (String.eqb (TLSVersion sr) "TLS 1.3") eqn:E1; cbn [negb].
  2:{ apply String.eqb_neq in E1. cbn. intuition. }
  destruct (String.eqb (ALPN sr) "h2") eqn:E2; cbn [negb].
  2:{ apply String.eqb_neq in E2. cbn. intuition. }
  destruct (String.eqb (Curve sr) "X25519") eqn:E3; cbn [negb].
  2:{ apply String.eqb_neq in E3. cbn. intuition. }
  destruct (String.eqb (CertDomain sr) "") eqn:E4; cbn [negb].
  { apply String.eqb_eq in E4. cbn. intuition. }
  destruct (String.eqb (CertIssuer sr) "") eqn:E5.
  { apply String.eqb_eq in E5. cbn. intuition. }
  unfold bind, ret.
  destruct (DetectCloudflareCDN env (CertDomain sr)) as [cf t1].
  cbn [fst snd] in *.
  destruct cf.
  - cbn [snd]. rewrite app_nil_r. split.
    + intros d [Hd|Hd]; apply Hcf2 in Hd; destruct Hd; congruence.
    + intros _ _ _ _ _. split; [exact Hcf1|discriminate].
  - destruct (PingDomain ctl) eqn:Hp.
    + destruct (CheckDomainConnectivity env ctl (CertDomain sr)) as [ok t2].
      cbn [fst snd] in *.
      split.
      * intros d Hd.
        match type of Hd with
        | In _ (snd ?x) \/ _ =>
            replace (snd x) with (t1 ++ t2) in Hd
              by (destruct ok; cbn; rewrite app_nil_r; reflexivity)
        end.
        rewrite !in_app_iff in Hd.
        destruct Hd as [[Hd|Hd]|[Hd|Hd]];
          ((apply Hcf2 in Hd) || (apply Hck2 in Hd));
          destruct Hd; congruence.
      * intros _ _ _ _ _.
        match goal with
        | |- In _ (snd ?x) /\ _ =>
            replace (snd x) with (t1 ++ t2)
              by (destruct ok; cbn; rewrite app_nil_r; reflexivity)
        end.
        rewrite !in_app_iff. auto.
    + cbn [snd]. rewrite app_nil_r. split.
      * intros d [Hd|Hd]; apply Hcf2 in Hd; destruct Hd; congruence.
      * intros _ _ _ _ _. split; [exact Hcf1|discriminate].
Qed.

Lemma fillCertificate_CertDomain (state : ConnectionState) (r : ScanResult)
    (cert : Certificate) (certs : list Certificate) :
  PeerCertificates state = cert :: certs ->
  DNSNames cert <> [] ->
  CertDomain (fillCertificate state r) = strings.Join (DNSNames cert) ",".
Proof.
  intros Hp Hn. unfold fillCertificate. rewrite Hp.
  destruct (len (DNSNames cert) >? 0) eqn:E.
  - match goal with
    | |- context [if ?b then _ else _] => destruct b
    end; reflexivity.
  - destruct (DNSNames cert) as [|n ns]; [contradiction|].
    rewrite len_cons in E. pose proof (len_nonneg ns).
    rewrite Z.gtb_ltb in E. apply Z.ltb_ge in E. lia.
Qed.




(** ** The server name of the handshake *)

Lemma IsRealityFeasible_trace (env : Env) (ctl : ScanControl) (sr : ScanResult) :
  snd (IsRealityFeasible env ctl sr) = []
  \/ snd (IsRealityFeasible env ctl sr)
     = snd (DetectCloudflareCDN env (CertDomain sr))
  \/ snd (IsRealityFeasible env ctl sr)
     = snd (DetectCloudflareCDN env (CertDomain sr))
       ++ snd (CheckDomainConnectivity env ctl (CertDomain sr)).
Proof.
  unfold IsRealityFeasible.
  destruct (negb (String.eqb (TLSVersion sr) RequiredTLSVersion)); [auto|].
  destruct (negb (String.eqb (ALPN sr) RequiredALPN)); [auto|].
  destruct (negb (String.eqb (Curve sr) RequiredCurve)); [auto|].
  destruct (String.eqb (CertDomain sr) ""); [auto|].
  destruct (negb (isValidRealityDomain (CertDomain sr))); [auto|].
  destruct (String.eqb (CertIssuer sr) ""); [auto|].
  unfold bind, ret.
  destruct (DetectCloudflareCDN env (CertDomain sr)) as [cf t1].
  destruct cf; [right; left; cbn; apply app_nil_r|].
  destruct (PingDomain ctl); [|right; left; cbn; apply app_nil_r].
  destruct (CheckDomainConnectivity env ctl (CertDomain sr)) as [ok t2].
  right. right. destruct ok; cbn; rewrite app_nil_r; reflexivity.
Qed.

Lemma IsRealityFeasible_no_handshake (env : Env) (ctl : ScanControl)
    (sr : ScanResult) (a : string) (c : TLSConfig) :
  ~ In (EvHandshake a c) (snd (IsRealityFeasible env ctl sr)).
Proof.
  destruct (DetectCloudflareCDN_events env (CertDomain sr)) as [_ Hcf].
  destruct (CheckDomainConnectivity_events env ctl (CertDomain sr)) as [_ Hck].
  intros Hin.
  destruct (IsRealityFeasible_trace env ctl sr) as [E|[E|E]];
    rewrite E in Hin.
  - destruct Hin.
  - apply Hcf in Hin. destruct Hin; discriminate.
  - apply in_app_iff in Hin. destruct Hin as [Hin|Hin];
      [apply Hcf in Hin|apply Hck in Hin]; destruct Hin; discriminate.
Qed.

Lemma scanSingleIP_handshake_event (env : Env) (cfg : Config)
    (ctl : ScanControl) (ip : net.IP) (origin : string) (geo : Geo) :
  (DialTimeout env (addressOf env cfg ip) = None ->
   In (EvHandshake (addressOf env cfg ip) (probeTLSConfig origin))
      (snd (scanSingleIP env cfg ctl ip origin geo)))
  /\ forall a c,
       In (EvHandshake a c) (snd (scanSingleIP env cfg ctl ip origin geo)) ->
       c = probeTLSConfig origin.
Proof.
  destruct (DialTimeout env (addressOf env cfg ip)) as [err|] eqn:Hd.
  - split; [discriminate|].
    unfold scanSingleIP. fold (addressOf env cfg ip).
    unfold bind, tell, ret. rewrite Hd. cbn.
    intros a c [H|[]]. discriminate.
  - destruct (Handshake env (addressOf env cfg ip) (probeTLSConfig origin))
      as [state|err] eqn:Hh.
    + destruct (scanSingleIP_handshake_ok env cfg ctl ip origin geo state Hd Hh)
        as (probed & Hs & _).
      rewrite Hs. cbn [snd]. split; [intros _; right; left; reflexivity|].
      intros a c [H|[H|H]]; [discriminate|congruence|].
      exfalso. exact (IsRealityFeasible_no_handshake env ctl probed a c H).
    + unfold scanSingleIP. fold (addressOf env cfg ip).
      rewrite probeTLSConfig_built.
      unfold bind, tell, ret. rewrite Hd, Hh. cbn.
      split; [intros _; right; left; reflexivity|].
      intros a c [H|[H|[]]]; [discriminate|congruence].
Qed.

(** ** The result sink *)

Lemma append_assoc (a b c : string) : ((a ++ b) ++ c = a ++ (b ++ c))%string.
Proof.
  induction a as [|x a IH]; cbn [String.append]; [reflexivity|].
  rewrite IH. reflexivity.
Qed.

Lemma append_nil_r (a : string) : (a ++ "" = a)%string.
Proof.
  induction a as [|x a IH]; cbn [String.append]; [reflexivity|].
  rewrite IH. reflexivity.
Qed.

Lemma appendAll_app (xs ys : list string) :
  appendAll (xs ++ ys) = (appendAll xs ++ appendAll ys)%string.
Proof.
  induction xs as [|x xs IH]; cbn [appendAll app String.append];
    [reflexivity|].
  rewrite IH, append_assoc. reflexivity.
Qed.

Lemma writtenRecords_app (sink : Sink) (xs ys : list ScanResult) (k : Z) :
  writtenRecords sink k (xs ++ ys)
  = writtenRecords sink k xs ++ writtenRecords sink (k + len xs) ys.
Proof.
  revert k. induction xs as [|x xs IH]; intros k; cbn [writtenRecords app].
  - rewrite len_nil, Z.add_0_r. reflexivity.
  - rewrite IH, len_cons. do 3 f_equal. lia.
Qed.

Lemma countFeasible_cons (r : ScanResult) (rs : list ScanResult) :
  countFeasible (r :: rs)
  = (if String.eqb (Error r) "" && Feasible r then 1 else 0) + countFeasible rs.
Proof.
  unfold countFeasible. cbn [filter].
  destruct (String.eqb (Error r) "" && Feasible r);
    [rewrite len_cons|]; lia.
Qed.

Lemma countFeasible_nonneg (rs : list ScanResult) : 0 <= countFeasible rs.
Proof. apply len_nonneg. Qed.

(** Under the invariant of the scanner the sink counts exactly the results
    whose [Feasible] flag is set. *)
Lemma countFeasible_flags (rs : list ScanResult) :
  Forall (fun r => Feasible r = true -> Error r = "") rs ->
  countFeasible rs = len (filter Feasible rs).
Proof.
  induction 1 as [|r rs Hr _ IH].
  - reflexivity.
  - rewrite countFeasible_cons, IH. cbn [filter].
    destruct (Feasible r) eqn:Hf.
    + rewrite (Hr eq_refl). cbn [String.eqb andb]. rewrite len_cons. lia.
    + rewrite andb_false_r. lia.
Qed.

(** A record the disk takes reaches the file whole. *)
Lemma WriteResult_ok (cw : CSVWriter) (r : ScanResult) (now : string)
    (landed : nat) (duringWrite : bool) :
  writerErr cw = None ->
  WriteResult cw r now None landed duringWrite
  = (mkCSVWriter (file cw ++ csv.Write (recordOf r now))%string None, None).
Proof. intros H. unfold WriteResult. rewrite H. reflexivity. Qed.

Section Sink.

Variables (ctl : ScanControl) (sink : Sink).
Hypothesis stop : StopOnMax ctl = true.
Hypothesis disk_ok : forall k, WriteError sink k = None.

(** The loop of [ProcessResults] from any state that is below the quota,
    on a channel that still holds enough countable results. *)
Lemma ProcessResults_reaches_quota :
  forall (rs : list ScanResult) (rp : ResultProcessor),
    writerErr (csvWriter rp) = None ->
    feasibleCount rp < MaxResults ctl ->
    MaxResults ctl - feasibleCount rp <= countFeasible rs ->
    exists pre r post rp',
      rs = pre ++ r :: post
      /\ Error r = "" /\ Feasible r = true
      /\ countFeasible pre = MaxResults ctl - feasibleCount rp - 1
      /\ ProcessResults ctl sink rp rs = (rp', post)
      /\ file (csvWriter rp')
         = (file (csvWriter rp)
            ++ appendAll
                 (map csv.Write
                    (writtenRecords sink (totalCount rp + 1) (pre ++ [r]))))%string
      /\ feasibleCount rp' = MaxResults ctl
      /\ totalCount rp' = totalCount rp + len pre + 1.
Proof.
  induction rs as [|x rs IH]; intros rp Hw Hbelow Henough.
  - unfold countFeasible in Henough. cbn in Henough. lia.
  - cbn [ProcessResults]. rewrite disk_ok, (WriteResult_ok _ _ _ _ _ Hw).
    rewrite countFeasible_cons in Henough.
    destruct (String.eqb (Error x) "") eqn:He; cbn [negb andb] in *.
    + destruct (Feasible x) eqn:Hf.
      * cbn [feasibleCount]. rewrite stop. cbn [andb].
        destruct (feasibleCount rp + 1 >=? MaxResults ctl) eqn:Hq.
        -- exists [], x, rs. eexists. apply String.eqb_eq in He.
           rewrite Z.geb_leb in Hq. apply Z.leb_le in Hq.
           split; [reflexivity|]. split; [exact He|]. split; [exact Hf|].
           split; [unfold countFeasible; cbn; lia|].
           split; [reflexivity|].
           cbn [csvWriter file feasibleCount totalCount app writtenRecords map
                appendAll].
           rewrite append_nil_r, len_nil.
           repeat split; lia.
        -- rewrite Z.geb_leb in Hq. apply Z.leb_gt in Hq.
           destruct (IH (mkResultProcessor
                           (mkCSVWriter
                              (file (csvWriter rp)
                               ++ csv.Write (recordOf x (Now sink (totalCount rp + 1))))
                              None)
                           (totalCount rp + 1) (feasibleCount rp + 1)
                           (errorCount rp) (totalTargets rp)))
             as (pre & r & post & rp' & Hrs & Her & Hfr & Hc & Hrun & Hfile & Hfc & Htc);
             cbn [feasibleCount csvWriter writerErr]; try reflexivity; try lia.
           exists (x :: pre), r, post, rp'.
           cbn [csvWriter file feasibleCount totalCount] in *.
           rewrite Hrun, Hfile, countFeasible_cons, He, Hf, len_cons.
           cbn [andb app writtenRecords map appendAll].
           rewrite append_assoc, Hrs.
           repeat split; try assumption; try lia.
      * destruct (IH (mkResultProcessor
                        (mkCSVWriter
                           (file (csvWriter rp)
                            ++ csv.Write (recordOf x (Now sink (totalCount rp + 1))))
                              None)
                        (totalCount rp + 1) (feasibleCount rp)
                        (errorCount rp) (totalTargets rp)))
          as (pre & r & post & rp' & Hrs & Her & Hfr & Hc & Hrun & Hfile & Hfc & Htc);
          cbn [feasibleCount csvWriter writerErr]; try reflexivity; try lia.
        exists (x :: pre), r, post, rp'.
        cbn [csvWriter file feasibleCount totalCount] in *.
        rewrite Hrun, Hfile, countFeasible_cons, He, Hf, len_cons.
        cbn [andb app writtenRecords map appendAll].
        rewrite append_assoc, Hrs.
        repeat split; try assumption; try lia.
    + destruct (IH (mkResultProcessor
                      (mkCSVWriter
                         (file (csvWriter rp)
                          ++ csv.Write (recordOf x (Now sink (totalCount rp + 1))))
                              None)
                      (totalCount rp + 1) (feasibleCount rp)
                      (errorCount rp + 1) (totalTargets rp)))
        as (pre & r & post & rp' & Hrs & Her & Hfr & Hc & Hrun & Hfile & Hfc & Htc);
        cbn [feasibleCount csvWriter writerErr]; try reflexivity; try lia.
      exists (x :: pre), r, post, rp'.
      cbn [csvWriter file feasibleCount totalCount] in *.
      rewrite Hrun, Hfile, countFeasible_cons, He, len_cons.
      cbn [andb app writtenRecords map appendAll].
      rewrite append_assoc, Hrs.
      repeat split; try assumption; try lia.
Qed.

End Sink.

(** C7. With [StopOnMax] set and [MaxResults] = M >= 1, on a channel whose
    results come from the scanner (a feasible result has no error) and
    contain at least M feasible ones, no write failing, [ProcessResults]
    takes the results in order and leaves the loop right after the record
    of the M-th feasible result is written: the file holds the header and
    the records of the results up to and including that one, in order, M of
    them feasible; every later result is left in the channel, unwritten. *)
Theorem ProcessResults_stops_at_quota
    (ctl : ScanControl) (sink : Sink) (targets : Z) (rs : list ScanResult) :
  StopOnMax ctl = true ->
  1 <= MaxResults ctl ->
  (forall k, WriteError sink k = None) ->
  Forall (fun r => Feasible r = true -> Error r = "") rs ->
  MaxResults ctl <= len (filter Feasible rs) ->
  exists pre r post rp',
    rs = pre ++ r :: post
    /\ Feasible r = true
    /\ len (filter Feasible pre) = MaxResults ctl - 1
    /\ ProcessResults ctl sink (NewResultProcessorWithProgress targets) rs
       = (rp', post)
    /\ file (csvWriter rp') = fileOf (writtenRecords sink 1 (pre ++ [r]))
    /\ len (filter Feasible (pre ++ [r])) = MaxResults ctl
    /\ feasibleCount rp' = MaxResults ctl
    /\ totalCount rp' = len (pre ++ [r]).
Proof.
  intros Hstop HM Hdisk Hinv Henough.
  rewrite <- (countFeasible_flags rs Hinv) in Henough.
  destruct (ProcessResults_reaches_quota ctl sink Hstop Hdisk rs
              (NewResultProcessorWithProgress targets))
    as (pre & r & post & rp' & Hrs & He & Hf & Hc & Hrun & Hfile & Hfc & Htc);
    cbn [NewResultProcessorWithProgress feasibleCount]; try reflexivity;
    try lia.
  exists pre, r, post, rp'.
  assert (Hpre : Forall (fun r => Feasible r = true -> Error r = "") pre).
  { subst rs. apply Forall_app in Hinv. tauto. }
  rewrite (countFeasible_flags pre Hpre) in Hc.
  cbn [NewResultProcessorWithProgress feasibleCount totalCount csvWriter
       NewCSVWriter file] in *.
  split; [exact Hrs|]. split; [exact Hf|]. split; [lia|].
  split; [exact Hrun|]. split; [exact Hfile|].
  rewrite filter_app, !len_app. cbn [filter]. rewrite Hf, len_cons, len_nil.
  repeat split; lia.
Qed.

Lemma ProcessResults_stops_at_quota_witness :
  StopOnMax (mkScanControl 1 true false) = true
  /\ 1 <= MaxResults (mkScanControl 1 true false)
  /\ MaxResults (mkScanControl 1 true false)
     <= len (filter Feasible [tls12Result; goodResult; goodResult])
  /\ exists pre r post rp',
       [tls12Result; goodResult; goodResult] = pre ++ r :: post
       /\ Feasible r = true
       /\ len (filter Feasible pre) = MaxResults (mkScanControl 1 true false) - 1
       /\ ProcessResults (mkScanControl 1 true false) sampleSink
            (NewResultProcessorWithProgress 4)
            [tls12Result; goodResult; goodResult]
          = (rp', post)
       /\ file (csvWriter rp') = fileOf (writtenRecords sampleSink 1 (pre ++ [r]))
       /\ len (filter Feasible (pre ++ [r])) = MaxResults (mkScanControl 1 true false)
       /\ feasibleCount rp' = MaxResults (mkScanControl 1 true false)
       /\ totalCount rp' = len (pre ++ [r]).
Proof.
  split; [reflexivity|]. split; [cbn; lia|]. split; [vm_compute; discriminate|].
  apply (ProcessResults_stops_at_quota (mkScanControl 1 true false) sampleSink 4
           [tls12Result; goodResult; goodResult]).
  - reflexivity.
  - cbn. lia.
  - intros k. reflexivity.
  - repeat constructor.
  - vm_compute. discriminate.
Defined.

(** ** Writing the file and loading it again *)

Lemma hasByte_app (c : ascii) (a b : string) :
  strings.hasByte c (a ++ b) = strings.hasByte c a || strings.hasByte c b.
Proof.
  induction a as [|x a IH]; cbn [String.append strings.hasByte];
    [reflexivity|].
  rewrite IH, orb_assoc. reflexivity.
Qed.

Lemma hasSpecial_hasByte (c : ascii) (s : string) :
  csv.special c = true -> csv.hasSpecial s = false -> strings.hasByte c s = false.
Proof.
  intros Hc. induction s as [|x s IH]; cbn [csv.hasSpecial strings.hasByte];
    [reflexivity|].
  intros H. apply orb_false_iff in H as [Hx Hs].
  rewrite (IH Hs), orb_false_r.
  destruct (Ascii.eqb_spec c x) as [->|]; [congruence|reflexivity].
Qed.

(** A plain field contains no line feed, carriage return, quote or comma. *)
Lemma plain_hasByte (c : ascii) (f : string) :
  csv.special c = true -> plain f -> strings.hasByte c f = false.
Proof.
  intros Hc Hp. unfold plain, csv.fieldNeedsQuotes in Hp.
  destruct (String.eqb_spec f "") as [->|_]; [reflexivity|].
  destruct (String.eqb f "\."); [discriminate|].
  destruct (csv.hasSpecial f) eqn:Hs; [discriminate|].
  exact (hasSpecial_hasByte c f Hc Hs).
Qed.

Lemma plain_writeField (f : string) : plain f -> csv.writeField f = f.
Proof. intros Hp. unfold csv.writeField. rewrite Hp. reflexivity. Qed.

Lemma plain_Write (record : list string) :
  Forall plain record ->
  csv.Write record = (strings.Join record "," ++ String csv.LF "")%string.
Proof.
  intros Hp. unfold csv.Write. do 2 f_equal.
  induction Hp as [|f fs Hf _ IH]; [reflexivity|].
  cbn [map]. rewrite IH, (plain_writeField f Hf). reflexivity.
Qed.

Lemma Join_cons2 (a b : string) (rest : list string) (sep : string) :
  strings.Join (a :: b :: rest) sep
  = (a ++ sep ++ strings.Join (b :: rest) sep)%string.
Proof. reflexivity. Qed.

Lemma Join_hasByte (c : ascii) (fields : list string) :
  Ascii.eqb c "," = false ->
  Forall (fun f => strings.hasByte c f = false) fields ->
  strings.hasByte c (strings.Join fields ",") = false.
Proof.
  intros Hc Hall. induction Hall as [|f fs Hf Hfs IH]; [reflexivity|].
  destruct fs as [|g fs]; [exact Hf|].
  rewrite Join_cons2, !hasByte_app, Hf, IH.
  cbn [strings.hasByte]. rewrite Hc. reflexivity.
Qed.

Lemma Split_plain (s : string) (sep : ascii) :
  strings.hasByte sep s = false -> strings.Split s sep = [s].
Proof.
  induction s as [|x s IH]; cbn [strings.hasByte strings.Split];
    [reflexivity|].
  intros H. apply orb_false_iff in H as [Hx Hs].
  rewrite Ascii.eqb_sym, Hx, (IH Hs). reflexivity.
Qed.

Lemma Split_app (s rest : string) (sep : ascii) :
  strings.hasByte sep s = false ->
  strings.Split (s ++ String sep rest) sep = s :: strings.Split rest sep.
Proof.
  induction s as [|x s IH]; cbn [strings.hasByte strings.Split String.append].
  - intros _. rewrite Ascii.eqb_refl. reflexivity.
  - intros H. apply orb_false_iff in H as [Hx Hs].
    rewrite Ascii.eqb_sym, Hx, (IH Hs). reflexivity.
Qed.

(** Splitting the joined fields at the commas gives the fields back when
    no field contains a comma. *)
Lemma Split_Join (fields : list string) :
  fields <> [] ->
  Forall (fun f => strings.hasByte "," f = false) fields ->
  strings.Split (strings.Join fields ",") "," = fields.
Proof.
  intros Hne Hall. induction Hall as [|f fs Hf Hfs IH]; [contradiction|].
  destruct fs as [|g fs].
  - cbn [strings.Join]. exact (Split_plain f _ Hf).
  - rewrite Join_cons2. cbn [String.append].
    rewrite (Split_app f _ _ Hf), IH; [reflexivity|discriminate].
Qed.

Lemma lines_app (l rest : string) :
  strings.hasByte csv.LF l = false ->
  bufio.lines (l ++ String csv.LF rest) = l :: bufio.lines rest.
Proof.
  induction l as [|x l IH]; cbn [strings.hasByte bufio.lines String.append].
  - intros _. rewrite Ascii.eqb_refl. reflexivity.
  - intros H. apply orb_false_iff in H as [Hx Hl].
    rewrite Ascii.eqb_sym, Hx, (IH Hl). reflexivity.
Qed.

Lemma dropCR_plain (l : string) :
  strings.hasByte csv.CR l = false -> bufio.dropCR l = l.
Proof.
  induction l as [|x l IH]; cbn [strings.hasByte bufio.dropCR];
    [reflexivity|].
  intros H. apply orb_false_iff in H as [Hx Hl].
  destruct l as [|y l].
  - rewrite Ascii.eqb_sym, Hx. reflexivity.
  - rewrite (IH Hl). reflexivity.
Qed.

Lemma length_append (a b : string) :
  String.length (a ++ b) = (String.length a + String.length b)%nat.
Proof.
  induction a as [|x a IH]; cbn [String.append String.length];
    [reflexivity|].
  rewrite IH. reflexivity.
Qed.

(** The lines and tokens of a file made of short lines without line feed
    and carriage return. *)
Lemma ScanLines_appendAll (ls : list string) :
  Forall (fun l => strings.hasByte csv.LF l = false
                   /\ strings.hasByte csv.CR l = false
                   /\ Z.of_nat (String.length l) < bufio.MaxScanTokenSize) ls ->
  bufio.ScanLines (appendAll (map (fun l => l ++ String csv.LF "")%string ls))
  = ls.
Proof.
  unfold bufio.ScanLines.
  induction 1 as [|l ls (Hlf & Hcr & Hlen) _ IH]; [reflexivity|].
  cbn [map appendAll]. rewrite append_assoc. cbn [String.append].
  rewrite (lines_app l _ Hlf). cbn [bufio.tokens].
  apply Z.ltb_lt in Hlen. rewrite Hlen, (dropCR_plain l Hcr), IH.
  reflexivity.
Qed.

Lemma decChar_not_special (c : ascii) :
  decChar c = true ->
  csv.special c = false
  /\ Ascii.eqb c "\" = false
  /\ forall rest, unicode.firstRuneIsSpace (String c rest) = false.
Proof.
  destruct c as [[] [] [] [] [] [] [] []]; intros H; try discriminate H;
    repeat split; reflexivity.
Qed.

Lemma dec_hasSpecial (s : string) :
  allChars decChar s = true -> csv.hasSpecial s = false.
Proof.
  induction s as [|c s IH]; cbn [allChars csv.hasSpecial]; [reflexivity|].
  intros H. apply andb_true_iff in H as [Hc Hs].
  destruct (decChar_not_special c Hc) as [Hsp _].
  rewrite Hsp, (IH Hs). reflexivity.
Qed.

Lemma dec_plain (s : string) : allChars decChar s = true -> plain s.
Proof.
  intros H. unfold plain, csv.fieldNeedsQuotes.
  destruct s as [|c s]; [reflexivity|].
  pose proof (dec_hasSpecial _ H) as Hs.
  cbn [allChars] in H. apply andb_true_iff in H as [Hc _].
  destruct (decChar_not_special c Hc) as (_ & Hb & Hsp).
  cbn [String.eqb]. rewrite Hb, Hs. apply Hsp.
Qed.

Lemma string_of_uint_dec (d : Decimal.uint) :
  allChars decChar (NilEmpty.string_of_uint d) = true.
Proof. induction d; cbn [NilEmpty.string_of_uint allChars]; auto. Qed.

Lemma Itoa_plain (n : Z) : plain (strconv.Itoa n).
Proof.
  apply dec_plain. unfold strconv.Itoa, NilZero.string_of_int.
  destruct (Z.to_int n) as [d|d]; unfold NilZero.string_of_uint.
  - destruct d; try reflexivity; apply (string_of_uint_dec _).
  - cbn [allChars]. destruct d; try reflexivity;
      apply (string_of_uint_dec _).
Qed.

Lemma FormatBool_plain (b : bool) : plain (strconv.FormatBool b).
Proof. destruct b; reflexivity. Qed.

Lemma recordOf_plain (r : ScanResult) (now : string) :
  plainResult r -> plain now -> Forall plain (recordOf r now).
Proof.
  intros (H1 & H2 & H3 & H4 & H5 & H6 & H7 & H8 & H9) Hn.
  unfold recordOf.
  repeat constructor; try assumption;
    try apply Itoa_plain; try apply FormatBool_plain.
Qed.

Lemma writtenRecords_plain (sink : Sink) (rs : list ScanResult) :
  Forall plainResult rs ->
  (forall k, plain (Now sink k)) ->
  forall k, Forall (Forall plain) (writtenRecords sink k rs).
Proof.
  intros Hrs Hnow. induction Hrs as [|r rs Hr _ IH]; intros k;
    cbn [writtenRecords]; constructor; auto using recordOf_plain.
Qed.

Lemma writeAll_file (sink : Sink) (rs : list ScanResult) :
  forall cw k,
    writerErr cw = None ->
    file (writeAll sink cw k rs)
    = (file cw ++ appendAll (map csv.Write (writtenRecords sink k rs)))%string.
Proof.
  induction rs as [|r rs IH]; intros cw k Hw;
    cbn [writeAll writtenRecords map appendAll].
  - rewrite append_nil_r. reflexivity.
  - rewrite (WriteResult_ok _ _ _ _ _ Hw). cbn [fst].
    rewrite IH by reflexivity. cbn [file].
    rewrite append_assoc. reflexivity.
Qed.

Lemma headers_plain : Forall plain headers.
Proof. repeat constructor. Qed.

Lemma plain_line (record : list string) :
  Forall plain record ->
  fitsScanner record ->
  strings.hasByte csv.LF (strings.Join record ",") = false
  /\ strings.hasByte csv.CR (strings.Join record ",") = false
  /\ Z.of_nat (String.length (strings.Join record ",")) < bufio.MaxScanTokenSize.
Proof.
  intros Hp Hfit. split; [|split].
  - apply Join_hasByte; [reflexivity|].
    eapply Forall_impl; [|exact Hp]. intros f. now apply plain_hasByte.
  - apply Join_hasByte; [reflexivity|].
    eapply Forall_impl; [|exact Hp]. intros f. now apply plain_hasByte.
  - unfold fitsScanner in Hfit. rewrite (plain_Write record Hp) in Hfit.
    rewrite length_append in Hfit. cbn [String.length] in Hfit. lia.
Qed.

(** The lines the scanner reads from a file of plain records. *)
Lemma ScanLines_plain_file (records : list (list string)) :
  Forall (Forall plain) records ->
  Forall fitsScanner records ->
  bufio.ScanLines (appendAll (map csv.Write records))
  = map (fun record => strings.Join record ",") records.
Proof.
  intros Hp Hfit.
  assert (Hw : map csv.Write records
               = map (fun l => (l ++ String csv.LF "")%string)
                     (map (fun record => strings.Join record ",") records)).
  { rewrite map_map. apply map_ext_in. intros rec Hin.
    rewrite Forall_forall in Hp. exact (plain_Write rec (Hp rec Hin)). }
  rewrite Hw. apply ScanLines_appendAll.
  rewrite Forall_forall in *. intros l Hin.
  apply in_map_iff in Hin as (rec & <- & Hin).
  apply plain_line; auto.
Qed.

Lemma Split_Join_records (records : list (list string)) :
  Forall (Forall plain) records ->
  Forall (fun record => record <> []) records ->
  map (fun line => strings.Split line ",")
      (map (fun record => strings.Join record ",") records)
  = records.
Proof.
  intros Hp Hne. rewrite map_map.
  rewrite <- (map_id records) at 2. apply map_ext_in. intros rec Hin.
  rewrite Forall_forall in Hp, Hne.
  apply Split_Join; [exact (Hne rec Hin)|].
  eapply Forall_impl; [|exact (Hp rec Hin)].
  intros f. now apply plain_hasByte.
Qed.

Lemma writtenRecords_nonempty (sink : Sink) (rs : list ScanResult) :
  forall k, Forall (fun record => record <> []) (writtenRecords sink k rs).
Proof.
  induction rs as [|r rs IH]; intros k; cbn [writtenRecords]; constructor;
    [discriminate|apply IH].
Qed.

Lemma keptByLoader_written (sink : Sink) (rs : list ScanResult) :
  forall k,
    keptByLoader (writtenRecords sink k rs) = feasibleRecords sink k rs.
Proof.
  unfold keptByLoader.
  induction rs as [|r rs IH]; intros k;
    cbn [writtenRecords feasibleRecords filter]; [reflexivity|].
  rewrite IH. unfold recordOf at 1 2. cbn [nth].
  change (len _ >=? 10) with true. cbn [andb].
  destruct (Feasible r); reflexivity.
Qed.

(** The loader on a file of plain records that fit the scanner. *)
Lemma load_plain_file (records : list (list string)) :
  Forall (Forall plain) records ->
  Forall fitsScanner records ->
  Forall (fun record => record <> []) records ->
  loadFeasibleResults (fileOf records) = keptByLoader records.
Proof.
  intros Hp Hfit Hne. unfold loadFeasibleResults, fileOf, keptByLoader.
  change (csv.Write headers ++ appendAll (map csv.Write records))%string
    with (appendAll (map csv.Write (headers :: records))).
  rewrite ScanLines_plain_file.
  - cbn [map]. rewrite Split_Join_records by assumption. reflexivity.
  - constructor; [exact headers_plain|exact Hp].
  - constructor; [|exact Hfit]. unfold fitsScanner. vm_compute. discriminate.
Qed.

(** C8 (amended).  Let the results be written with [NewCSVWriter] and
    [WriteResult], every text field and time stamp being one the CSV writer
    leaves unquoted (no comma, quote, line feed or carriage return, no
    leading space) and every written line fitting the 64 KiB buffer of the
    scanner.  Then [loadFeasibleResults] returns, in order, exactly the
    records of the results whose [Feasible] flag is set, each with its 13
    fields as written; the records of the other results are dropped. *)
Theorem load_returns_feasible_plain_records
    (sink : Sink) (rs : list ScanResult) :
  Forall plainResult rs ->
  (forall k, plain (Now sink k)) ->
  Forall fitsScanner (writtenRecords sink 1 rs) ->
  file (writeAll sink NewCSVWriter 1 rs) = fileOf (writtenRecords sink 1 rs)
  /\ loadFeasibleResults (file (writeAll sink NewCSVWriter 1 rs))
     = feasibleRecords sink 1 rs
  /\ len (loadFeasibleResults (file (writeAll sink NewCSVWriter 1 rs)))
     = len (filter Feasible rs).
Proof.
  intros Hrs Hnow Hfit.
  assert (Hfile : file (writeAll sink NewCSVWriter 1 rs)
                  = fileOf (writtenRecords sink 1 rs))
    by (rewrite writeAll_file; reflexivity).
  assert (Hload : loadFeasibleResults (file (writeAll sink NewCSVWriter 1 rs))
                  = feasibleRecords sink 1 rs).
  { rewrite Hfile, load_plain_file.
    - apply keptByLoader_written.
    - apply writtenRecords_plain; assumption.
    - exact Hfit.
    - apply writtenRecords_nonempty. }
  split; [exact Hfile|]. split; [exact Hload|].
  rewrite Hload. clear. generalize 1 as k.
  induction rs as [|r rs IH]; intros k; cbn [feasibleRecords filter];
    [reflexivity|].
  destruct (Feasible r); rewrite ?len_cons, IH; reflexivity.
Qed.

Lemma load_returns_feasible_plain_records_witness :
  Forall plainResult [goodResult; tls12Result]
  /\ Forall fitsScanner (writtenRecords sampleSink 1 [goodResult; tls12Result])
  /\ loadFeasibleResults
       (file (writeAll sampleSink NewCSVWriter 1 [goodResult; tls12Result]))
     = [recordOf goodResult "2024-05-01 12:00:00"].
Proof.
  assert (H1 : Forall plainResult [goodResult; tls12Result])
    by (repeat constructor).
  assert (H2 : forall k, plain (Now sampleSink k)) by (intros k; reflexivity).
  assert (H3 : Forall fitsScanner
                 (writtenRecords sampleSink 1 [goodResult; tls12Result]))
    by (repeat constructor; unfold fitsScanner; vm_compute; discriminate).
  split; [exact H1|]. split; [exact H3|].
  exact (proj1 (proj2
    (load_returns_feasible_plain_records sampleSink
       [goodResult; tls12Result] H1 H2 H3))).
Defined.

(** C8 as stated fails twice: the record of a result that is not feasible
    is not returned by the loader, and the record of a feasible result
    whose CERT_DOMAIN joins two names is cut at the comma inside the quoted
    field, its tenth part is then the country code, and it is not returned
    either. *)
Lemma round_trip_loses_records :
  ~ roundTripAsStated sampleSink [tls12Result]
  /\ ~ roundTripAsStated sampleSink [multiSANResult]
  /\ loadFeasibleResults
       (file (writeAll sampleSink NewCSVWriter 1 [multiSANResult])) = [].
Proof.
  split; [|split].
  - intros H. vm_compute in H. discriminate.
  - intros H. vm_compute in H. discriminate.
  - vm_compute. reflexivity.
Qed.

(** ** Names with a comma are not domain names *)

Lemma avoids_seq (c : ascii) (a b : regexp.re) :
  avoids c a = true -> avoids c b = true -> avoids c (regexp.seq a b) = true.
Proof.
  intros Ha Hb. destruct a, b; cbn [regexp.seq avoids] in *;
    try reflexivity; try assumption; rewrite ?Ha, ?Hb; reflexivity.
Qed.

Lemma avoids_alt (c : ascii) (a b : regexp.re) :
  avoids c a = true -> avoids c b = true -> avoids c (regexp.alt a b) = true.
Proof.
  intros Ha Hb. destruct a, b; cbn [regexp.alt avoids] in *;
    try reflexivity; try assumption; rewrite ?Ha, ?Hb; reflexivity.
Qed.

Lemma avoids_deriv (c x : ascii) (r : regexp.re) :
  avoids c r = true -> avoids c (regexp.deriv x r) = true.
Proof.
  induction r as [| |p|a IHa b IHb|a IHa b IHb|a IHa];
    cbn [regexp.deriv avoids]; intros H; try reflexivity.
  - destruct (p x); reflexivity.
  - apply andb_true_iff in H as [Ha Hb].
    apply avoids_alt; [apply avoids_seq; auto|].
    destruct (regexp.nullable a); auto.
  - apply andb_true_iff in H as [Ha Hb]. apply avoids_alt; auto.
  - apply avoids_seq; auto.
Qed.

Lemma deriv_avoided (c : ascii) (r : regexp.re) :
  avoids c r = true -> regexp.deriv c r = regexp.Void.
Proof.
  induction r as [| |p|a IHa b IHb|a IHa b IHb|a IHa];
    cbn [regexp.deriv avoids]; intros H; try reflexivity.
  - apply negb_true_iff in H. rewrite H. reflexivity.
  - apply andb_true_iff in H as [Ha Hb]. rewrite (IHa Ha), (IHb Hb).
    destruct (regexp.nullable a); reflexivity.
  - apply andb_true_iff in H as [Ha Hb]. rewrite (IHa Ha), (IHb Hb).
    reflexivity.
  - rewrite (IHa H). reflexivity.
Qed.

Lemma MatchString_Void (s : string) : regexp.MatchString regexp.Void s = false.
Proof. induction s as [|x s IH]; [reflexivity|exact IH]. Qed.

Lemma MatchString_avoided (c : ascii) (s : string) :
  forall r,
    avoids c r = true ->
    strings.hasByte c s = true ->
    regexp.MatchString r s = false.
Proof.
  induction s as [|x s IH]; intros r Hr Hs; [discriminate|].
  cbn [strings.hasByte] in Hs. cbn [regexp.MatchString].
  destruct (Ascii.eqb_spec c x) as [<-|Hne].
  - rewrite (deriv_avoided c r Hr). apply MatchString_Void.
  - cbn [orb] in Hs. apply IH; [apply avoids_deriv; exact Hr|exact Hs].
Qed.

(** [ValidateDomainName] rejects every string with a comma. *)
Lemma ValidateDomainName_comma (s : string) :
  strings.hasByte "," s = true -> ValidateDomainName s = false.
Proof.
  intros H. unfold ValidateDomainName.
  match goal with |- (if ?b then _ else _) = _ => destruct b end;
    [reflexivity|].
  apply (MatchString_avoided ","); [vm_compute; reflexivity|exact H].
Qed.

Lemma Join_two_has_comma (a b : string) (rest : list string) :
  strings.hasByte "," (strings.Join (a :: b :: rest) ",") = true.
Proof.
  rewrite Join_cons2, hasByte_app. cbn [String.append strings.hasByte].
  rewrite Ascii.eqb_refl. cbn [orb]. apply orb_true_r.
Qed.

Lemma CheckDomainConnectivity_invalid (env : Env) (ctl : ScanControl)
    (d : string) :
  PingDomain ctl = true ->
  ValidateDomainName d = false ->
  fst (CheckDomainConnectivity env ctl d) = false.
Proof.
  intros Hp Hv. unfold CheckDomainConnectivity, bind, tell, ret.
  rewrite Hp, Hv. cbn [negb].
  destruct (String.eqb d "" || isSome (ParseIP env d)); reflexivity.
Qed.

Lemma IsRealityFeasible_needs_connectivity (env : Env) (ctl : ScanControl)
    (sr : ScanResult) :
  PingDomain ctl = true ->
  fst (CheckDomainConnectivity env ctl (CertDomain sr)) = false ->
  fst (IsRealityFeasible env ctl sr) = false.
Proof.
  intros Hp Hc. unfold IsRealityFeasible.
  repeat match goal with
         | |- fst (if ?b then ret false else _) = false =>
             destruct b; [reflexivity|]
         end.
  unfold bind, ret.
  destruct (DetectCloudflareCDN env (CertDomain sr)) as [cf t1].
  destruct cf; [reflexivity|]. rewrite Hp.
  destruct (CheckDomainConnectivity env ctl (CertDomain sr)) as [ok t2].
  cbn [fst] in Hc. subst ok. reflexivity.
Qed.

(** A consequence of the checks taking the whole [CertDomain]: with ping
    enabled, an endpoint whose certificate has two or more DNS names is
    never feasible, because the joined names are not a domain name. *)
Lemma several_names_never_feasible_with_ping
    (env : Env) (cfg : Config) (ctl : ScanControl) (ip : net.IP)
    (origin : string) (geo : Geo) (state : ConnectionState)
    (cert : Certificate) (certs : list Certificate)
    (a b : string) (rest : list string) :
  DialTimeout env (addressOf env cfg ip) = None ->
  Handshake env (addressOf env cfg ip) (probeTLSConfig origin) = Ok state ->
  PeerCertificates state = cert :: certs ->
  DNSNames cert = a :: b :: rest ->
  PingDomain ctl = true ->
  Feasible (fst (scanSingleIP env cfg ctl ip origin geo)) = false.
Proof.
  intros Hd Hh Hp Hn Hping.
  destruct (scanSingleIP_handshake_ok env cfg ctl ip origin geo state Hd Hh)
    as (probed & Hs & _ & _ & _ & _ & Hcd & _).
  rewrite (fillCertificate_CertDomain state _ cert certs Hp) in Hcd
    by (rewrite Hn; discriminate).
  rewrite Hs. cbn [fst set_Feasible Feasible].
  apply IsRealityFeasible_needs_connectivity; [exact Hping|].
  apply CheckDomainConnectivity_invalid; [exact Hping|].
  apply ValidateDomainName_comma. rewrite Hcd, Hn.
  apply Join_two_has_comma.
Qed.

(** ** Further facts on the enumerators *)

(** When the network contains the next 65 536 addresses, the loop sends
    all of them and breaks at the cap. *)
Lemma cidrLoop_reaches_cap (origin : string) (ipNet : net.IPNet) (fuel : nat) :
  forall ip count,
    len ip = 4 \/ len ip = 16 ->
    count <= maxHosts ->
    maxHosts - count < Z.of_nat fuel ->
    big.SetBytes ip + (maxHosts - count) < 256 ^ len ip ->
    (forall ip',
       len ip' = len ip ->
       big.SetBytes ip <= big.SetBytes ip' < big.SetBytes ip + (maxHosts - count) ->
       net.Contains ipNet ip' = true) ->
    len (fst (cidrLoop fuel origin ipNet ip count)) = maxHosts - count
    /\ snd (cidrLoop fuel origin ipNet ip count) = Closed.
Proof.
  induction fuel as [|fuel IH]; intros ip count Hw Hc Hf Hfit Hin; [lia|].
  cbn [cidrLoop].
  destruct (count >=? maxHosts) eqn:E.
  - rewrite Z.geb_leb in E. apply Z.leb_le in E.
    destruct (negb (net.Contains ipNet ip)); cbn [fst snd]; rewrite len_nil;
      split; try reflexivity; lia.
  - rewrite Z.geb_leb in E. apply Z.leb_gt in E.
    rewrite (Hin ip eq_refl) by lia. cbn [negb].
    destruct (NextIP_up_fits ip Hw) as (ip' & Hn & Hl & Hv); [lia|].
    rewrite Hn.
    assert (Hw' : len ip' = 4 \/ len ip' = 16) by lia.
    assert (Hfit' : big.SetBytes ip' + (maxHosts - (count + 1)) < 256 ^ len ip')
      by (rewrite Hl, Hv; lia).
    assert (Hin' : forall x, len x = len ip' ->
                     big.SetBytes ip' <= big.SetBytes x
                       < big.SetBytes ip' + (maxHosts - (count + 1)) ->
                     net.Contains ipNet x = true)
      by (intros x Hx Hr; apply Hin; lia).
    destruct (IH ip' (count + 1) Hw' ltac:(lia) ltac:(lia) Hfit' Hin')
      as [Hlen Hend].
    destruct (cidrLoop fuel origin ipNet ip' (count + 1)) as [hosts e].
    cbn [fst snd] in *. rewrite len_cons. split; [lia|exact Hend].
Qed.

Lemma Contains_ten_slash8 (ip : net.IP) :
  len ip = 4 ->
  big.SetBytes (ip4 10 0 0 0) <= big.SetBytes ip
    < big.SetBytes (ip4 10 0 0 0) + maxHosts ->
  net.Contains (net.mkIPNet (ip4 10 0 0 0) (ip4 255 0 0 0)) ip = true.
Proof.
  intros Hl Hr.
  destruct ip as [|a [|b [|c [|d [|e ip]]]]]; try discriminate Hl.
  2:{ unfold len in Hl. cbn [List.length] in Hl. lia. }
  change (big.SetBytes (ip4 10 0 0 0)) with 167772160 in Hr.
  unfold maxHosts in Hr.
  rewrite !SetBytes_cons in Hr. change (big.SetBytes []) with 0 in Hr.
  change (len [b; c; d]) with 3 in Hr. change (len [c; d]) with 2 in Hr.
  change (len [d]) with 1 in Hr. change (len (@nil byte)) with 0 in Hr.
  pose proof (byte_val_range a). pose proof (byte_val_range b).
  pose proof (byte_val_range c). pose proof (byte_val_range d).
  assert (Ha : big.byte_val a = 10) by lia.
  assert (a = big.byte_of 10) by (rewrite <- Ha; symmetry; apply byte_of_val).
  subst a.
  unfold net.Contains.
  change (net.networkNumberAndMask (net.mkIPNet (ip4 10 0 0 0) (ip4 255 0 0 0)))
    with (ip4 10 0 0 0, ip4 255 0 0 0).
  change (net.To4 [big.byte_of 10; b; c; d])
    with (Some [big.byte_of 10; b; c; d]).
  change (len [big.byte_of 10; b; c; d] =? len (ip4 10 0 0 0)) with true.
  cbv iota. unfold ip4. cbn [net.sameMasked]. unfold net.maskByte.
  change (big.byte_val (big.byte_of 0)) with 0.
  rewrite !Z.land_0_r. reflexivity.
Qed.

(** The cap at work: 10.0.0.0/8 gives exactly 65 536 hosts, then the loop
    breaks and the channel is closed. *)
Example IterateCIDR_slash8_capped :
  len (fst (IterateCIDR tenEnv "10.0.0.0/8")) = 65536
  /\ snd (IterateCIDR tenEnv "10.0.0.0/8") = Closed.
Proof.
  unfold IterateCIDR.
  change (ParseCIDR tenEnv "10.0.0.0/8")
    with (Some (net.mkIPNet (ip4 10 0 0 0) (ip4 255 0 0 0))).
  cbv iota. cbn [net.NetIP].
  apply cidrLoop_reaches_cap.
  - left. reflexivity.
  - unfold maxHosts. lia.
  - unfold cidrFuel, maxHosts. lia.
  - vm_compute. reflexivity.
  - intros ip' Hl Hr. apply Contains_ten_slash8.
    + exact Hl.
    + rewrite Z.sub_0_r in Hr. exact Hr.
Qed.

(** At the top of the address space the enumeration ends in the panic of
    [NextIP], after every address of the network was sent. *)
Example cidrLoop_panics_at_the_top :
  cidrLoop cidrFuel "255.255.255.254/31"
    (net.mkIPNet (ip4 255 255 255 254) (ip4 255 255 255 254))
    (ip4 255 255 255 254) 0
  = ([mkHost (ip4 255 255 255 254) "255.255.255.254/31" HostTypeIP;
      mkHost (ip4 255 255 255 255) "255.255.255.254/31" HostTypeIP],
     Panicked).
Proof. vm_compute. reflexivity. Qed.

(** The seed 192.0.2.50 gives 192.0.2.50, .49, .51, .48, .52 in that
    order. *)
Example IterateAddr_first_five :
  map (fun h => dotted (skipn 12 (Host_IP h)))
      (fst (IterateAddr (seedEnv "192.0.2.50" seed_192_0_2_50) "192.0.2.50" 4))
  = ["192.0.2.50"; "192.0.2.49"; "192.0.2.51"; "192.0.2.48"; "192.0.2.52"].
Proof. vm_compute. reflexivity. Qed.

(** A rejected candidate is skipped and the cursor moves on: below the seed
    128.0.0.0 (4 bytes) lies the loopback network. *)
Example IterateAddr_skips_rejected :
  candidates "128.0.0.0" (ip4 128 0 0 0) 3
  = [(ip4 127 255 255 255, None);
     (ip4 128 0 0 1, Some (mkHost (ip4 128 0 0 1) "128.0.0.0" HostTypeIP));
     (ip4 127 255 255 254, None)].
Proof. vm_compute. reflexivity. Qed.

(** A front that answers /cdn-cgi/trace like Cloudflare is not feasible. *)
Example cloudflare_front_not_feasible :
  Feasible
    (fst (scanSingleIP
            (frontEnv ["cf.example.test"] (Ok (200, Ok "fl=1 colo=SJC")))
            config pingOff (ip4 192 0 2 10) "cf.example.test" None))
  = false.
Proof. vm_compute. reflexivity. Qed.

(* ================================================================== *)
(** * Part V. Further properties of the code                          *)
(* ================================================================== *)

(** ** [NextIP], continued *)

(** X1. For a 4-byte or 16-byte address other than zero, decrementing with
    [NextIP] and then incrementing gives back the same slice; the
    decrement itself never panics and yields the address one below. *)
Theorem NextIP_down_then_up (ip : net.IP) :
  len ip = 4 \/ len ip = 16 ->
  0 < big.SetBytes ip ->
  exists down,
    NextIP ip false = Some down
    /\ len down = len ip
    /\ big.SetBytes down = big.SetBytes ip - 1
    /\ NextIP down true = Some ip.
Proof.
  intros Hw Hpos.
  pose proof (SetBytes_range ip) as Hr.
  destruct (NextIP_down_total ip Hw) as (down & Hd & Hl & Hv).
  rewrite Z.abs_eq in Hv by lia.
  exists down. repeat split; try assumption.
  destruct (NextIP_up_fits down) as (up & Hu & Hlu & Hvu).
  - lia.
  - rewrite Hl, Hv. lia.
  - rewrite Hu. f_equal. apply SetBytes_inj; [unfold len in *; lia|lia].
Qed.

Lemma NextIP_down_then_up_witness :
  (len (ip4 10 0 0 0) = 4 \/ len (ip4 10 0 0 0) = 16)
  /\ 0 < big.SetBytes (ip4 10 0 0 0)
  /\ exists down,
       NextIP (ip4 10 0 0 0) false = Some down
       /\ len down = len (ip4 10 0 0 0)
       /\ big.SetBytes down = big.SetBytes (ip4 10 0 0 0) - 1
       /\ NextIP down true = Some (ip4 10 0 0 0).
Proof.
  assert (H1 : len (ip4 10 0 0 0) = 4 \/ len (ip4 10 0 0 0) = 16)
    by (left; reflexivity).
  assert (H2 : 0 < big.SetBytes (ip4 10 0 0 0)) by (vm_compute; reflexivity).
  split; [exact H1|]. split; [exact H2|].
  exact (NextIP_down_then_up (ip4 10 0 0 0) H1 H2).
Defined.

(** X2. Whatever slice [NextIP] is given, a result has 4 bytes when the
    input has 4 bytes and 16 bytes otherwise (a nil or odd-sized slice is
    treated as IPv6), and it encodes the magnitude of the stepped integer;
    [NextIP] panics exactly when that magnitude does not fit the width. *)
Theorem NextIP_result_shape (ip : net.IP) (increment : bool) :
  (forall ip',
     NextIP ip increment = Some ip' ->
     len ip' = (if len ip =? 4 then 4 else 16)
     /\ big.SetBytes ip' = Z.abs (stepped ip increment))
  /\ (NextIP ip increment = None <->
      256 ^ (if len ip =? 4 then 4 else 16) <= Z.abs (stepped ip increment)).
Proof.
  fold (widthOf ip).
  destruct (Z_lt_le_dec (Z.abs (stepped ip increment)) (256 ^ widthOf ip))
    as [Hfit|Hbig].
  - destruct (NextIP_fits ip increment Hfit) as (x & Hx & Hl & Hv).
    rewrite Hx. split.
    + intros ip' [= <-]. auto.
    + split; [discriminate|lia].
  - rewrite (NextIP_overflow ip increment Hbig). split.
    + discriminate.
    + split; auto.
Qed.

Lemma NextIP_result_shape_witness :
  NextIP [] true = Some (ip16 [x01])
  /\ len (ip16 [x01]) = (if len (@nil byte) =? 4 then 4 else 16)
  /\ big.SetBytes (ip16 [x01]) = Z.abs (stepped [] true).
Proof.
  assert (H : NextIP [] true = Some (ip16 [x01])) by (vm_compute; reflexivity).
  split; [exact H|].
  exact (proj1 (NextIP_result_shape [] true) _ H).
Defined.

(** ** [isValidIP] and [IsPrivateIP] *)

Lemma multicast_byte (b : byte) :
  (Z.land (big.byte_val b) 240 =? 224)
  = (224 <=? big.byte_val b) && (big.byte_val b <? 240).
Proof. destruct b; reflexivity. Qed.

Lemma byte_eqb_val (a b : byte) :
  Byte.eqb a b = (big.byte_val a =? big.byte_val b).
Proof.
  destruct (Z.eqb_spec (big.byte_val a) (big.byte_val b)) as [E|E].
  - apply byte_val_inj in E. subst. apply Byte.byte_dec_lb. reflexivity.
  - destruct (Byte.eqb a b) eqn:Eb; [|reflexivity].
    apply Byte.byte_dec_bl in Eb. subst. contradiction.
Qed.

Lemma four_bytes (ip : net.IP) :
  len ip = 4 -> exists a b c d, ip = [a; b; c; d].
Proof.
  intros H. destruct ip as [|a [|b [|c [|d [|e ip]]]]];
    unfold len in H; cbn [List.length] in H; try lia.
  exists a, b, c, d. reflexivity.
Qed.

Lemma SetBytes_four (a b c d : byte) :
  big.SetBytes [a; b; c; d]
  = big.byte_val a * 16777216 + big.byte_val b * 65536
    + big.byte_val c * 256 + big.byte_val d.
Proof. unfold big.SetBytes. cbn [fold_left]. lia. Qed.

Lemma isValidIP_four (a b c d : byte) :
  isValidIP [a; b; c; d]
  = negb (big.byte_val a =? 127)
    && negb ((224 <=? big.byte_val a) && (big.byte_val a <? 240)).
Proof.
  unfold isValidIP, net.IsLoopback, net.IsMulticast.
  change (net.To4 [a; b; c; d]) with (Some [a; b; c; d]).
  cbv iota. unfold net.at_. cbn [nth].
  rewrite byte_eqb_val, multicast_byte.
  change (big.byte_val x7f) with 127.
  destruct (big.byte_val a =? 127); [reflexivity|].
  destruct ((224 <=? big.byte_val a) && (big.byte_val a <? 240)); reflexivity.
Qed.

(** X3. [isValidIP] on IPv4 addresses rejects exactly the loopback block
    127.0.0.0/8 and the multicast block 224.0.0.0/4 and accepts every other
    address, private and broadcast addresses included; an IPv4-mapped
    16-byte address is judged like its 4-byte form. *)
Theorem isValidIP_on_IPv4 (ip : net.IP) :
  len ip = 4 ->
  (isValidIP ip = true <->
   ~ (2130706432 <= big.SetBytes ip < 2147483648)
   /\ ~ (3758096384 <= big.SetBytes ip < 4026531840))
  /\ isValidIP (net.v4InV6Prefix ++ ip) = isValidIP ip.
Proof.
  intros Hl. destruct (four_bytes ip Hl) as (a & b & c & d & ->).
  split.
  - rewrite isValidIP_four, SetBytes_four.
    pose proof (byte_val_range a). pose proof (byte_val_range b).
    pose proof (byte_val_range c). pose proof (byte_val_range d).
    rewrite andb_true_iff, !negb_true_iff, andb_false_iff.
    rewrite Z.eqb_neq, Z.leb_gt, Z.ltb_ge. lia.
  - rewrite isValidIP_four.
    unfold isValidIP, net.IsLoopback, net.IsMulticast.
    change (net.To4 (net.v4InV6Prefix ++ [a; b; c; d]))
      with (Some [a; b; c; d]).
    cbn [app net.v4InV6Prefix]. cbv iota. unfold net.at_. cbn [nth].
    rewrite byte_eqb_val, multicast_byte.
    change (big.byte_val x7f) with 127.
    destruct (big.byte_val a =? 127); [reflexivity|].
    destruct ((224 <=? big.byte_val a) && (big.byte_val a <? 240));
      reflexivity.
Qed.

Lemma isValidIP_on_IPv4_witness :
  len (ip4 192 168 1 1) = 4
  /\ isValidIP (ip4 192 168 1 1) = true
  /\ ~ (2130706432 <= big.SetBytes (ip4 192 168 1 1) < 2147483648).
Proof.
  split; [reflexivity|]. split; [reflexivity|].
  exact (proj1 (proj1 (proj1 (isValidIP_on_IPv4 (ip4 192 168 1 1) eq_refl))
                 eq_refl)).
Defined.

(** X4. [isValidIP] on 16-byte addresses that are not IPv4-mapped rejects
    exactly ::1 and the addresses whose first byte is ff (multicast). *)
Theorem isValidIP_on_IPv6 (ip : net.IP) :
  len ip = 16 ->
  net.To4 ip = None ->
  (isValidIP ip = true <-> ip <> net.IPv6loopback /\ net.at_ ip 0 <> xff).
Proof.
  intros Hl H4. unfold isValidIP.
  destruct ip as [|x ip]; [discriminate Hl|].
  unfold net.IsLoopback, net.IsMulticast. rewrite H4.
  unfold net.Equal. rewrite Hl.
  change (len net.IPv6loopback) with 16. change (16 =? 16) with true.
  change (16 =? net.IPv6len) with true. cbv iota. cbn [andb].
  unfold net.bytesEqual.
  destruct (list_eq_dec Byte.byte_eq_dec (x :: ip) net.IPv6loopback) as [E|E].
  - split; [discriminate|]. intros [Hne _]. contradiction.
  - destruct (Byte.eqb (net.at_ (x :: ip) 0) xff) eqn:Eb.
    + apply Byte.byte_dec_bl in Eb. split; [discriminate|].
      intros [_ Hne]. contradiction.
    + split; [|reflexivity]. intros _. split; [exact E|].
      intros Hc. rewrite Hc in Eb. discriminate.
Qed.

Lemma isValidIP_on_IPv6_witness :
  len seed_v6_2 = 16
  /\ net.To4 seed_v6_2 = None
  /\ (isValidIP seed_v6_2 = true <->
      seed_v6_2 <> net.IPv6loopback /\ net.at_ seed_v6_2 0 <> xff).
Proof.
  split; [reflexivity|]. split; [reflexivity|].
  exact (isValidIP_on_IPv6 seed_v6_2 eq_refl eq_refl).
Defined.

Lemma IsPrivateIP_four (a b c d : byte) :
  IsPrivateIP [a; b; c; d]
  = Some ((big.byte_val a =? 10)
          || ((big.byte_val a =? 172) && (big.byte_val b >=? 16)
              && (big.byte_val b <=? 31))
          || ((big.byte_val a =? 192) && (big.byte_val b =? 168))).
Proof. reflexivity. Qed.

(** X5. [IsPrivateIP] on a 4-byte address never panics and answers true
    exactly for the blocks 10.0.0.0/8, 172.16.0.0/12 and 192.168.0.0/16;
    an IPv4-mapped 16-byte address gets the answer of its 4-byte form; and
    every address it calls private is one [isValidIP] keeps. *)
Theorem IsPrivateIP_on_IPv4 (ip : net.IP) :
  len ip = 4 ->
  (exists answer, IsPrivateIP ip = Some answer)
  /\ (IsPrivateIP ip = Some true <->
      167772160 <= big.SetBytes ip < 184549376
      \/ 2886729728 <= big.SetBytes ip < 2887778304
      \/ 3232235520 <= big.SetBytes ip < 3232301056)
  /\ IsPrivateIP (net.v4InV6Prefix ++ ip) = IsPrivateIP ip
  /\ (IsPrivateIP ip = Some true -> isValidIP ip = true).
Proof.
  intros Hl. destruct (four_bytes ip Hl) as (a & b & c & d & ->).
  pose proof (byte_val_range a). pose proof (byte_val_range b).
  pose proof (byte_val_range c). pose proof (byte_val_range d).
  assert (Hiff :
    IsPrivateIP [a; b; c; d] = Some true <->
    (big.byte_val a = 10
     \/ (big.byte_val a = 172 /\ 16 <= big.byte_val b <= 31)
     \/ (big.byte_val a = 192 /\ big.byte_val b = 168))).
  { rewrite IsPrivateIP_four. split.
    - intros [= E]. rewrite !orb_true_iff, !andb_true_iff in E.
      rewrite !Z.eqb_eq, Z.geb_le, Z.leb_le in E. lia.
    - intros E. f_equal. rewrite !orb_true_iff, !andb_true_iff.
      rewrite !Z.eqb_eq, Z.geb_le, Z.leb_le. lia. }
  split; [rewrite IsPrivateIP_four; eexists; reflexivity|].
  split; [|split].
  - rewrite Hiff, SetBytes_four. lia.
  - reflexivity.
  - intros Hp. apply Hiff in Hp. rewrite isValidIP_four.
    rewrite andb_true_iff, !negb_true_iff, andb_false_iff.
    rewrite Z.eqb_neq, Z.leb_gt, Z.ltb_ge. lia.
Qed.

Lemma IsPrivateIP_on_IPv4_witness :
  len (ip4 172 20 0 1) = 4
  /\ IsPrivateIP (ip4 172 20 0 1) = Some true
  /\ isValidIP (ip4 172 20 0 1) = true.
Proof.
  split; [reflexivity|]. split; [reflexivity|].
  exact (proj2 (proj2 (proj2 (IsPrivateIP_on_IPv4 (ip4 172 20 0 1) eq_refl)))
           eq_refl).
Defined.

(** X6. Outside IPv4 the last line of [IsPrivateIP] reads
    [(len(ip) == 16 && ip[0] == 0xfc) || ip[0] == 0xfd]: on the nil or empty
    slice it panics at [ip[0]]; on a 16-byte address that is not
    IPv4-mapped it is true exactly for a first byte fc or fd; and on a
    slice of any other length it is true exactly when the first byte is
    fd, whatever the length. *)
Theorem IsPrivateIP_outside_IPv4 :
  IsPrivateIP [] = None
  /\ (forall ip,
        len ip = 16 -> net.To4 ip = None ->
        IsPrivateIP ip
        = Some (Byte.eqb (net.at_ ip 0) xfc || Byte.eqb (net.at_ ip 0) xfd))
  /\ (forall b rest,
        len (b :: rest) <> 4 -> len (b :: rest) <> 16 ->
        IsPrivateIP (b :: rest) = Some (Byte.eqb b xfd)).
Proof.
  split; [reflexivity|]. split.
  - intros ip Hl H4. unfold IsPrivateIP. rewrite H4, Hl.
    change (16 =? 16) with true. cbn [andb].
    destruct ip as [|x ip]; [discriminate Hl|].
    unfold net.at_. cbn [nth].
    destruct (Byte.eqb x xfc); reflexivity.
  - intros b rest H4 H16. unfold IsPrivateIP, net.To4, net.IPv4len, net.IPv6len.
    destruct (Z.eqb_spec (len (b :: rest)) 4); [contradiction|].
    destruct (Z.eqb_spec (len (b :: rest)) 16); [contradiction|].
    reflexivity.
Qed.

Lemma IsPrivateIP_outside_IPv4_witness :
  len (ip16 [x01]) = 16
  /\ net.To4 (ip16 [x01]) = None
  /\ IsPrivateIP (ip16 [x01]) = Some false
  /\ IsPrivateIP [xfd; x00] = Some true.
Proof.
  destruct IsPrivateIP_outside_IPv4 as (_ & H16 & Hodd).
  split; [reflexivity|]. split; [reflexivity|]. split.
  - exact (H16 (ip16 [x01]) eq_refl eq_refl).
  - apply (Hodd xfd [x00]); vm_compute; discriminate.
Defined.

(** ** [ExistOnlyOne] *)

Lemma count_nonempty_fold (strs : list string) (n : Z) :
  fold_left (fun count s => if negb (String.eqb s "") then count + 1 else count)
            strs n
  = n + len (filter (fun s => negb (String.eqb s "")) strs).
Proof.
  revert n. induction strs as [|s strs IH]; intros n; cbn [fold_left filter].
  - rewrite len_nil. lia.
  - rewrite IH. destruct (negb (String.eqb s "")); rewrite ?len_cons; lia.
Qed.

Lemma filter_single {A : Type} (p : A -> bool) (l : list A) (x : A) :
  filter p l = [x] ->
  exists pre post,
    l = pre ++ x :: post /\ p x = true
    /\ Forall (fun y => p y = false) pre /\ Forall (fun y => p y = false) post.
Proof.
  induction l as [|a l IH]; cbn [filter]; [discriminate|].
  destruct (p a) eqn:Ea.
  - intros [= -> Hrest]. exists [], l. repeat split; auto.
    clear IH. induction l as [|b l IHl]; [constructor|].
    cbn [filter] in Hrest. destruct (p b) eqn:Eb; [discriminate|].
    constructor; auto.
  - intros H. destruct (IH H) as (pre & post & -> & Hx & Hpre & Hpost).
    exists (a :: pre), post. repeat split; auto.
Qed.

(** X7. [ExistOnlyOne] is true exactly when one element of the slice is a
    non-empty string and all the others are empty; it is false for the
    empty slice. *)
Theorem ExistOnlyOne_exactly_one (strs : list string) :
  ExistOnlyOne strs = true <->
  exists pre s post,
    strs = pre ++ s :: post
    /\ s <> ""
    /\ Forall (fun x => x = "") pre
    /\ Forall (fun x => x = "") post.
Proof.
  unfold ExistOnlyOne. rewrite count_nonempty_fold, Z.eqb_eq. split.
  - intros H.
    destruct (filter (fun s => negb (String.eqb s "")) strs) as [|x [|y l]] eqn:E.
    + unfold len in H. cbn [List.length] in H. lia.
    + destruct (filter_single _ _ _ E) as (pre & post & -> & Hx & Hpre & Hpost).
      exists pre, x, post. split; [reflexivity|].
      apply negb_true_iff, String.eqb_neq in Hx. split; [exact Hx|].
      split; (eapply Forall_impl; [|eassumption]); intros y Hy;
        apply negb_false_iff, String.eqb_eq in Hy; exact Hy.
    + rewrite !len_cons in H. pose proof (len_nonneg l). lia.
  - intros (pre & s & post & -> & Hs & Hpre & Hpost).
    rewrite filter_app. cbn [filter].
    apply String.eqb_neq in Hs. rewrite Hs. cbn [negb].
    assert (Hnil : forall l, Forall (fun x => x = "") l ->
                     filter (fun s => negb (String.eqb s "")) l = []).
    { induction 1 as [|x l -> _ IH]; [reflexivity|]. cbn. exact IH. }
    rewrite (Hnil pre Hpre), (Hnil post Hpost). reflexivity.
Qed.

(** ** [ResolveDomain] *)

Lemma ResolveDomain_ok_nonempty (env : Env) (cfg : Config) (domain : string)
    (ips : list net.IP) :
  fst (ResolveDomain env cfg domain) = Ok ips -> ips <> [].
Proof.
  unfold ResolveDomain, bind, tell, ret.
  destruct (LookupIP env domain) as [found|e]; [|discriminate].
  destruct (len (filter _ found) =? 0) eqn:Ek; [discriminate|].
  cbn [fst]. intros [= <-] Hn. rewrite Hn in Ek. discriminate.
Qed.

(** X8. [ResolveDomain] makes exactly one lookup.  When it succeeds the
    addresses it returns are not empty, are addresses of the lookup in the
    order of the lookup, and with IPv6 disabled each of them has a 4-byte
    form; with IPv6 enabled nothing of a non-empty lookup is dropped.  It
    fails when the lookup fails or leaves no usable address. *)
Theorem ResolveDomain_usable_addresses
    (env : Env) (cfg : Config) (domain : string) :
  snd (ResolveDomain env cfg domain) = [EvLookupIP domain]
  /\ (forall ips,
        fst (ResolveDomain env cfg domain) = Ok ips ->
        ips <> []
        /\ (exists found,
              LookupIP env domain = Ok found
              /\ ips = filter (fun ip => IPv6 cfg || isSome (net.To4 ip)) found
              /\ (IPv6 cfg = true -> ips = found))
        /\ (IPv6 cfg = false ->
            Forall (fun ip => exists ip4, net.To4 ip = Some ip4 /\ len ip4 = 4)
                   ips))
  /\ (forall err,
        fst (ResolveDomain env cfg domain) = Err err ->
        (exists cause,
           LookupIP env domain = Err cause
           /\ err = ("域名解析失败: " ++ cause)%string)
        \/ (err = "没有找到有效的IP地址"
            /\ exists found,
                 LookupIP env domain = Ok found
                 /\ Forall (fun ip => IPv6 cfg = false /\ net.To4 ip = None)
                           found)).
Proof.
  unfold ResolveDomain, bind, tell, ret.
  destruct (LookupIP env domain) as [found|e] eqn:El.
  - set (kept := filter (fun ip => IPv6 cfg || isSome (net.To4 ip)) found).
    assert (Hkept : forall ip, In ip kept ->
              IPv6 cfg = false -> exists ip4, net.To4 ip = Some ip4 /\ len ip4 = 4).
    { intros ip Hin H6. apply filter_In in Hin as [_ Hk]. rewrite H6 in Hk.
      destruct (net.To4 ip) as [ip4|] eqn:E4; [|discriminate].
      exists ip4. split; [reflexivity|]. exact (To4_len ip ip4 E4). }
    destruct (len kept =? 0) eqn:Ek.
    + cbn [fst snd app]. split; [reflexivity|]. split; [discriminate|].
      intros err [= <-]. right. split; [reflexivity|].
      exists found. split; [reflexivity|].
      apply Z.eqb_eq in Ek.
      assert (kept = []) by (destruct kept; [reflexivity|rewrite len_cons in Ek;
                              pose proof (len_nonneg kept); lia]).
      apply Forall_forall. intros ip Hin.
      destruct (IPv6 cfg || isSome (net.To4 ip)) eqn:Ec.
      * assert (In ip kept) by (apply filter_In; auto).
        rewrite H in H0. destruct H0.
      * apply orb_false_iff in Ec as [H6 H4].
        destruct (net.To4 ip); [discriminate|]. auto.
    + cbn [fst snd app]. split; [reflexivity|]. split; [|discriminate].
      intros ips [= <-]. apply Z.eqb_neq in Ek. split; [|split].
      * intros Hn. rewrite Hn in Ek. apply Ek. reflexivity.
      * exists found. split; [reflexivity|]. split; [reflexivity|].
        intros H6. unfold kept. rewrite H6. cbn [orb].
        clear. induction found as [|x l IH]; [reflexivity|].
        cbn [filter]. rewrite IH. reflexivity.
      * intros H6. apply Forall_forall. intros ip Hin. exact (Hkept ip Hin H6).
  - cbn [fst snd app]. split; [reflexivity|]. split; [discriminate|].
    intros err [= <-]. left. exists e. auto.
Qed.

Lemma ResolveDomain_usable_addresses_witness :
  fst (ResolveDomain
         (mkEnv (fun _ => None) (fun _ => None) dotted
                (fun _ => Ok [ip16 [x01]; ip4 192 0 2 7])
                (fun _ => None) (fun _ _ => Err "EOF") (fun _ => 0)
                (fun _ => Err "timeout") (fun _ => false))
         config "dual.example.test")
  = Ok [ip4 192 0 2 7]
  /\ [ip4 192 0 2 7] <> []
  /\ Forall (fun ip => exists ip4, net.To4 ip = Some ip4 /\ len ip4 = 4)
            [ip4 192 0 2 7].
Proof.
  assert (H : fst (ResolveDomain
         (mkEnv (fun _ => None) (fun _ => None) dotted
                (fun _ => Ok [ip16 [x01]; ip4 192 0 2 7])
                (fun _ => None) (fun _ _ => Err "EOF") (fun _ => 0)
                (fun _ => Err "timeout") (fun _ => false))
         config "dual.example.test") = Ok [ip4 192 0 2 7])
    by (vm_compute; reflexivity).
  split; [exact H|].
  destruct (ResolveDomain_usable_addresses
              (mkEnv (fun _ => None) (fun _ => None) dotted
                     (fun _ => Ok [ip16 [x01]; ip4 192 0 2 7])
                     (fun _ => None) (fun _ _ => Err "EOF") (fun _ => 0)
                     (fun _ => Err "timeout") (fun _ => false))
              config "dual.example.test") as (_ & Hok & _).
  destruct (Hok _ H) as (Hne & _ & H4). split; [exact Hne|].
  apply H4. reflexivity.
Defined.

(** ** What one probe sends and does *)

Lemma IsRealityFeasible_unfold (env : Env) (ctl : ScanControl)
    (sr : ScanResult) :
  IsRealityFeasible env ctl sr
  = if negb (localChecks sr) then (false, [])
    else
      let (cf, t1) := DetectCloudflareCDN env (CertDomain sr) in
      if cf then (false, t1)
      else if PingDomain ctl then
        let (ok, t2) := CheckDomainConnectivity env ctl (CertDomain sr) in
        (ok, t1 ++ t2)
      else (true, t1).
Proof.
  unfold IsRealityFeasible, localChecks, isValidRealityDomain, ret.
  destruct (String.eqb (TLSVersion sr) RequiredTLSVersion); [|reflexivity].
  destruct (String.eqb (ALPN sr) RequiredALPN); [|reflexivity].
  destruct (String.eqb (Curve sr) RequiredCurve); [|reflexivity].
  destruct (String.eqb (CertDomain sr) ""); [reflexivity|].
  destruct (String.eqb (CertIssuer sr) ""); [reflexivity|].
  cbn [negb andb]. unfold bind.
  destruct (DetectCloudflareCDN env (CertDomain sr)) as [cf t1].
  destruct cf; [rewrite app_nil_r; reflexivity|].
  destruct (PingDomain ctl); [|rewrite app_nil_r; reflexivity].
  destruct (CheckDomainConnectivity env ctl (CertDomain sr)) as [ok t2].
  destruct ok; cbn [negb]; rewrite app_nil_r; reflexivity.
Qed.

Lemma localChecks_true (sr : ScanResult) :
  localChecks sr = true <->
  TLSVersion sr = "TLS 1.3" /\ ALPN sr = "h2" /\ Curve sr = "X25519"
  /\ CertDomain sr <> "" /\ CertIssuer sr <> "".
Proof.
  unfold localChecks, RequiredTLSVersion, RequiredALPN, RequiredCurve.
  rewrite !andb_true_iff, !negb_true_iff, !String.eqb_eq, !String.eqb_neq.
  tauto.
Qed.

Lemma DetectCloudflareCDN_unfold (env : Env) (d : string) :
  snd (DetectCloudflareCDN env d)
  = if String.eqb d "" then [EvDetectCloudflareCDN d]
    else [EvDetectCloudflareCDN d;
          EvHTTPGet ("https://" ++ d ++ "/cdn-cgi/trace")%string].
Proof.
  unfold DetectCloudflareCDN, bind, tell, ret.
  destruct (String.eqb d ""); [reflexivity|].
  destruct (HTTPGet env _) as [[status body]|err]; [|reflexivity].
  destruct (status =? 200); [|reflexivity].
  destruct body; reflexivity.
Qed.

Lemma CheckDomainConnectivity_unfold (env : Env) (ctl : ScanControl)
    (d : string) :
  CheckDomainConnectivity env ctl d
  = if negb (PingDomain ctl) then (true, [EvCheckDomainConnectivity d])
    else if String.eqb d "" || isSome (ParseIP env d)
                || negb (ValidateDomainName d)
         then (false, [EvCheckDomainConnectivity d])
         else (PingRun env d, [EvCheckDomainConnectivity d; EvPing d]).
Proof.
  unfold CheckDomainConnectivity, pingDomain, bind, tell, ret.
  destruct (negb (PingDomain ctl)); [reflexivity|].
  destruct (String.eqb d "" || isSome (ParseIP env d)); [reflexivity|].
  cbn [orb]. destruct (negb (ValidateDomainName d)); reflexivity.
Qed.

Lemma getTLSVersionString_13 (v : Z) :
  getTLSVersionString v = "TLS 1.3" <-> v = 772.
Proof.
  unfold getTLSVersionString. split.
  - destruct (Z.eqb_spec v 769); [discriminate|].
    destruct (Z.eqb_spec v 770); [discriminate|].
    destruct (Z.eqb_spec v 771); [discriminate|].
    destruct (Z.eqb_spec v 772); [auto|]. discriminate.
  - intros ->. reflexivity.
Qed.

(** The result of [scanSingleIP] names the address, the origin and the
    port it was called with. *)
Lemma scanSingleIP_identity (env : Env) (cfg : Config) (ctl : ScanControl)
    (ip : net.IP) (origin : string) (geo : Geo) :
  IP (fst (scanSingleIP env cfg ctl ip origin geo)) = IPString env ip
  /\ Origin (fst (scanSingleIP env cfg ctl ip origin geo)) = origin
  /\ Port (fst (scanSingleIP env cfg ctl ip origin geo)) = Config_Port cfg.
Proof.
  unfold scanSingleIP. fold (addressOf env cfg ip).
  rewrite probeTLSConfig_built. unfold bind, tell, ret.
  destruct (DialTimeout env (addressOf env cfg ip)) as [err|].
  { destruct geo; cbn; auto. }
  destruct (Handshake env (addressOf env cfg ip) (probeTLSConfig origin))
    as [state|err].
  2:{ destruct geo; cbn; auto. }
  match goal with
  | |- context [IsRealityFeasible env ctl ?p] =>
      destruct (IsRealityFeasible env ctl p) as [f tr];
      match p with
      | fillCertificate state ?q =>
          pose proof (fillCertificate_keeps state q) as Hk
      end
  end.
  cbn [fst set_Feasible IP Origin Port].
  cbv zeta in Hk. destruct Hk as (H1 & H2 & H3 & _).
  rewrite H1, H2, H3. destruct geo; cbn; auto.
Qed.

Lemma scanEach_results (env : Env) (cfg : Config) (ctl : ScanControl)
    (origin : string) (geo : Geo) (ips : list net.IP) :
  map IP (fst (scanEach env cfg ctl ips origin geo)) = map (IPString env) ips
  /\ Forall (fun r => Origin r = origin /\ Port r = Config_Port cfg)
            (fst (scanEach env cfg ctl ips origin geo)).
Proof.
  induction ips as [|ip ips [IHm IHf]]; cbn [scanEach].
  - split; [reflexivity|constructor].
  - destruct (scanSingleIP_identity env cfg ctl ip origin geo) as (H1 & H2 & H3).
    unfold bind, ret.
    destruct (scanSingleIP env cfg ctl ip origin geo) as [r t1].
    destruct (scanEach env cfg ctl ips origin geo) as [rs t2].
    cbn [fst map] in *. split; [rewrite H1, IHm; reflexivity|].
    constructor; auto.
Qed.

Lemma ScanTLS_results_tagged (env : Env) (cfg : Config) (ctl : ScanControl)
    (host : Host) (geo : Geo) :
  Forall (fun r => Origin r = Host_Origin host /\ Port r = Config_Port cfg)
         (fst (ScanTLS env cfg ctl host geo)).
Proof.
  unfold ScanTLS. destruct (Host_Type host).
  - exact (proj2 (scanEach_results env cfg ctl (Host_Origin host) geo
                    [Host_IP host])).
  - repeat constructor.
  - unfold bind.
    destruct (ResolveDomain env cfg (Host_Origin host)) as [[ips|err] t1].
    + pose proof (scanEach_results env cfg ctl (Host_Origin host) geo ips)
        as [_ Hf].
      destruct (scanEach env cfg ctl ips (Host_Origin host) geo) as [rs t2].
      exact Hf.
    + repeat constructor.
Qed.

(** X9. [ScanTLS] sends one result per address: one for an IP target, one
    per resolved address, in order, for a Domain target whose resolution
    succeeds, and for a CIDR target a single error result without touching
    the network.  Every result carries the origin of the target unchanged
    and the configured port. *)
Theorem ScanTLS_one_result_per_address
    (env : Env) (cfg : Config) (ctl : ScanControl) (host : Host) (geo : Geo) :
  (Host_Type host = HostTypeIP ->
   map IP (fst (ScanTLS env cfg ctl host geo)) = [IPString env (Host_IP host)])
  /\ (forall ips,
        Host_Type host = HostTypeDomain ->
        fst (ResolveDomain env cfg (Host_Origin host)) = Ok ips ->
        map IP (fst (ScanTLS env cfg ctl host geo)) = map (IPString env) ips)
  /\ (Host_Type host = HostTypeCIDR ->
      snd (ScanTLS env cfg ctl host geo) = []
      /\ map Error (fst (ScanTLS env cfg ctl host geo)) = ["不支持的主机类型"])
  /\ Forall (fun r => Origin r = Host_Origin host /\ Port r = Config_Port cfg)
            (fst (ScanTLS env cfg ctl host geo)).
Proof.
  unfold ScanTLS. destruct (Host_Type host).
  - pose proof (scanEach_results env cfg ctl (Host_Origin host) geo
                  [Host_IP host]) as [Hm Hf].
    repeat split; try discriminate; auto.
  - repeat split; try discriminate. repeat constructor.
  - unfold bind.
    destruct (ResolveDomain env cfg (Host_Origin host)) as [[ips|err] t1].
    + pose proof (scanEach_results env cfg ctl (Host_Origin host) geo ips)
        as [Hm Hf].
      destruct (scanEach env cfg ctl ips (Host_Origin host) geo) as [rs t2].
      cbn [fst] in *. repeat split; try discriminate; auto.
      intros ips' _ [= <-]. exact Hm.
    + cbn [fst ret]. repeat split; try discriminate. repeat constructor.
Qed.

Lemma ScanTLS_one_result_per_address_witness :
  Host_Type (mkHost [] "192.0.2.0/30" HostTypeCIDR) = HostTypeCIDR
  /\ snd (ScanTLS deadEnv config scanControl
            (mkHost [] "192.0.2.0/30" HostTypeCIDR) None) = []
  /\ map Error (fst (ScanTLS deadEnv config scanControl
                       (mkHost [] "192.0.2.0/30" HostTypeCIDR) None))
     = ["不支持的主机类型"].
Proof.
  split; [reflexivity|].
  exact (proj1 (proj2 (proj2
    (ScanTLS_one_result_per_address deadEnv config scanControl
       (mkHost [] "192.0.2.0/30" HostTypeCIDR) None))) eq_refl).
Defined.

Lemma ScanTLS_nonempty (env : Env) (cfg : Config) (ctl : ScanControl)
    (host : Host) (geo : Geo) :
  fst (ScanTLS env cfg ctl host geo) <> [].
Proof.
  unfold ScanTLS. destruct (Host_Type host).
  - cbn [scanEach]. unfold bind, ret.
    destruct (scanSingleIP env cfg ctl (Host_IP host) (Host_Origin host) geo).
    discriminate.
  - discriminate.
  - pose proof (ResolveDomain_ok_nonempty env cfg (Host_Origin host)) as Hok.
    unfold bind.
    destruct (ResolveDomain env cfg (Host_Origin host)) as [[ips|err] t1].
    + pose proof (Hok ips eq_refl) as Hne.
      destruct ips as [|ip ips]; [contradiction|].
      cbn [scanEach]. unfold bind, ret.
      destruct (scanSingleIP env cfg ctl ip (Host_Origin host) geo).
      destruct (scanEach env cfg ctl ips (Host_Origin host) geo).
      discriminate.
    + discriminate.
Qed.

(** X10. One worker's [BatchScan] answers every host it receives: each
    host gets at least one result, and every result carries the origin of
    one of the hosts, unchanged, and the configured port. *)
Theorem BatchScan_answers_every_host
    (env : Env) (cfg : Config) (ctl : ScanControl) (hosts : list Host)
    (geo : Geo) :
  len hosts <= len (fst (BatchScan env cfg ctl hosts geo))
  /\ forall r,
       In r (fst (BatchScan env cfg ctl hosts geo)) ->
       Port r = Config_Port cfg
       /\ exists host, In host hosts /\ Origin r = Host_Origin host.
Proof.
  induction hosts as [|host hosts [IHl IHo]]; cbn [BatchScan].
  - split; [cbn; lia|]. intros r [].
  - pose proof (ScanTLS_nonempty env cfg ctl host geo) as Hne.
    pose proof (ScanTLS_results_tagged env cfg ctl host geo) as Hall.
    unfold bind, ret.
    destruct (ScanTLS env cfg ctl host geo) as [sent t1].
    destruct (BatchScan env cfg ctl hosts geo) as [more t2].
    cbn [fst] in *. split.
    + rewrite len_cons, len_app. destruct sent as [|r sent]; [contradiction|].
      rewrite len_cons. pose proof (len_nonneg sent). lia.
    + intros r Hin. apply in_app_iff in Hin as [Hin|Hin].
      * rewrite Forall_forall in Hall. destruct (Hall r Hin) as [Ho Hp].
        split; [exact Hp|]. exists host. split; [left; reflexivity|exact Ho].
      * destruct (IHo r Hin) as (Hp & h & Hh & Ho).
        split; [exact Hp|]. exists h. split; [right; exact Hh|exact Ho].
Qed.

Lemma BatchScan_answers_every_host_witness :
  In (set_Error "不支持的主机类型" (newScanResult "" "192.0.2.0/30" 443))
     (fst (BatchScan deadEnv config scanControl
             [mkHost [] "192.0.2.0/30" HostTypeCIDR] None))
  /\ exists host,
       In host [mkHost [] "192.0.2.0/30" HostTypeCIDR]
       /\ Origin (set_Error "不支持的主机类型"
                    (newScanResult "" "192.0.2.0/30" 443))
          = Host_Origin host.
Proof.
  assert (Hin :
    In (set_Error "不支持的主机类型" (newScanResult "" "192.0.2.0/30" 443))
       (fst (BatchScan deadEnv config scanControl
               [mkHost [] "192.0.2.0/30" HostTypeCIDR] None)))
    by (left; reflexivity).
  split; [exact Hin|].
  exact (proj2 (proj2 (BatchScan_answers_every_host deadEnv config scanControl
                         [mkHost [] "192.0.2.0/30" HostTypeCIDR] None) _ Hin)).
Defined.

(** The three ways through [scanSingleIP]. *)
Lemma scanSingleIP_cases (env : Env) (cfg : Config) (ctl : ScanControl)
    (ip : net.IP) (origin : string) (geo : Geo) :
  let a := addressOf env cfg ip in
  let c := probeTLSConfig origin in
  let out := scanSingleIP env cfg ctl ip origin geo in
  (exists err,
     DialTimeout env a = Some err
     /\ snd out = [EvDial a]
     /\ Feasible (fst out) = false /\ CertDomain (fst out) = "")
  \/ (exists err,
        DialTimeout env a = None /\ Handshake env a c = Err err
        /\ snd out = [EvDial a; EvHandshake a c]
        /\ Feasible (fst out) = false /\ CertDomain (fst out) = "")
  \/ (exists state probed,
        DialTimeout env a = None /\ Handshake env a c = Ok state
        /\ out = (set_Feasible (fst (IsRealityFeasible env ctl probed)) probed,
                  EvDial a :: EvHandshake a c
                  :: snd (IsRealityFeasible env ctl probed))
        /\ TLSVersion probed = getTLSVersionString (Version state)
        /\ ALPN probed = NegotiatedProtocol state
        /\ Curve probed = "X25519").
Proof.
  cbv zeta.
  destruct (DialTimeout env (addressOf env cfg ip)) as [err|] eqn:Hd.
  { left. exists err. split; [reflexivity|].
    unfold scanSingleIP. fold (addressOf env cfg ip).
    unfold bind, tell, ret. rewrite Hd. destruct geo; cbn; auto. }
  right.
  destruct (Handshake env (addressOf env cfg ip) (probeTLSConfig origin))
    as [state|err] eqn:Hh.
  - right.
    destruct (scanSingleIP_handshake_ok env cfg ctl ip origin geo state Hd Hh)
      as (probed & Hs & _ & Hv & Ha & Hc & _).
    exists state, probed. repeat split; auto.
  - left. exists err. split; [reflexivity|]. split; [reflexivity|].
    unfold scanSingleIP. fold (addressOf env cfg ip).
    rewrite probeTLSConfig_built.
    unfold bind, tell, ret. rewrite Hd, Hh. destruct geo; cbn; auto.
Qed.

(** The verdict and the trace of [IsRealityFeasible] once the checks that
    need no network have passed. *)
Lemma IsRealityFeasible_after_local (env : Env) (ctl : ScanControl)
    (sr : ScanResult) :
  localChecks sr = true ->
  let d := CertDomain sr in
  let cf := fst (DetectCloudflareCDN env d) in
  let bad := String.eqb d "" || isSome (ParseIP env d)
             || negb (ValidateDomainName d) in
  IsRealityFeasible env ctl sr
  = if cf then (false, firstn 2 (skipn 2 (probeEvents "" (probeTLSConfig "") d)))
    else if negb (PingDomain ctl)
         then (true, firstn 2 (skipn 2 (probeEvents "" (probeTLSConfig "") d)))
    else if bad
         then (false, firstn 3 (skipn 2 (probeEvents "" (probeTLSConfig "") d)))
    else (PingRun env d, skipn 2 (probeEvents "" (probeTLSConfig "") d)).
Proof.
  intros Hl. cbv zeta. rewrite IsRealityFeasible_unfold, Hl. cbn [negb].
  pose proof (DetectCloudflareCDN_unfold env (CertDomain sr)) as Ht.
  apply localChecks_true in Hl. destruct Hl as (_ & _ & _ & Hd & _).
  apply String.eqb_neq in Hd. rewrite Hd in Ht.
  destruct (DetectCloudflareCDN env (CertDomain sr)) as [cf t1].
  cbn [fst snd] in *. subst t1.
  destruct cf; [reflexivity|].
  rewrite CheckDomainConnectivity_unfold.
  destruct (PingDomain ctl); [|reflexivity]. cbn [negb].
  rewrite Hd. cbn [orb].
  destruct (isSome (ParseIP env (CertDomain sr)) ||
            negb (ValidateDomainName (CertDomain sr))); reflexivity.
Qed.

(** X11. The converse of the invariant of the results: [scanSingleIP]
    marks a result feasible exactly when the connection and the handshake
    succeed, TLS 1.3 (0x0304) and h2 were negotiated, the certificate gives
    a domain and an issuer, the Cloudflare test is negative and, with ping
    enabled, the certificate domain is a valid name, is no IP address, and
    answers the ping. *)
Theorem scanSingleIP_feasible_exactly
    (env : Env) (cfg : Config) (ctl : ScanControl) (ip : net.IP)
    (origin : string) (geo : Geo) :
  let r := fst (scanSingleIP env cfg ctl ip origin geo) in
  Feasible r = true <->
  DialTimeout env (addressOf env cfg ip) = None
  /\ (exists state,
        Handshake env (addressOf env cfg ip) (probeTLSConfig origin) = Ok state
        /\ Version state = 772 /\ NegotiatedProtocol state = "h2")
  /\ CertDomain r <> "" /\ CertIssuer r <> ""
  /\ fst (DetectCloudflareCDN env (CertDomain r)) = false
  /\ (PingDomain ctl = true ->
      ValidateDomainName (CertDomain r) = true
      /\ ParseIP env (CertDomain r) = None
      /\ PingRun env (CertDomain r) = true).
Proof.
  cbv zeta.
  destruct (scanSingleIP_cases env cfg ctl ip origin geo)
    as [(err & Hd & _ & Hf & _)
       |[(err & Hd & Hh & _ & Hf & _)
        |(state & probed & Hd & Hh & Hs & Hv & Ha & Hc)]].
  - rewrite Hf, Hd. split; [discriminate|]. intros [H _]. discriminate.
  - rewrite Hf, Hh. split; [discriminate|].
    intros (_ & (state & H & _) & _). discriminate.
  - rewrite Hs, Hd, Hh. cbn [fst set_Feasible Feasible CertDomain CertIssuer].
    destruct (localChecks probed) eqn:Hl.
    + rewrite (IsRealityFeasible_after_local env ctl probed Hl). cbv zeta.
      apply localChecks_true in Hl. destruct Hl as (Ht & Hal & _ & Hcd & Hci).
      rewrite Hv in Ht. apply getTLSVersionString_13 in Ht. rewrite Ha in Hal.
      assert (Hst : exists s, Ok state = Ok s /\ Version s = 772
                              /\ NegotiatedProtocol s = "h2")
        by (exists state; auto).
      destruct (fst (DetectCloudflareCDN env (CertDomain probed))).
      { cbn [fst]. split; [discriminate|]. intros (_ & _ & _ & _ & H & _).
        discriminate. }
      destruct (PingDomain ctl); cbn [negb fst].
      2:{ split; [|reflexivity]. intros _. repeat split; auto; discriminate. }
      apply String.eqb_neq in Hcd. rewrite Hcd. cbn [orb].
      rewrite <- String.eqb_neq, Hcd.
      destruct (ParseIP env (CertDomain probed)) as [parsed|]; cbn [isSome orb].
      { cbn [fst]. split; [discriminate|].
        intros (_ & _ & _ & _ & _ & H). destruct (H eq_refl) as (_ & H1 & _).
        discriminate. }
      destruct (ValidateDomainName (CertDomain probed)); cbn [negb fst].
      * split.
        -- intros Hp. repeat split; auto.
        -- intros (_ & _ & _ & _ & _ & H). apply H. reflexivity.
      * split; [discriminate|].
        intros (_ & _ & _ & _ & _ & H). destruct (H eq_refl) as (H1 & _).
        discriminate.
    + rewrite IsRealityFeasible_unfold, Hl. cbn [negb fst].
      split; [discriminate|].
      intros (_ & (s & [= <-] & Hver & Hh2) & Hcd & Hci & _).
      assert (localChecks probed = true); [|congruence].
      apply localChecks_true. rewrite Hv, Ha, Hver, Hh2. auto.
Qed.

Lemma scanSingleIP_feasible_exactly_witness :
  Feasible (fst (scanSingleIP (frontEnv ["example.com"] (Err "timeout"))
                   config pingOn (ip4 192 0 2 7) "192.0.2.7" None)) = true.
Proof.
  apply (proj2 (scanSingleIP_feasible_exactly
                  (frontEnv ["example.com"] (Err "timeout"))
                  config pingOn (ip4 192 0 2 7) "192.0.2.7" None)).
  split; [reflexivity|]. split.
  - exists (sampleState ["example.com"]). repeat split; reflexivity.
  - repeat split; try discriminate; vm_compute; reflexivity.
Defined.

(** X12. The calls one probe makes to the outside come in a fixed order,
    each at most once: [net.DialTimeout], the handshake, the Cloudflare
    test with its [client.Get], the connectivity check, the [ping] command.
    A probe stops after the connection attempt, after the handshake, after
    the HTTP request, after the connectivity check or after the ping, and
    nowhere else. *)
Theorem scanSingleIP_network_actions
    (env : Env) (cfg : Config) (ctl : ScanControl) (ip : net.IP)
    (origin : string) (geo : Geo) :
  let out := scanSingleIP env cfg ctl ip origin geo in
  exists n,
    In n [1; 2; 4; 5; 6]%nat
    /\ snd out = firstn n (probeEvents (addressOf env cfg ip)
                             (probeTLSConfig origin) (CertDomain (fst out))).
Proof.
  cbv zeta.
  destruct (scanSingleIP_cases env cfg ctl ip origin geo)
    as [(err & Hd & Ht & _)
       |[(err & Hd & Hh & Ht & _)
        |(state & probed & Hd & Hh & Hs & _)]].
  - exists 1%nat. rewrite Ht. split; [cbn; auto|reflexivity].
  - exists 2%nat. rewrite Ht. split; [cbn; auto|reflexivity].
  - rewrite Hs. cbn [fst snd set_Feasible CertDomain].
    destruct (localChecks probed) eqn:Hl.
    + rewrite (IsRealityFeasible_after_local env ctl probed Hl). cbv zeta.
      destruct (fst (DetectCloudflareCDN env (CertDomain probed))).
      { exists 4%nat. split; [cbn; auto|reflexivity]. }
      destruct (negb (PingDomain ctl)).
      { exists 4%nat. split; [cbn; auto|reflexivity]. }
      destruct (_ || _).
      { exists 5%nat. split; [cbn; auto 6|reflexivity]. }
      exists 6%nat. split; [cbn; auto 6|reflexivity].
    + rewrite IsRealityFeasible_unfold, Hl. cbn [negb snd].
      exists 2%nat. split; [cbn; auto|reflexivity].
Qed.

Ltac in_events H :=
  cbn in H; repeat (destruct H as [H|H]); try discriminate; try contradiction.

(** X13. The two side channels of a probe are guarded.  The HTTP request
    of the Cloudflare test is made only after the checks that need no
    network have passed, and to the trace path of the certificate domain.
    [ping] is run only with ping enabled, after a negative Cloudflare test,
    on the certificate domain, and only when that string matches the domain
    grammar and does not parse as an IP address; its answer is then the
    verdict. *)
Theorem scanSingleIP_side_channels_guarded
    (env : Env) (cfg : Config) (ctl : ScanControl) (ip : net.IP)
    (origin : string) (geo : Geo) :
  let r := fst (scanSingleIP env cfg ctl ip origin geo) in
  let trace := snd (scanSingleIP env cfg ctl ip origin geo) in
  (forall url,
     In (EvHTTPGet url) trace ->
     localChecks r = true
     /\ url = ("https://" ++ CertDomain r ++ "/cdn-cgi/trace")%string)
  /\ (forall d,
        In (EvPing d) trace ->
        d = CertDomain r
        /\ localChecks r = true
        /\ fst (DetectCloudflareCDN env d) = false
        /\ PingDomain ctl = true
        /\ ValidateDomainName d = true
        /\ ParseIP env d = None
        /\ Feasible r = PingRun env d).
Proof.
  cbv zeta.
  destruct (scanSingleIP_cases env cfg ctl ip origin geo)
    as [(err & Hd & Ht & _)
       |[(err & Hd & Hh & Ht & _)
        |(state & probed & Hd & Hh & Hs & _)]].
  - rewrite Ht. split; intros x Hin; in_events Hin.
  - rewrite Ht. split; intros x Hin; in_events Hin.
  - rewrite Hs. cbn [fst snd].
    assert (Hlc : localChecks (set_Feasible (fst (IsRealityFeasible env ctl probed))
                                 probed) = localChecks probed) by reflexivity.
    rewrite Hlc. cbn [set_Feasible CertDomain Feasible].
    destruct (localChecks probed) eqn:Hl.
    2:{ rewrite IsRealityFeasible_unfold, Hl. cbn [negb snd].
        split; intros x Hin; in_events Hin. }
    rewrite (IsRealityFeasible_after_local env ctl probed Hl). cbv zeta.
    apply localChecks_true in Hl. destruct Hl as (_ & _ & _ & Hcd & _).
    apply String.eqb_neq in Hcd. rewrite Hcd. cbn [orb].
    destruct (fst (DetectCloudflareCDN env (CertDomain probed))) eqn:Hcf.
    { split; intros x Hin; in_events Hin. injection Hin as <-. auto. }
    destruct (PingDomain ctl); cbn [negb].
    2:{ split; intros x Hin; in_events Hin. injection Hin as <-. auto. }
    destruct (ParseIP env (CertDomain probed)) as [parsed|] eqn:Hp;
      cbn [isSome orb].
    { split; intros x Hin; in_events Hin. injection Hin as <-. auto. }
    destruct (ValidateDomainName (CertDomain probed)) eqn:Hv; cbn [negb].
    2:{ split; intros x Hin; in_events Hin. injection Hin as <-. auto. }
    split; intros x Hin; in_events Hin; injection Hin as <-; auto.
    cbn [fst]. repeat split; auto.
Qed.

Lemma scanSingleIP_side_channels_guarded_witness :
  In (EvPing "example.com")
     (snd (scanSingleIP (frontEnv ["example.com"] (Err "timeout"))
             config pingOn (ip4 192 0 2 7) "192.0.2.7" None))
  /\ ValidateDomainName "example.com" = true.
Proof.
  assert (Hin :
    In (EvPing "example.com")
       (snd (scanSingleIP (frontEnv ["example.com"] (Err "timeout"))
               config pingOn (ip4 192 0 2 7) "192.0.2.7" None)))
    by (vm_compute; auto 8).
  split; [exact Hin|].
  exact (proj1 (proj2 (proj2 (proj2 (proj2
    (proj2 (scanSingleIP_side_channels_guarded
              (frontEnv ["example.com"] (Err "timeout"))
              config pingOn (ip4 192 0 2 7) "192.0.2.7" None) _ Hin)))))).
Defined.

(** ** [ValidateRealityTarget] *)

(** X14. [ValidateRealityTarget] accepts a result exactly when the list of
    issues is empty, which is exactly when the five checks of
    [IsRealityFeasible] that need no network pass; it reports one issue per
    failed check, so at most five; and every result [IsRealityFeasible]
    accepts is accepted. *)
Theorem ValidateRealityTarget_is_the_local_checks (result : ScanResult) :
  fst (ValidateRealityTarget result) = localChecks result
  /\ (fst (ValidateRealityTarget result) = true
      <-> snd (ValidateRealityTarget result) = [])
  /\ len (snd (ValidateRealityTarget result))
     = len (filter negb
              [String.eqb (TLSVersion result) "TLS 1.3";
               String.eqb (ALPN result) "h2";
               String.eqb (Curve result) "X25519";
               negb (String.eqb (CertDomain result) "");
               negb (String.eqb (CertIssuer result) "")])
  /\ (forall env ctl,
        fst (IsRealityFeasible env ctl result) = true ->
        fst (ValidateRealityTarget result) = true).
Proof.
  assert (H1 : fst (ValidateRealityTarget result) = localChecks result
               /\ (fst (ValidateRealityTarget result) = true
                   <-> snd (ValidateRealityTarget result) = [])
               /\ len (snd (ValidateRealityTarget result))
                  = len (filter negb
                      [String.eqb (TLSVersion result) "TLS 1.3";
                       String.eqb (ALPN result) "h2";
                       String.eqb (Curve result) "X25519";
                       negb (String.eqb (CertDomain result) "");
                       negb (String.eqb (CertIssuer result) "")])).
  { unfold ValidateRealityTarget, localChecks, RequiredTLSVersion,
      RequiredALPN, RequiredCurve.
    destruct (String.eqb (TLSVersion result) "TLS 1.3");
      destruct (String.eqb (ALPN result) "h2");
      destruct (String.eqb (Curve result) "X25519");
      destruct (String.eqb (CertDomain result) "");
      destruct (String.eqb (CertIssuer result) "");
      cbn [negb andb app fst snd filter];
      (split; [reflexivity|]); (split; [|reflexivity]);
      split; try discriminate; reflexivity. }
  destruct H1 as (Ha & Hb & Hc). repeat split; try tauto.
  intros env ctl Hf. rewrite Ha.
  rewrite IsRealityFeasible_unfold in Hf.
  destruct (localChecks result); [reflexivity|discriminate].
Qed.

(** ** [getTLSVersionString] *)

Lemma hexVal_hexDigit (d : Z) : 0 <= d < 16 -> hexVal (hexDigit d) = d.
Proof.
  intros H.
  assert (Hd : d = 0 \/ d = 1 \/ d = 2 \/ d = 3 \/ d = 4 \/ d = 5 \/ d = 6
               \/ d = 7 \/ d = 8 \/ d = 9 \/ d = 10 \/ d = 11 \/ d = 12
               \/ d = 13 \/ d = 14 \/ d = 15) by lia.
  repeat (destruct Hd as [->|Hd]; [reflexivity|]). subst d. reflexivity.
Qed.

Lemma hex04_inj (v w : Z) :
  0 <= v < 65536 -> 0 <= w < 65536 -> hex04 v = hex04 w -> v = w.
Proof.
  intros Hv Hw H. unfold hex04 in H.
  injection H as H3 H2 H1 H0.
  apply (f_equal hexVal) in H3, H2, H1, H0.
  rewrite !hexVal_hexDigit in H3, H2, H1, H0
    by (apply Z.mod_pos_bound; lia).
  Z.to_euclidean_division_equations. lia.
Qed.

(** X15. [getTLSVersionString] names a negotiated version without loss:
    two 16-bit versions that get the same string are the same version, and
    the string is the required one, TLS 1.3, for the version 0x0304 only. *)
Theorem getTLSVersionString_distinguishes (v w : Z) :
  0 <= v < 65536 -> 0 <= w < 65536 ->
  (getTLSVersionString v = getTLSVersionString w -> v = w)
  /\ (getTLSVersionString v = RequiredTLSVersion <-> v = 772).
Proof.
  intros Hv Hw. split.
  - unfold getTLSVersionString.
    destruct (Z.eqb_spec v 769); destruct (Z.eqb_spec w 769);
      [lia|..];
      destruct (Z.eqb_spec v 770); destruct (Z.eqb_spec w 770);
      try lia; try discriminate;
      destruct (Z.eqb_spec v 771); destruct (Z.eqb_spec w 771);
      try lia; try discriminate;
      destruct (Z.eqb_spec v 772); destruct (Z.eqb_spec w 772);
      try lia; try discriminate.
    cbn [String.append]. intros [= H].
    apply hex04_inj; try assumption.
    unfold hex04 in *. cbn [String.append] in H. congruence.
  - unfold RequiredTLSVersion. unfold getTLSVersionString. split.
    + destruct (Z.eqb_spec v 769); [discriminate|].
      destruct (Z.eqb_spec v 770); [discriminate|].
      destruct (Z.eqb_spec v 771); [discriminate|].
      destruct (Z.eqb_spec v 772); [auto|]. discriminate.
    + intros ->. reflexivity.
Qed.

Lemma getTLSVersionString_distinguishes_witness :
  0 <= 771 < 65536
  /\ (getTLSVersionString 771 = getTLSVersionString 772 -> 771 = 772)
  /\ (getTLSVersionString 772 = RequiredTLSVersion <-> 772 = 772).
Proof.
  assert (H1 : 0 <= 771 < 65536) by lia.
  assert (H2 : 0 <= 772 < 65536) by lia.
  split; [exact H1|]. split.
  - exact (proj1 (getTLSVersionString_distinguishes 771 772 H1 H2)).
  - exact (proj2 (getTLSVersionString_distinguishes 772 772 H2 H2)).
Defined.

(** ** [truncateString] *)

Lemma substring_length (s : string) (n : nat) :
  (n <= String.length s)%nat -> String.length (String.substring 0 n s) = n.
Proof.
  revert s. induction n as [|n IH]; intros s H.
  - destruct s; reflexivity.
  - destruct s as [|c s]; cbn [String.length] in H; [lia|].
    cbn [String.substring String.length]. rewrite IH; [reflexivity|lia].
Qed.

(** X16. [truncateString] with a bound of at least 3, as every call of the
    program has, returns at most [maxLen] bytes: the string itself when it
    fits, and otherwise its first [maxLen - 3] bytes followed by three
    dots, [maxLen] bytes in all.  With a bound below 3 it panics on every
    string longer than the bound. *)
Theorem truncateString_fits (s : string) (maxLen : Z) :
  (3 <= maxLen ->
   exists t,
     truncateString s maxLen = Some t
     /\ Z.of_nat (String.length t) <= maxLen
     /\ (Z.of_nat (String.length s) <= maxLen -> t = s)
     /\ (maxLen < Z.of_nat (String.length s) ->
         Z.of_nat (String.length t) = maxLen
         /\ t = (String.substring 0 (Z.to_nat (maxLen - 3)) s ++ "...")%string))
  /\ (maxLen < 3 -> maxLen < Z.of_nat (String.length s) ->
      truncateString s maxLen = None).
Proof.
  unfold truncateString. split.
  - intros H3.
    destruct (Z.leb_spec (Z.of_nat (String.length s)) maxLen) as [Hle|Hgt].
    + exists s. repeat split; auto; lia.
    + destruct (Z.ltb_spec (maxLen - 3) 0) as [Hneg|_]; [lia|].
      eexists. split; [reflexivity|].
      assert (Hlen : Z.of_nat (String.length
                (String.substring 0 (Z.to_nat (maxLen - 3)) s ++ "...")%string)
              = maxLen).
      { rewrite length_append, substring_length by lia.
        cbn [String.length]. lia. }
      repeat split; auto; lia.
  - intros H3 Hgt.
    destruct (Z.leb_spec (Z.of_nat (String.length s)) maxLen) as [Hle|_];
      [lia|].
    destruct (Z.ltb_spec (maxLen - 3) 0) as [_|Hge]; [reflexivity|lia].
Qed.

Lemma truncateString_fits_witness :
  truncateString "www.example.com" 10 = Some "www.exa..."
  /\ truncateString "abc" 2 = None.
Proof.
  split.
  - destruct (proj1 (truncateString_fits "www.example.com" 10) ltac:(lia))
      as (t & Ht & _ & _ & Hcut).
    rewrite Ht. f_equal. apply Hcut. cbn. lia.
  - apply (proj2 (truncateString_fits "abc" 2)); cbn; lia.
Defined.

(** ** [ProcessResults] on a failing disk and with error results *)

Section Accounting.

Variable ctl : ScanControl.
Variable sink : Sink.

(** Once the writer holds an error, every [WriteResult] returns it: the
    loop takes all the results, counts them in [totalCount] and nowhere
    else, and the file stays as it is. *)
Lemma ProcessResults_frozen (chan : list ScanResult) :
  forall rp e,
    writerErr (csvWriter rp) = Some e ->
    ProcessResults ctl sink rp chan
    = (mkResultProcessor (csvWriter rp) (totalCount rp + len chan)
         (feasibleCount rp) (errorCount rp) (totalTargets rp), []).
Proof.
  induction chan as [|r chan IH]; intros rp e He.
  - cbn [ProcessResults]. destruct rp as [cw t f c tt].
    cbn [csvWriter totalCount feasibleCount errorCount totalTargets].
    unfold len. cbn [List.length]. rewrite Z.add_0_r. reflexivity.
  - cbn [ProcessResults]. unfold WriteResult. rewrite He.
    rewrite (IH _ e) by exact He.
    cbn [csvWriter totalCount feasibleCount errorCount totalTargets].
    rewrite len_cons. do 2 f_equal. lia.
Qed.

Lemma countFeasible_nil : countFeasible [] = 0.
Proof. reflexivity. Qed.

Lemma countFeasible_one (r : ScanResult) :
  countFeasible [r] = if String.eqb (Error r) "" && Feasible r then 1 else 0.
Proof. rewrite countFeasible_cons, countFeasible_nil. lia. Qed.

Lemma withError_cons (r : ScanResult) (rs : list ScanResult) :
  len (withError (r :: rs))
  = (if String.eqb (Error r) "" then 0 else 1) + len (withError rs).
Proof.
  unfold withError. cbn [filter].
  destruct (String.eqb (Error r) ""); cbn [negb].
  - lia.
  - rewrite len_cons. lia.
Qed.

Lemma withError_nil : len (withError []) = 0.
Proof. reflexivity. Qed.

Lemma booksBalance_step (rp rp1 rp' : ResultProcessor) (r : ScanResult)
    (taken : list ScanResult) :
  WriteError sink (totalCount rp + 1) = None ->
  totalCount rp1 = totalCount rp + 1 ->
  file (csvWriter rp1)
  = (file (csvWriter rp)
     ++ csv.Write (recordOf r (Now sink (totalCount rp + 1))))%string ->
  errorCount rp1 = errorCount rp + len (withError [r]) ->
  feasibleCount rp1 = feasibleCount rp + countFeasible [r] ->
  booksBalance sink rp1 rp' taken ->
  booksBalance sink rp rp' (r :: taken).
Proof.
  intros Hwe Ht Hf He Hfc [H|H].
  - left. destruct H as (Hno & Hw' & Hfile & Herr & Hfeas).
    split; [|split; [exact Hw'|split; [|split]]].
    + intros j Hj. rewrite len_cons in Hj.
      destruct (Z.eq_dec j (totalCount rp + 1)) as [->|Hne];
        [exact Hwe|apply Hno; lia].
    + rewrite Hfile, Hf, Ht. cbn [writtenRecords map appendAll].
      rewrite append_assoc. reflexivity.
    + rewrite Herr, He, !withError_cons, withError_nil. lia.
    + rewrite Hfeas, Hfc, !countFeasible_cons, countFeasible_nil. lia.
  - right.
    destruct H as (before & x & after & e & f & Htk & Hfd & Hno & Hfail
                   & Hw' & Hfile & Herr & Hfeas).
    exists (r :: before), x, after, e, f.
    split; [rewrite Htk; reflexivity|].
    split; [rewrite len_cons; lia|].
    split.
    { intros j Hj.
      destruct (Z.eq_dec j (totalCount rp + 1)) as [->|Hne];
        [exact Hwe|apply Hno; lia]. }
    split; [exact Hfail|]. split; [exact Hw'|].
    split.
    { rewrite Hfile, Hf, Ht. cbn [writtenRecords map appendAll].
      rewrite !append_assoc. reflexivity. }
    split.
    + rewrite Herr, He, !withError_cons, withError_nil. lia.
    + rewrite Hfeas, Hfc, !countFeasible_cons, countFeasible_nil. lia.
Qed.

Lemma booksBalance_failure (rp rp' : ResultProcessor) (r : ScanResult)
    (after : list ScanResult) (e : string) :
  WriteError sink (totalCount rp + 1) = Some e ->
  writerErr (csvWriter rp') = Some e ->
  file (csvWriter rp')
  = (file (csvWriter rp)
     ++ String.substring 0 (Landed sink (totalCount rp + 1))
          (csv.Write (recordOf r (Now sink (totalCount rp + 1)))))%string ->
  errorCount rp'
  = errorCount rp
    + (if failureReturned sink (totalCount rp + 1) r then 0
       else len (withError [r])) ->
  feasibleCount rp'
  = feasibleCount rp
    + (if failureReturned sink (totalCount rp + 1) r then 0
       else countFeasible [r]) ->
  booksBalance sink rp rp' (r :: after).
Proof.
  intros Hwe Hw' Hfile Herr Hfeas. right.
  exists [], r, after, e, (totalCount rp + 1).
  split; [reflexivity|].
  split; [unfold len; cbn [List.length]; lia|].
  split; [intros j Hj; lia|].
  split; [exact Hwe|]. split; [exact Hw'|].
  split; [rewrite Hfile; reflexivity|].
  split.
  - rewrite Herr, withError_nil. lia.
  - rewrite Hfeas, countFeasible_nil. lia.
Qed.

Lemma ProcessResults_accounts (chan : list ScanResult) :
  forall rp,
    writerErr (csvWriter rp) = None ->
    exists taken,
      chan = taken ++ snd (ProcessResults ctl sink rp chan)
      /\ totalCount (fst (ProcessResults ctl sink rp chan))
         = totalCount rp + len taken
      /\ totalTargets (fst (ProcessResults ctl sink rp chan)) = totalTargets rp
      /\ (snd (ProcessResults ctl sink rp chan) <> [] ->
          StopOnMax ctl = true
          /\ MaxResults ctl
             <= feasibleCount (fst (ProcessResults ctl sink rp chan)))
      /\ booksBalance sink rp (fst (ProcessResults ctl sink rp chan)) taken.
Proof.
  induction chan as [|r chan IH]; intros rp Hw.
  - exists []. cbn [ProcessResults fst snd app].
    split; [reflexivity|]. split; [unfold len; cbn [List.length]; lia|].
    split; [reflexivity|]. split; [intros H; contradiction|].
    left. split; [intros j Hj; unfold len in Hj; cbn [List.length] in Hj; lia|].
    split; [exact Hw|]. cbn [writtenRecords map appendAll].
    rewrite append_nil_r, withError_nil, countFeasible_nil.
    repeat split; lia.
  - cbn [ProcessResults].
    destruct (WriteError sink (totalCount rp + 1)) as [e|] eqn:Hwe.
    + (* the disk fails at this result *)
      unfold WriteResult. rewrite Hw.
      fold (failureReturned sink (totalCount rp + 1) r).
      pose proof (withError_cons r []) as Hwc.
      pose proof (countFeasible_one r) as Hcf.
      rewrite withError_nil in Hwc.
      destruct (failureReturned sink (totalCount rp + 1) r) eqn:Hrep.
      * rewrite (ProcessResults_frozen _ _ e) by reflexivity.
        cbn [fst snd csvWriter totalCount feasibleCount errorCount
             totalTargets].
        exists (r :: chan). rewrite app_nil_r, len_cons.
        split; [reflexivity|]. split; [lia|]. split; [reflexivity|].
        split; [intros H; contradiction|].
        apply (booksBalance_failure _ _ _ _ e); try assumption;
          cbn [csvWriter writerErr file errorCount feasibleCount];
          rewrite ?Hrep; try reflexivity; lia.
      * destruct (String.eqb (Error r) "") eqn:Her; cbn [negb].
        2:{ rewrite (ProcessResults_frozen _ _ e) by reflexivity.
            cbn [fst snd csvWriter totalCount feasibleCount errorCount
                 totalTargets].
            exists (r :: chan). rewrite app_nil_r, len_cons.
            split; [reflexivity|]. split; [lia|]. split; [reflexivity|].
            split; [intros H; contradiction|].
            apply (booksBalance_failure _ _ _ _ e); try assumption;
              cbn [csvWriter writerErr file errorCount feasibleCount];
              rewrite ?Hrep; cbn [andb] in *; try reflexivity; lia. }
        destruct (Feasible r) eqn:Hfe; cbn [andb] in Hcf.
        -- cbn [feasibleCount].
           destruct (StopOnMax ctl
                     && (feasibleCount rp + 1 >=? MaxResults ctl)) eqn:Hstop.
           ++ exists [r]. cbn [fst snd app csvWriter totalCount feasibleCount
                               errorCount totalTargets].
              apply andb_true_iff in Hstop as [Hs Hq].
              rewrite Z.geb_leb in Hq. apply Z.leb_le in Hq.
              split; [reflexivity|].
              split; [unfold len; cbn [List.length]; lia|].
              split; [reflexivity|]. split; [intros _; split; [exact Hs|lia]|].
              apply (booksBalance_failure _ _ _ _ e); try assumption;
                cbn [csvWriter writerErr file errorCount feasibleCount];
                rewrite ?Hrep; try reflexivity; lia.
           ++ rewrite (ProcessResults_frozen _ _ e) by reflexivity.
              cbn [fst snd csvWriter totalCount feasibleCount errorCount
                   totalTargets].
              exists (r :: chan). rewrite app_nil_r, len_cons.
              split; [reflexivity|]. split; [lia|]. split; [reflexivity|].
              split; [intros H; contradiction|].
              apply (booksBalance_failure _ _ _ _ e); try assumption;
                cbn [csvWriter writerErr file errorCount feasibleCount];
                rewrite ?Hrep; try reflexivity; lia.
        -- rewrite (ProcessResults_frozen _ _ e) by reflexivity.
           cbn [fst snd csvWriter totalCount feasibleCount errorCount
                totalTargets].
           exists (r :: chan). rewrite app_nil_r, len_cons.
           split; [reflexivity|]. split; [lia|]. split; [reflexivity|].
           split; [intros H; contradiction|].
           apply (booksBalance_failure _ _ _ _ e); try assumption;
             cbn [csvWriter writerErr file errorCount feasibleCount];
             rewrite ?Hrep; try reflexivity; lia.
    + (* the record reaches the file *)
      rewrite (WriteResult_ok _ _ _ _ _ Hw).
      pose proof (withError_cons r []) as Hwc.
      pose proof (countFeasible_one r) as Hcf.
      rewrite withError_nil in Hwc.
      destruct (String.eqb (Error r) "") eqn:Her; cbn [negb].
      2:{ match goal with
          | |- context [ProcessResults ctl sink ?q chan] =>
              destruct (IH q) as (taken & Hc & Ht & Htt & Hl & Hb);
                [reflexivity|]
          end.
          cbn [totalCount totalTargets] in Ht, Htt.
          exists (r :: taken). cbn [app]. rewrite <- Hc, len_cons.
          split; [reflexivity|]. split; [lia|]. split; [exact Htt|].
          split; [exact Hl|].
          eapply booksBalance_step; [exact Hwe| | | | |exact Hb];
            cbn [csvWriter totalCount file errorCount feasibleCount];
            cbn [andb] in *; try reflexivity; lia. }
      destruct (Feasible r) eqn:Hfe; cbn [andb] in Hcf.
      * cbn [feasibleCount].
        destruct (StopOnMax ctl
                  && (feasibleCount rp + 1 >=? MaxResults ctl)) eqn:Hstop.
        -- exists [r]. cbn [fst snd app csvWriter totalCount feasibleCount
                            errorCount totalTargets].
           apply andb_true_iff in Hstop as [Hs Hq].
           rewrite Z.geb_leb in Hq. apply Z.leb_le in Hq.
           split; [reflexivity|].
           split; [unfold len; cbn [List.length]; lia|].
           split; [reflexivity|]. split; [intros _; split; [exact Hs|lia]|].
           left. cbn [csvWriter writerErr file errorCount feasibleCount
                      totalCount writtenRecords map appendAll].
           rewrite append_nil_r.
           split.
           { intros j Hj. unfold len in Hj. cbn [List.length] in Hj.
             replace j with (totalCount rp + 1) by lia. exact Hwe. }
           repeat split; lia.
        -- match goal with
           | |- context [ProcessResults ctl sink ?q chan] =>
               destruct (IH q) as (taken & Hc & Ht & Htt & Hl & Hb);
                 [reflexivity|]
           end.
           cbn [totalCount totalTargets] in Ht, Htt.
           exists (r :: taken). cbn [app]. rewrite <- Hc, len_cons.
           split; [reflexivity|]. split; [lia|]. split; [exact Htt|].
           split; [exact Hl|].
           eapply booksBalance_step; [exact Hwe| | | | |exact Hb];
             cbn [csvWriter totalCount file errorCount feasibleCount];
             try reflexivity; lia.
      * match goal with
        | |- context [ProcessResults ctl sink ?q chan] =>
            destruct (IH q) as (taken & Hc & Ht & Htt & Hl & Hb);
              [reflexivity|]
        end.
        cbn [totalCount totalTargets] in Ht, Htt.
        exists (r :: taken). cbn [app]. rewrite <- Hc, len_cons.
        split; [reflexivity|]. split; [lia|]. split; [exact Htt|].
        split; [exact Hl|].
        eapply booksBalance_step; [exact Hwe| | | | |exact Hb];
          cbn [csvWriter totalCount file errorCount feasibleCount];
          try reflexivity; lia.
Qed.

Lemma ProcessResults_within_quota (chan : list ScanResult) :
  forall rp,
    StopOnMax ctl = true ->
    feasibleCount rp < MaxResults ctl ->
    feasibleCount (fst (ProcessResults ctl sink rp chan)) <= MaxResults ctl.
Proof.
  induction chan as [|r chan IH]; intros rp Hs Hq.
  - cbn [ProcessResults fst]. lia.
  - cbn [ProcessResults].
    destruct (WriteResult (csvWriter rp) r (Now sink (totalCount rp + 1))
                (WriteError sink (totalCount rp + 1))
                (Landed sink (totalCount rp + 1))
                (DuringWrite sink (totalCount rp + 1))) as [cw [err|]].
    + apply IH; [exact Hs|exact Hq].
    + destruct (negb (String.eqb (Error r) "")).
      { apply IH; [exact Hs|exact Hq]. }
      destruct (Feasible r).
      2:{ apply IH; [exact Hs|exact Hq]. }
      cbn [feasibleCount]. rewrite Hs. cbn [andb].
      rewrite Z.geb_leb.
      destruct (Z.leb_spec (MaxResults ctl) (feasibleCount rp + 1)) as [Hle|Hlt].
      * cbn [fst feasibleCount]. lia.
      * apply IH; [exact Hs|exact Hlt].
Qed.

Lemma ProcessResults_drains (chan : list ScanResult) :
  forall rp,
    StopOnMax ctl = false ->
    snd (ProcessResults ctl sink rp chan) = []
    /\ totalCount (fst (ProcessResults ctl sink rp chan))
       = totalCount rp + len chan.
Proof.
  induction chan as [|r chan IH]; intros rp Hs.
  - cbn [ProcessResults fst snd]. unfold len. cbn [List.length].
    split; [reflexivity|lia].
  - cbn [ProcessResults]. rewrite len_cons.
    destruct (WriteResult (csvWriter rp) r (Now sink (totalCount rp + 1))
                (WriteError sink (totalCount rp + 1))
                (Landed sink (totalCount rp + 1))
                (DuringWrite sink (totalCount rp + 1))) as [cw [err|]].
    + match goal with
      | |- context [ProcessResults ctl sink ?q chan] =>
          destruct (IH q Hs) as [H1 H2]
      end.
      cbn [totalCount] in H2. split; [exact H1|lia].
    + rewrite Hs. cbn [andb].
      destruct (negb (String.eqb (Error r) "")); [|destruct (Feasible r)];
        match goal with
        | |- context [ProcessResults ctl sink ?q chan] =>
            destruct (IH q Hs) as [H1 H2]
        end;
        cbn [totalCount] in H2; (split; [exact H1|lia]).
Qed.

End Accounting.

(** X17. The books of [ProcessResults] on a writer in working order,
    whatever the results and wherever the disk fails: the results taken
    from the channel are a prefix of it and [totalCount] counts all of
    them; results are left in the channel only when [StopOnMax] is set and
    the quota is reached; and the file and the counters stand as
    [booksBalance] says.  While the disk takes the records, the file grows
    by the record of every result taken and the counters count them.  When
    the disk fails first at the record of a result, the writer keeps the
    error, the file ends with the bytes of that record that had landed, and
    no later result is written or counted in [errorCount] or
    [feasibleCount]; the result at the failure is still counted there, and
    can end the run at the quota, unless [writer.Write] itself returned
    the failure: the error of [Flush] is not looked at. *)
Theorem ProcessResults_books_balance
    (ctl : ScanControl) (sink : Sink) (rp : ResultProcessor)
    (resultChan : list ScanResult) :
  writerErr (csvWriter rp) = None ->
  let rp' := fst (ProcessResults ctl sink rp resultChan) in
  let left := snd (ProcessResults ctl sink rp resultChan) in
  exists taken,
    resultChan = taken ++ left
    /\ totalCount rp' = totalCount rp + len taken
    /\ totalTargets rp' = totalTargets rp
    /\ (left <> [] ->
        StopOnMax ctl = true /\ MaxResults ctl <= feasibleCount rp')
    /\ booksBalance sink rp rp' taken.
Proof.
  intros Hw. cbv zeta. apply ProcessResults_accounts. exact Hw.
Qed.

Lemma ProcessResults_books_balance_witness :
  exists taken,
    [goodResult; goodResult; goodResult]
    = taken
      ++ snd (ProcessResults (mkScanControl 5 true false) faultySink
                (NewResultProcessorWithProgress 3)
                [goodResult; goodResult; goodResult])
    /\ booksBalance faultySink (NewResultProcessorWithProgress 3)
         (fst (ProcessResults (mkScanControl 5 true false) faultySink
                 (NewResultProcessorWithProgress 3)
                 [goodResult; goodResult; goodResult]))
         taken.
Proof.
  destruct (ProcessResults_books_balance (mkScanControl 5 true false)
              faultySink (NewResultProcessorWithProgress 3)
              [goodResult; goodResult; goodResult] eq_refl)
    as (taken & Hc & _ & _ & _ & Hb).
  exists taken. split; [exact Hc|exact Hb].
Defined.

(** A disk that fails while the second of three feasible results is
    flushed: [WriteResult] returns nil for it and it is counted as feasible,
    the third is taken and counted in the total only, and the file holds
    the header, the first record and the 20 bytes of the second that had
    landed. *)
Example ProcessResults_on_a_failing_disk :
  let rp' :=
    fst (ProcessResults (mkScanControl 5 true false) faultySink
           (NewResultProcessorWithProgress 3)
           [goodResult; goodResult; goodResult]) in
  totalCount rp' = 3
  /\ feasibleCount rp' = 2
  /\ errorCount rp' = 0
  /\ writerErr (csvWriter rp') = Some "disk full"
  /\ file (csvWriter rp')
     = (fileOf [recordOf goodResult "2024-05-01 12:00:00"]
        ++ String.substring 0 20
             (csv.Write (recordOf goodResult "2024-05-01 12:00:00")))%string.
Proof. vm_compute. repeat split. Qed.

(** X18. [ProcessResults] drains the channel when [StopOnMax] is not set,
    and with [StopOnMax] set and a quota of at least one it never counts
    more feasible results than the quota, whichever writes fail. *)
Theorem ProcessResults_drains_or_keeps_quota
    (ctl : ScanControl) (sink : Sink) (targets : Z)
    (resultChan : list ScanResult) :
  let run :=
    ProcessResults ctl sink (NewResultProcessorWithProgress targets)
      resultChan in
  (StopOnMax ctl = false ->
   snd run = [] /\ totalCount (fst run) = len resultChan)
  /\ (StopOnMax ctl = true -> 1 <= MaxResults ctl ->
      feasibleCount (fst run) <= MaxResults ctl).
Proof.
  cbv zeta. split.
  - intros Hs.
    destruct (ProcessResults_drains ctl sink resultChan
                (NewResultProcessorWithProgress targets) Hs) as [H1 H2].
    split; [exact H1|]. rewrite H2. cbn [NewResultProcessorWithProgress
      totalCount]. lia.
  - intros Hs HM. apply ProcessResults_within_quota; [exact Hs|].
    cbn [NewResultProcessorWithProgress feasibleCount]. lia.
Qed.

Lemma ProcessResults_drains_or_keeps_quota_witness :
  feasibleCount
    (fst (ProcessResults (mkScanControl 1 true false) faultySink
            (NewResultProcessorWithProgress 3)
            [goodResult; goodResult; goodResult]))
  <= 1.
Proof.
  apply (proj2 (ProcessResults_drains_or_keeps_quota
                  (mkScanControl 1 true false) faultySink 3
                  [goodResult; goodResult; goodResult]));
    [reflexivity|cbn; lia].
Defined.

(** ** [ParseHost] and [Iterate] *)

(** X19. [ParseHost] decides in the order IP address, CIDR, domain name, on
    the trimmed string, which becomes the origin: a string [net.ParseIP]
    accepts is an IP target with that address, also when it matches the
    domain grammar; a CIDR target is no IP address; a Domain target is
    neither and matches the grammar; and [ParseHost] fails exactly when all
    three fail. *)
Theorem ParseHost_classifies (env : Env) (hostStr : string) :
  let s := str.TrimSpace hostStr in
  (forall h,
     ParseHost env hostStr = Ok h ->
     Host_Origin h = s
     /\ match Host_Type h with
        | HostTypeIP => ParseIP env s = Some (Host_IP h)
        | HostTypeCIDR =>
            Host_IP h = [] /\ ParseIP env s = None /\ ParseCIDR env s <> None
        | HostTypeDomain =>
            Host_IP h = [] /\ ParseIP env s = None /\ ParseCIDR env s = None
            /\ ValidateDomainName s = true
        end)
  /\ (forall ip, ParseIP env s = Some ip ->
                 ParseHost env hostStr = Ok (mkHost ip s HostTypeIP))
  /\ ((exists err, ParseHost env hostStr = Err err)
      <-> ParseIP env s = None /\ ParseCIDR env s = None
          /\ ValidateDomainName s = false).
Proof.
  cbv zeta. unfold ParseHost.
  destruct (ParseIP env (str.TrimSpace hostStr)) as [ip|].
  { split; [|split].
    - intros h [= <-]. cbn. auto.
    - intros ip' [= <-]. reflexivity.
    - split; [intros [err H]; discriminate|intros [H _]; discriminate]. }
  destruct (ParseCIDR env (str.TrimSpace hostStr)) as [ipNet|].
  { split; [|split].
    - intros h [= <-]. cbn. repeat split; auto. discriminate.
    - discriminate.
    - split; [intros [err H]; discriminate|intros (_ & H & _); discriminate]. }
  destruct (ValidateDomainName (str.TrimSpace hostStr)).
  - split; [|split].
    + intros h [= <-]. cbn. auto.
    + discriminate.
    + split; [intros [err H]; discriminate|intros (_ & _ & H); discriminate].
  - split; [|split].
    + discriminate.
    + discriminate.
    + split; [auto|]. intros _. eexists. reflexivity.
Qed.

Lemma ParseHost_classifies_witness :
  ParseIP quadEnv (str.TrimSpace " 1.2.3.4 ")
  = Some (net.v4InV6Prefix ++ ip4 1 2 3 4)
  /\ ValidateDomainName (str.TrimSpace " 1.2.3.4 ") = true
  /\ ParseHost quadEnv " 1.2.3.4 "
     = Ok (mkHost (net.v4InV6Prefix ++ ip4 1 2 3 4) "1.2.3.4" HostTypeIP).
Proof.
  split; [reflexivity|]. split; [vm_compute; reflexivity|].
  exact (proj1 (proj2 (ParseHost_classifies quadEnv " 1.2.3.4 "))
           (net.v4InV6Prefix ++ ip4 1 2 3 4) eq_refl).
Defined.

Lemma expandCIDR_hosts (env : Env) (host : Host) :
  Forall (fun h =>
            Host_Type h = HostTypeIP /\ Host_Origin h = Host_Origin host
            /\ exists ipNet,
                 ParseCIDR env (Host_Origin host) = Some ipNet
                 /\ net.Contains ipNet (Host_IP h) = true)
         (fst (expandCIDR env host)).
Proof.
  unfold expandCIDR.
  destruct (ParseCIDR env (Host_Origin host)) as [ipNet|]; [|constructor].
  eapply Forall_impl;
    [|exact (cidrLoop_emitted (Host_Origin host) ipNet cidrFuel
               (net.NetIP ipNet) 0)].
  cbv beta. intros h (Hc & Ho & Ht). repeat split; auto.
  exists ipNet. auto.
Qed.

Lemma iterateLines_hosts (env : Env) (scanned : list string) :
  Forall (fun h => exists text, In text scanned /\ sentFor env text h)
         (fst (iterateLines env scanned)).
Proof.
  induction scanned as [|text rest IH]; cbn [iterateLines].
  - constructor.
  - assert (IH' : Forall (fun h => exists t, In t (text :: rest)
                                             /\ sentFor env t h)
                         (fst (iterateLines env rest))).
    { eapply Forall_impl; [|exact IH]. cbv beta.
      intros h (t & Hin & Hs). exists t. split; [right; exact Hin|exact Hs]. }
    clear IH.
    destruct (String.eqb (str.TrimSpace text) "") eqn:He; cbn [orb];
      [exact IH'|].
    destruct (str.HasPrefix (str.TrimSpace text) "#") eqn:Hp; [exact IH'|].
    apply String.eqb_neq in He.
    unfold ParseHost.
    destruct (ParseIP env (str.TrimSpace (str.TrimSpace text))) as [ip|] eqn:Hip.
    { cbn [Host_Type].
      destruct (iterateLines env rest) as [more e]. cbn [fst] in *.
      constructor; [|exact IH'].
      exists text. split; [left; reflexivity|].
      unfold sentFor. cbn [Host_Origin Host_Type Host_IP].
      split; [exact He|]. split; [exact Hp|]. split; [reflexivity|].
      left. auto. }
    destruct (ParseCIDR env (str.TrimSpace (str.TrimSpace text)))
      as [ipNet|] eqn:Hcidr.
    { cbn [Host_Type].
      pose proof (expandCIDR_hosts env
                    (mkHost [] (str.TrimSpace (str.TrimSpace text))
                       HostTypeCIDR)) as Hx.
      assert (Hx' : Forall (fun h => exists t, In t (text :: rest)
                                               /\ sentFor env t h)
                      (fst (expandCIDR env
                              (mkHost [] (str.TrimSpace (str.TrimSpace text))
                                 HostTypeCIDR)))).
      { eapply Forall_impl; [|exact Hx]. cbv beta. cbn [Host_Origin].
        intros h (Ht & Ho & net0 & Hn & Hc).
        exists text. split; [left; reflexivity|].
        unfold sentFor. rewrite Ho.
        split; [exact He|]. split; [exact Hp|]. split; [reflexivity|].
        right. left. split; [exact Ht|]. split; [exact Hip|].
        exists net0. auto. }
      destruct (expandCIDR env _) as [hosts [| |]]; cbn [fst] in *;
        try exact Hx'.
      destruct (iterateLines env rest) as [more e]. cbn [fst] in *.
      apply Forall_app. auto. }
    destruct (ValidateDomainName (str.TrimSpace (str.TrimSpace text))) eqn:Hv.
    + cbn [Host_Type].
      destruct (iterateLines env rest) as [more e]. cbn [fst] in *.
      constructor; [|exact IH'].
      exists text. split; [left; reflexivity|].
      unfold sentFor. cbn [Host_Origin Host_Type Host_IP].
      split; [exact He|]. split; [exact Hp|]. split; [reflexivity|].
      right. right. auto.
    + exact IH'.
Qed.

(** X20. Every host [Iterate] sends comes from a line of the input that is,
    once trimmed, neither empty nor a comment, and carries the trimmed line
    as its origin.  It is an IP target whose address is the parsed origin,
    an IP target inside the network its CIDR origin denotes, or a Domain
    target whose origin matches the domain grammar and is neither an IP
    address nor a CIDR.  No host of type CIDR is ever sent, so the branch
    of [ScanTLS] for unsupported host types is not reached from a list. *)
Theorem Iterate_sends_scannable_hosts (env : Env) (content : string) :
  Forall (fun h =>
            (exists text,
               In text (bufio.ScanLines content) /\ sentFor env text h)
            /\ Host_Type h <> HostTypeCIDR)
         (fst (Iterate env content)).
Proof.
  unfold Iterate.
  eapply Forall_impl; [|exact (iterateLines_hosts env (bufio.ScanLines content))].
  cbv beta. intros h (text & Hin & Hs). split.
  - exists text. auto.
  - destruct Hs as (_ & _ & _ & [[Ht _]|[[Ht _]|[Ht _]]]);
      rewrite Ht; discriminate.
Qed.

(** ** Masks as integers *)

Lemma testbit_split (k a x n : Z) :
  0 <= k -> 0 <= x < 2 ^ k -> 0 <= n ->
  Z.testbit (a * 2 ^ k + x) n
  = if n <? k then Z.testbit x n else Z.testbit a (n - k).
Proof.
  intros Hk Hx Hn.
  assert (Hp : 0 < 2 ^ k) by (apply Z.pow_pos_nonneg; lia).
  destruct (Z.ltb_spec n k) as [Hlt|Hge].
  - rewrite <- (Z.mod_pow2_bits_low (a * 2 ^ k + x) k n Hlt).
    rewrite Z.add_comm, Z.mod_add by lia.
    rewrite Z.mod_small by lia. reflexivity.
  - replace n with ((n - k) + k) at 1 by lia.
    rewrite <- Z.div_pow2_bits by lia.
    rewrite Z.div_add_l by lia. rewrite (Z.div_small x) by lia.
    rewrite Z.add_0_r. reflexivity.
Qed.

Lemma land_bound (k x y : Z) :
  0 <= k -> 0 <= x < 2 ^ k -> 0 <= Z.land x y < 2 ^ k.
Proof.
  intros Hk Hx.
  assert (E : Z.land x y = Z.land x y mod 2 ^ k).
  { rewrite <- (Z.land_ones (Z.land x y) k Hk).
    rewrite <- Z.land_assoc, (Z.land_comm y), Z.land_assoc.
    rewrite (Z.land_ones x k Hk), Z.mod_small by lia. reflexivity. }
  rewrite E. apply Z.mod_pos_bound. lia.
Qed.

Lemma land_split (k a m x y : Z) :
  0 <= k -> 0 <= x < 2 ^ k -> 0 <= y < 2 ^ k ->
  Z.land (a * 2 ^ k + x) (m * 2 ^ k + y)
  = Z.land a m * 2 ^ k + Z.land x y.
Proof.
  intros Hk Hx Hy. apply Z.bits_inj'. intros n Hn.
  pose proof (land_bound k x y Hk Hx) as Hb.
  rewrite Z.land_spec, !testbit_split by assumption.
  destruct (n <? k); rewrite Z.land_spec; reflexivity.
Qed.

Lemma land_mask (b h x : Z) :
  0 <= h <= b -> 0 <= x < 2 ^ b ->
  Z.land x (2 ^ b - 2 ^ h) = x - x mod 2 ^ h.
Proof.
  intros Hh Hx.
  assert (Hp : 0 < 2 ^ h) by (apply Z.pow_pos_nonneg; lia).
  assert (E1 : 2 ^ b - 2 ^ h = Z.ones (b - h) * 2 ^ h + 0).
  { rewrite Z.ones_equiv. replace b with ((b - h) + h) at 1 by lia.
    rewrite Z.pow_add_r by lia. lia. }
  assert (E2 : x - x mod 2 ^ h = x / 2 ^ h * 2 ^ h + 0).
  { pose proof (Z.div_mod x (2 ^ h) ltac:(lia)). lia. }
  rewrite E1, E2.
  apply Z.bits_inj'. intros n Hn.
  rewrite Z.land_spec, !testbit_split by lia.
  destruct (Z.ltb_spec n h) as [Hlt|Hge].
  - rewrite Z.testbit_0_l. apply andb_false_r.
  - rewrite Z.div_pow2_bits by lia. replace (n - h + h) with n by lia.
    rewrite Z.testbit_ones_nonneg by lia.
    destruct (Z.ltb_spec (n - h) (b - h)) as [Hin|Hout];
      [apply andb_true_r|].
    rewrite andb_false_r. symmetry.
    destruct (Z.eq_dec x 0) as [->|Hx0]; [apply Z.testbit_0_l|].
    apply Z.bits_above_log2; [lia|].
    apply Z.lt_le_trans with b; [apply Z.log2_lt_pow2; lia|lia].
Qed.

Lemma pow256 (n : Z) : 0 <= n -> 256 ^ n = 2 ^ (8 * n).
Proof. intros Hn. rewrite Z.pow_mul_r by lia. reflexivity. Qed.

Lemma SetBytes_andBytes (ip m : list byte) :
  List.length ip = List.length m ->
  len (andBytes ip m) = len ip
  /\ big.SetBytes (andBytes ip m) = Z.land (big.SetBytes ip) (big.SetBytes m).
Proof.
  revert m. induction ip as [|a ip IH]; intros [|k m] Hlen;
    try discriminate; cbn [andBytes].
  - split; reflexivity.
  - injection Hlen as Hlen. destruct (IH m Hlen) as [Hl Hv].
    assert (Hlm : len m = len ip) by (unfold len; lia).
    split; [rewrite !len_cons; lia|].
    rewrite !SetBytes_cons, Hl, Hlm, Hv, byte_val_of.
    pose proof (len_nonneg ip) as Hn.
    pose proof (byte_val_range a) as Ha.
    pose proof (land_bound 8 (big.byte_val a) (big.byte_val k) ltac:(lia)
                  ltac:(change (2 ^ 8) with 256; lia)) as Hb.
    change (2 ^ 8) with 256 in Hb. rewrite Z.mod_small by lia.
    pose proof (SetBytes_range ip) as Hr1.
    pose proof (SetBytes_range m) as Hr2. rewrite Hlm in Hr2.
    rewrite pow256 in * by lia.
    rewrite land_split by lia. reflexivity.
Qed.

Lemma maskBytes_zero (l : nat) :
  len (netmask.maskBytes l 0) = Z.of_nat l
  /\ big.SetBytes (netmask.maskBytes l 0) = 0.
Proof.
  induction l as [|l [IHl IHv]]; [split; reflexivity|].
  cbn [netmask.maskBytes]. change (0 >=? 8) with false. cbv iota.
  rewrite len_cons, SetBytes_cons, IHl, IHv. split; [lia|].
  change (big.byte_val (big.byte_of (255 - Z.shiftr 255 0))) with 0. lia.
Qed.

Lemma partial_mask_byte (n : Z) :
  0 <= n < 8 ->
  big.byte_val (big.byte_of (255 - Z.shiftr 255 n)) = 256 - 2 ^ (8 - n).
Proof.
  intros H.
  assert (Hn : n = 0 \/ n = 1 \/ n = 2 \/ n = 3 \/ n = 4 \/ n = 5 \/ n = 6
               \/ n = 7) by lia.
  repeat (destruct Hn as [->|Hn]; [reflexivity|]). subst n. reflexivity.
Qed.

Lemma SetBytes_maskBytes (l : nat) :
  forall n,
    0 <= n <= 8 * Z.of_nat l ->
    len (netmask.maskBytes l n) = Z.of_nat l
    /\ big.SetBytes (netmask.maskBytes l n)
       = 2 ^ (8 * Z.of_nat l) - 2 ^ (8 * Z.of_nat l - n).
Proof.
  induction l as [|l IH]; intros n Hn.
  - assert (n = 0) by lia. subst n. split; reflexivity.
  - cbn [netmask.maskBytes]. rewrite Z.geb_leb.
    destruct (Z.leb_spec 8 n) as [Hge|Hlt].
    + destruct (IH (n - 8) ltac:(lia)) as [Hl Hv].
      rewrite len_cons, SetBytes_cons, Hl, Hv. split; [lia|].
      change (big.byte_val xff) with 255.
      rewrite pow256 by lia.
      replace (8 * Z.of_nat (S l)) with (8 + 8 * Z.of_nat l) by lia.
      replace (8 + 8 * Z.of_nat l - n) with (8 * Z.of_nat l - (n - 8)) by lia.
      rewrite (Z.pow_add_r 2 8) by lia. change (2 ^ 8) with 256. lia.
    + destruct (maskBytes_zero l) as [Hl Hv].
      rewrite len_cons, SetBytes_cons, Hl, Hv, partial_mask_byte by lia.
      split; [lia|].
      rewrite pow256 by lia.
      replace (8 * Z.of_nat (S l)) with (8 + 8 * Z.of_nat l) by lia.
      replace (8 + 8 * Z.of_nat l - n) with ((8 - n) + 8 * Z.of_nat l) by lia.
      rewrite (Z.pow_add_r 2 8), (Z.pow_add_r 2 (8 - n)) by lia.
      change (2 ^ 8) with 256. lia.
Qed.

Lemma CIDRMask_32 (ones : Z) :
  0 <= ones <= 32 ->
  exists m,
    netmask.CIDRMask ones 32 = Some m
    /\ List.length m = 4%nat
    /\ big.SetBytes m = 2 ^ 32 - 2 ^ (32 - ones).
Proof.
  intros H. unfold netmask.CIDRMask.
  change (negb (32 =? 32) && negb (32 =? 128)) with false. cbv iota.
  destruct (Z.ltb_spec ones 0) as [Hneg|_]; [lia|].
  destruct (Z.gtb_spec ones 32) as [Hbig|_]; [lia|]. cbn [orb].
  change (Z.to_nat (32 / 8)) with 4%nat.
  destruct (SetBytes_maskBytes 4 ones ltac:(lia)) as [Hl Hv].
  eexists. split; [reflexivity|]. split; [unfold len in Hl; lia|exact Hv].
Qed.

Lemma isValidMask_true (mask : string) :
  isValidMask mask = true <->
  exists maskStr bits,
    mask = String "/" maskStr
    /\ conv.Atoi maskStr = Some bits /\ 0 <= bits <= 32.
Proof.
  unfold isValidMask, str.HasPrefix. split.
  - destruct mask as [|c maskStr]; [discriminate|].
    cbn [String.prefix].
    destruct (Ascii.ascii_dec "/" c) as [<-|Hc]; [|discriminate].
    replace (String.prefix "" maskStr) with true
      by (destruct maskStr; reflexivity).
    cbn [negb].
    destruct (conv.Atoi maskStr) as [bits|] eqn:Ha; [|discriminate].
    intros Hb. apply andb_true_iff in Hb as [H0 H32].
    rewrite Z.geb_leb in H0. apply Z.leb_le in H0. apply Z.leb_le in H32.
    exists maskStr, bits. repeat split; auto.
  - intros (maskStr & bits & -> & Ha & Hb).
    cbn [String.prefix].
    destruct (Ascii.ascii_dec "/" "/") as [_|Hc]; [|contradiction].
    replace (String.prefix "" maskStr) with true
      by (destruct maskStr; reflexivity).
    rewrite Ha. cbn [negb]. rewrite Z.geb_leb.
    apply andb_true_iff. split; apply Z.leb_le; lia.
Qed.

(** X21. [calculateNetworkAddress] behind its guard.  For a mask
    [isValidMask] accepts, a slash followed by a number of bits from 0 to
    32, it never panics; for an IPv4 address the network address it prints
    is the address rounded down, as a 32-bit integer, to a multiple of
    2^(32 - bits).  Without the guard a bit count outside 0..32 makes it
    panic on the nil mask. *)
Theorem calculateNetworkAddress_rounds_down
    (env : Env) (ipStr mask : string) :
  (isValidMask mask = true ->
   calculateNetworkAddress env ipStr mask <> None
   /\ forall ip ip4,
        ParseIP env ipStr = Some ip -> net.To4 ip = Some ip4 ->
        exists maskStr bits network,
          mask = String "/" maskStr
          /\ conv.Atoi maskStr = Some bits /\ 0 <= bits <= 32
          /\ calculateNetworkAddress env ipStr mask
             = Some (Ok (IPString env network))
          /\ len network = 4
          /\ big.SetBytes network
             = big.SetBytes ip4 - big.SetBytes ip4 mod 2 ^ (32 - bits))
  /\ (forall ip ip4 c maskStr bits,
        ParseIP env ipStr = Some ip -> net.To4 ip = Some ip4 ->
        mask = String c maskStr -> conv.Atoi maskStr = Some bits ->
        bits < 0 \/ 32 < bits ->
        calculateNetworkAddress env ipStr mask = None).
Proof.
  split.
  - intros Hv. apply isValidMask_true in Hv.
    destruct Hv as (maskStr & bits & -> & Ha & Hb).
    destruct (CIDRMask_32 bits Hb) as (m & Hm & Hlm & Hvm).
    unfold calculateNetworkAddress. split.
    + destruct (ParseIP env ipStr) as [ip|]; [|discriminate].
      destruct (net.To4 ip) as [ip4|]; [|discriminate].
      rewrite Ha, Hm. discriminate.
    + intros ip ip4 Hp H4. rewrite Hp, H4, Ha, Hm.
      exists maskStr, bits, (andBytes ip4 m).
      pose proof (To4_len ip ip4 H4) as Hl4.
      assert (Hlen : List.length ip4 = List.length m)
        by (unfold len in Hl4; lia).
      destruct (SetBytes_andBytes ip4 m Hlen) as [Hl Hval].
      repeat split; try assumption; try lia.
      rewrite Hval, Hvm.
      pose proof (SetBytes_range ip4) as Hr. rewrite Hl4 in Hr.
      change (256 ^ 4) with (2 ^ 32) in Hr.
      apply land_mask; lia.
  - intros ip ip4 c maskStr bits Hp H4 -> Ha Hb.
    unfold calculateNetworkAddress. rewrite Hp, H4, Ha.
    unfold netmask.CIDRMask.
    change (negb (32 =? 32) && negb (32 =? 128)) with false. cbv iota.
    destruct (Z.ltb_spec bits 0) as [Hneg|Hpos]; [reflexivity|].
    destruct (Z.gtb_spec bits 32) as [Hbig|Hsmall]; [reflexivity|lia].
Qed.

Lemma calculateNetworkAddress_rounds_down_witness :
  isValidMask "/20" = true
  /\ calculateNetworkAddress quadEnv "1.2.3.4" "/20" <> None.
Proof.
  split; [reflexivity|].
  exact (proj1 (proj1 (calculateNetworkAddress_rounds_down quadEnv "1.2.3.4"
                         "/20") eq_refl)).
Defined.

(** ** The number of targets [scanAddress] announces for a CIDR *)

Lemma sameMasked_andBytes (nn : list byte) :
  forall m ip,
    List.length nn = List.length ip -> List.length m = List.length ip ->
    net.sameMasked nn m ip = true <-> andBytes nn m = andBytes ip m.
Proof.
  induction nn as [|a nn IH]; intros [|k m] [|b ip] Hn Hm;
    try discriminate; cbn [net.sameMasked andBytes].
  - split; reflexivity.
  - injection Hn as Hn. injection Hm as Hm. specialize (IH m ip Hn Hm).
    unfold net.maskByte. rewrite andb_true_iff, Z.eqb_eq, IH.
    pose proof (byte_val_range a) as Ha. pose proof (byte_val_range b) as Hb.
    pose proof (land_bound 8 (big.byte_val a) (big.byte_val k) ltac:(lia)
                  ltac:(change (2 ^ 8) with 256; lia)) as Ba.
    pose proof (land_bound 8 (big.byte_val b) (big.byte_val k) ltac:(lia)
                  ltac:(change (2 ^ 8) with 256; lia)) as Bb.
    change (2 ^ 8) with 256 in Ba, Bb.
    split.
    + intros [-> ->]. reflexivity.
    + intros [= Hh Ht]. split; [|exact Ht].
      apply (f_equal big.byte_val) in Hh.
      rewrite !byte_val_of, !Z.mod_small in Hh by lia. exact Hh.
Qed.

(** [Contains] for an IPv4 network with a mask of [ones] one bits, in
    integers: the address and the network address agree above the host
    bits. *)
Lemma Contains_IPv4 (ipNet : net.IPNet) (ones : Z) (ip : net.IP) :
  0 <= ones <= 32 ->
  netmask.CIDRMask ones 32 = Some (net.Mask ipNet) ->
  len (net.NetIP ipNet) = 4 -> len ip = 4 ->
  net.Contains ipNet ip = true
  <-> big.SetBytes ip - big.SetBytes ip mod 2 ^ (32 - ones)
      = big.SetBytes (net.NetIP ipNet)
        - big.SetBytes (net.NetIP ipNet) mod 2 ^ (32 - ones).
Proof.
  intros Ho Hmask Hn Hi.
  destruct (CIDRMask_32 ones Ho) as (m & Hm & Hlm & Hvm).
  rewrite Hmask in Hm. injection Hm as Hm.
  unfold net.Contains, net.networkNumberAndMask, net.To4,
    net.IPv4len, net.IPv6len.
  assert (Hl : len m = 4) by (unfold len; lia).
  rewrite Hm.
  repeat (progress (rewrite ?Hn, ?Hi, ?Hl; change (4 =? 4) with true;
                    cbv iota)).
  assert (L1 : List.length (net.NetIP ipNet) = List.length ip)
    by (unfold len in *; lia).
  assert (L2 : List.length m = List.length ip) by (unfold len in *; lia).
  rewrite (sameMasked_andBytes _ m ip L1 L2).
  destruct (SetBytes_andBytes (net.NetIP ipNet) m ltac:(lia)) as [La Va].
  destruct (SetBytes_andBytes ip m ltac:(lia)) as [Lb Vb].
  pose proof (SetBytes_range ip) as Ri. rewrite Hi in Ri.
  pose proof (SetBytes_range (net.NetIP ipNet)) as Rn. rewrite Hn in Rn.
  change (256 ^ 4) with (2 ^ 32) in Ri, Rn.
  rewrite Hvm in Va, Vb.
  rewrite land_mask in Va, Vb by lia.
  split.
  - intros E. rewrite <- Va, <- Vb, E. reflexivity.
  - intros E. apply SetBytes_inj; [unfold len in *; lia|].
    rewrite Va, Vb. symmetry. exact E.
Qed.

Section Count.

Variables (origin : string) (ipNet : net.IPNet) (ones : Z).
Hypothesis Hones : 0 <= ones <= 32.
Hypothesis Hmask : netmask.CIDRMask ones 32 = Some (net.Mask ipNet).
Hypothesis Hnet : len (net.NetIP ipNet) = 4.

(** The addresses from the network address to the end of its block. *)
Let room : Z :=
  2 ^ (32 - ones) - big.SetBytes (net.NetIP ipNet) mod 2 ^ (32 - ones).

Lemma room_fits :
  1 <= room /\ big.SetBytes (net.NetIP ipNet) + room <= 2 ^ 32.
Proof.
  unfold room.
  pose proof (SetBytes_range (net.NetIP ipNet)) as Rn. rewrite Hnet in Rn.
  change (256 ^ 4) with (2 ^ 32) in Rn.
  set (N := big.SetBytes (net.NetIP ipNet)) in *.
  set (h := 32 - ones).
  assert (Hp : 0 < 2 ^ h) by (apply Z.pow_pos_nonneg; lia).
  pose proof (Z.mod_pos_bound N (2 ^ h) Hp) as Hm.
  split; [lia|].
  assert (E : 2 ^ 32 = 2 ^ ones * 2 ^ h)
    by (rewrite <- Z.pow_add_r by lia; f_equal; lia).
  pose proof (Z.div_mod N (2 ^ h) ltac:(lia)) as Hd.
  assert (Hq : N / 2 ^ h < 2 ^ ones).
  { apply Z.div_lt_upper_bound; [lia|]. rewrite Z.mul_comm, <- E. lia. }
  nia.
Qed.

Lemma Contains_in_room (ip : net.IP) (c : Z) :
  len ip = 4 -> 0 <= c ->
  big.SetBytes ip = big.SetBytes (net.NetIP ipNet) + c ->
  net.Contains ipNet ip = true <-> c < room.
Proof.
  intros Hi Hc Hv.
  rewrite (Contains_IPv4 ipNet ones ip Hones Hmask Hnet Hi), Hv.
  unfold room.
  set (N := big.SetBytes (net.NetIP ipNet)) in *.
  set (h := 32 - ones).
  assert (Hp : 0 < 2 ^ h) by (apply Z.pow_pos_nonneg; lia).
  pose proof (Z.mod_pos_bound N (2 ^ h) Hp) as Hm.
  pose proof (Z.mod_pos_bound (N + c) (2 ^ h) Hp) as Hm'.
  pose proof (Z.div_mod N (2 ^ h) ltac:(lia)) as Hd.
  pose proof (Z.div_mod (N + c) (2 ^ h) ltac:(lia)) as Hd'.
  split.
  - intros E. lia.
  - intros Hlt.
    assert (Hq : (N + c) / 2 ^ h = N / 2 ^ h).
    { symmetry. apply (Z.div_unique (N + c) (2 ^ h) (N / 2 ^ h)
                         (N mod 2 ^ h + c)); lia. }
    rewrite Hq in Hd'. lia.
Qed.

Lemma cidrLoop_length (fuel : nat) :
  forall ip count,
    len ip = 4 ->
    big.SetBytes ip = big.SetBytes (net.NetIP ipNet) + count ->
    0 <= count <= Z.min maxHosts room ->
    maxHosts - count < Z.of_nat fuel ->
    len (fst (cidrLoop fuel origin ipNet ip count))
    = Z.min maxHosts room - count.
Proof.
  pose proof room_fits as [Hr1 Hr2].
  induction fuel as [|fuel IH]; intros ip count Hi Hv Hc Hf;
    [unfold maxHosts in *; lia|].
  cbn [cidrLoop].
  pose proof (Contains_in_room ip count Hi ltac:(lia) Hv) as Hin.
  destruct (net.Contains ipNet ip).
  2:{ cbn [negb fst]. rewrite len_nil.
      assert (~ count < room) by (intros H; apply Hin in H; discriminate).
      lia. }
  cbn [negb]. assert (Hlt : count < room) by (apply Hin; reflexivity).
  rewrite Z.geb_leb.
  destruct (Z.leb_spec maxHosts count) as [Hmax|Hmax];
    [cbn [fst]; rewrite len_nil; lia|].
  destruct (NextIP ip true) as [ip'|] eqn:Hn.
  - apply NextIP_up_value in Hn as [Hv' Hl'].
    assert (Hw : widthOf ip = 4) by (rewrite widthOf_len; auto).
    specialize (IH ip' (count + 1) ltac:(lia) ltac:(lia) ltac:(lia)
                  ltac:(lia)).
    destruct (cidrLoop fuel origin ipNet ip' (count + 1)) as [hosts e].
    cbn [fst] in *. rewrite len_cons, IH. lia.
  - cbn [fst]. rewrite len_cons, len_nil.
    destruct (Z_lt_le_dec (big.SetBytes ip + 1) (256 ^ len ip)) as [Hfit|Hbig].
    + destruct (NextIP_up_fits ip ltac:(auto) Hfit) as (x & Hx & _).
      congruence.
    + rewrite Hi in Hbig. change (256 ^ 4) with (2 ^ 32) in Hbig. lia.
Qed.

End Count.

Lemma Size_IPv4 (ones : Z) (m : net.IPMask) :
  0 <= ones <= 32 ->
  netmask.CIDRMask ones 32 = Some m ->
  netmask.Size m = (ones, 32).
Proof.
  intros Ho. unfold netmask.CIDRMask.
  change (negb (32 =? 32) && negb (32 =? 128)) with false. cbv iota.
  destruct (Z.ltb_spec ones 0) as [Hneg|_]; [lia|].
  destruct (Z.gtb_spec ones 32) as [Hbig|_]; [lia|]. cbn [orb].
  change (Z.to_nat (32 / 8)) with 4%nat. intros [= <-].
  assert (Hn : ones = 0 \/ ones = 1 \/ ones = 2 \/ ones = 3 \/ ones = 4
               \/ ones = 5 \/ ones = 6 \/ ones = 7 \/ ones = 8 \/ ones = 9
               \/ ones = 10 \/ ones = 11 \/ ones = 12 \/ ones = 13
               \/ ones = 14 \/ ones = 15 \/ ones = 16 \/ ones = 17
               \/ ones = 18 \/ ones = 19 \/ ones = 20 \/ ones = 21
               \/ ones = 22 \/ ones = 23 \/ ones = 24 \/ ones = 25
               \/ ones = 26 \/ ones = 27 \/ ones = 28 \/ ones = 29
               \/ ones = 30 \/ ones = 31 \/ ones = 32) by lia.
  repeat (destruct Hn as [->|Hn]; [reflexivity|]). subst ones. reflexivity.
Qed.

(** X22. For an IPv4 network whose mask has [ones] one bits, [IterateCIDR]
    sends as many hosts as there are addresses from the network address to
    the end of its block of 2^(32 - ones) addresses, at most 65 536.  When
    the network address has no host bit set, as in a result of
    [net.ParseCIDR], that is the number of targets [scanAddress] announces:
    2^(32 - ones), or 65 536 for more than 16 host bits. *)
Theorem IterateCIDR_sends_the_announced_number
    (env : Env) (cidr : string) (ipNet : net.IPNet) (ones : Z) :
  ParseCIDR env cidr = Some ipNet ->
  0 <= ones <= 32 ->
  netmask.CIDRMask ones 32 = Some (net.Mask ipNet) ->
  len (net.NetIP ipNet) = 4 ->
  len (fst (IterateCIDR env cidr))
  = Z.min 65536
      (2 ^ (32 - ones) - big.SetBytes (net.NetIP ipNet) mod 2 ^ (32 - ones))
  /\ (big.SetBytes (net.NetIP ipNet) mod 2 ^ (32 - ones) = 0 ->
      len (fst (IterateCIDR env cidr)) = totalTargetsOf ipNet).
Proof.
  intros Hp Ho Hm Hn.
  assert (Hlen : len (fst (IterateCIDR env cidr))
                 = Z.min 65536
                     (2 ^ (32 - ones)
                      - big.SetBytes (net.NetIP ipNet) mod 2 ^ (32 - ones))).
  { unfold IterateCIDR. rewrite Hp.
    pose proof (room_fits ipNet ones Ho Hn) as [Hr1 Hr2].
    rewrite (cidrLoop_length cidr ipNet ones Ho Hm Hn cidrFuel
               (net.NetIP ipNet) 0 Hn ltac:(lia)).
    - unfold maxHosts. lia.
    - unfold maxHosts. lia.
    - unfold cidrFuel, maxHosts. lia. }
  split; [exact Hlen|].
  intros Ha. rewrite Hlen, Ha, Z.sub_0_r.
  unfold totalTargetsOf. rewrite (Size_IPv4 ones (net.Mask ipNet) Ho Hm).
  rewrite Z.shiftl_1_l.
  destruct (Z.gtb_spec (32 - ones) 16) as [Hbig|Hsmall].
  - assert (2 ^ 16 < 2 ^ (32 - ones)) by (apply Z.pow_lt_mono_r; lia).
    change (2 ^ 16) with 65536 in *. lia.
  - assert (2 ^ (32 - ones) <= 2 ^ 16) by (apply Z.pow_le_mono_r; lia).
    change (2 ^ 16) with 65536 in *. lia.
Qed.

Lemma IterateCIDR_sends_the_announced_number_witness :
  len (fst (IterateCIDR cidrEnv "192.0.2.0/30")) = 4
  /\ totalTargetsOf (net.mkIPNet (ip4 192 0 2 0) (ip4 255 255 255 252)) = 4.
Proof.
  destruct (IterateCIDR_sends_the_announced_number cidrEnv "192.0.2.0/30"
              (net.mkIPNet (ip4 192 0 2 0) (ip4 255 255 255 252)) 30
              eq_refl ltac:(lia) eq_refl eq_refl) as [Hl Ht].
  split; [exact Hl|]. rewrite <- (Ht eq_refl). exact Hl.
Defined.

(** ** The pattern of [ValidateDomainName] *)

Lemma matches_Void (s : string) : ~ matches regexp.Void s.
Proof. intros H. inversion H. Qed.

Lemma matches_Eps (s : string) : matches regexp.Eps s <-> s = "".
Proof.
  split; [intros H; inversion H; reflexivity|intros ->; constructor].
Qed.

Lemma matches_Class (p : ascii -> bool) (s : string) :
  matches (regexp.Class p) s <-> exists c, s = String c "" /\ p c = true.
Proof.
  split.
  - intros H. inversion H; subst. eexists; eauto.
  - intros (c & -> & Hc). constructor. exact Hc.
Qed.

Lemma matches_Seq (a b : regexp.re) (s : string) :
  matches (regexp.Seq a b) s
  <-> exists s1 s2, s = (s1 ++ s2)%string /\ matches a s1 /\ matches b s2.
Proof.
  split.
  - intros H. inversion H; subst. eexists _, _; eauto.
  - intros (s1 & s2 & -> & H1 & H2). constructor; assumption.
Qed.

Lemma matches_Alt (a b : regexp.re) (s : string) :
  matches (regexp.Alt a b) s <-> matches a s \/ matches b s.
Proof.
  split.
  - intros H. inversion H; subst; auto.
  - intros [H|H]; [apply MAltL|apply MAltR]; exact H.
Qed.

Lemma matches_seq (a b : regexp.re) (s : string) :
  matches (regexp.seq a b) s <-> matches (regexp.Seq a b) s.
Proof.
  assert (HV1 : forall x t, ~ matches (regexp.Seq regexp.Void x) t).
  { intros x t H. apply matches_Seq in H as (s1 & s2 & _ & H & _).
    exact (matches_Void _ H). }
  assert (HV2 : forall x t, ~ matches (regexp.Seq x regexp.Void) t).
  { intros x t H. apply matches_Seq in H as (s1 & s2 & _ & _ & H).
    exact (matches_Void _ H). }
  assert (HE1 : forall x t, matches x t <-> matches (regexp.Seq regexp.Eps x) t).
  { intros x t. split.
    - intros H. apply (MSeq regexp.Eps x "" t); [constructor|exact H].
    - intros H. apply matches_Seq in H as (s1 & s2 & -> & H1 & H2).
      apply matches_Eps in H1. subst s1. exact H2. }
  assert (HE2 : forall x t, matches x t <-> matches (regexp.Seq x regexp.Eps) t).
  { intros x t. split.
    - intros H. rewrite <- (append_nil_r t).
      apply MSeq; [exact H|constructor].
    - intros H. apply matches_Seq in H as (s1 & s2 & -> & H1 & H2).
      apply matches_Eps in H2. subst s2. rewrite append_nil_r. exact H1. }
  destruct a; destruct b; cbn [regexp.seq];
    first [ reflexivity
          | apply HE1
          | apply HE2
          | split; intros H; exfalso;
            first [ exact (matches_Void _ H) | exact (HV1 _ _ H)
                  | exact (HV2 _ _ H) ] ].
Qed.

Lemma matches_alt (a b : regexp.re) (s : string) :
  matches (regexp.alt a b) s <-> matches a s \/ matches b s.
Proof.
  assert (HV : forall t, matches regexp.Void t <-> False)
    by (intros t; split; [apply matches_Void|contradiction]).
  destruct a; destruct b; cbn [regexp.alt];
    rewrite ?matches_Alt, ?HV; tauto.
Qed.

Lemma append_empty (s t : string) :
  (s ++ t)%string = "" -> s = "" /\ t = "".
Proof. destruct s; [auto|discriminate]. Qed.

Lemma nullable_spec (r : regexp.re) :
  regexp.nullable r = true <-> matches r "".
Proof.
  induction r as [| |p|a IHa b IHb|a IHa b IHb|a IHa]; cbn [regexp.nullable].
  - split; [discriminate|intros H; inversion H].
  - split; [constructor|reflexivity].
  - split; [discriminate|intros H; inversion H].
  - rewrite andb_true_iff, IHa, IHb, matches_Seq. split.
    + intros [H1 H2]. exists "", "". auto.
    + intros (s1 & s2 & E & H1 & H2). symmetry in E.
      apply append_empty in E as [-> ->]. auto.
  - rewrite orb_true_iff, IHa, IHb, matches_Alt. reflexivity.
  - split; [constructor|reflexivity].
Qed.

Lemma matches_Star_cons (a : regexp.re) (c : ascii) (s : string) :
  matches (regexp.Star a) (String c s) ->
  exists s1 s2,
    s = (s1 ++ s2)%string /\ matches a (String c s1)
    /\ matches (regexp.Star a) s2.
Proof.
  intros H. remember (regexp.Star a) as r eqn:Er.
  remember (String c s) as w eqn:Ew. revert c s Ew.
  induction H as [| | | | | |a' u t Hu _ Ht IHt]; try discriminate.
  injection Er as ->. intros c s Ew.
  destruct u as [|d u].
  - cbn [String.append] in Ew. exact (IHt eq_refl c s Ew).
  - cbn [String.append] in Ew. injection Ew as -> <-.
    exists u, t. auto.
Qed.

Lemma deriv_spec (c : ascii) (r : regexp.re) :
  forall s, matches (regexp.deriv c r) s <-> matches r (String c s).
Proof.
  induction r as [| |p|a IHa b IHb|a IHa b IHb|a IHa]; intros s;
    cbn [regexp.deriv].
  - split; intros H; inversion H.
  - split; intros H; inversion H.
  - destruct (p c) eqn:Hp.
    + rewrite matches_Eps, matches_Class. split.
      * intros ->. exists c. auto.
      * intros (d & [= -> ->] & _). reflexivity.
    + rewrite matches_Class. split.
      * intros H. inversion H.
      * intros (d & [= -> _] & Hd). congruence.
  - rewrite matches_alt, matches_seq, !matches_Seq. split.
    + intros [(s1 & s2 & -> & H1 & H2)|H].
      * exists (String c s1), s2. rewrite <- IHa. auto.
      * destruct (regexp.nullable a) eqn:Hn;
          [|exfalso; exact (matches_Void _ H)].
        exists "", (String c s). rewrite <- IHb, <- nullable_spec. auto.
    + intros (s1 & s2 & E & H1 & H2). destruct s1 as [|d s1].
      * right. cbn [String.append] in E. subst s2.
        apply nullable_spec in H1. rewrite H1. apply IHb. exact H2.
      * left. cbn [String.append] in E. injection E as <- ->.
        exists s1, s2. rewrite IHa. auto.
  - rewrite matches_alt, matches_Alt, IHa, IHb. reflexivity.
  - rewrite matches_seq, matches_Seq. split.
    + intros (s1 & s2 & -> & H1 & H2).
      apply (MStarApp a (String c s1) s2); [apply IHa; exact H1|exact H2].
    + intros H. apply matches_Star_cons in H as (s1 & s2 & -> & H1 & H2).
      exists s1, s2. rewrite IHa. auto.
Qed.

(** The derivative matcher decides the language of the pattern. *)
Lemma MatchString_spec (s : string) :
  forall r, regexp.MatchString r s = true <-> matches r s.
Proof.
  induction s as [|c s IH]; intros r; cbn [regexp.MatchString].
  - apply nullable_spec.
  - rewrite IH. apply deriv_spec.
Qed.

Lemma matches_upto (p : ascii -> bool) (n : nat) :
  forall s,
    matches (regexp.upto n (regexp.Class p)) s
    <-> (String.length s <= n)%nat /\ allChars p s = true.
Proof.
  induction n as [|n IH]; intros s; cbn [regexp.upto].
  - rewrite matches_Eps. split.
    + intros ->. split; [cbn; lia|reflexivity].
    + intros [H _]. destruct s; [reflexivity|cbn in H; lia].
  - unfold regexp.opt. rewrite matches_Alt, matches_Seq, matches_Eps. split.
    + intros [(s1 & s2 & -> & H1 & H2)| ->].
      * apply matches_Class in H1 as (c & -> & Hc).
        apply IH in H2 as [Hl Ha].
        cbn [String.append String.length allChars]. rewrite Hc, Ha.
        split; [lia|reflexivity].
      * split; [cbn; lia|reflexivity].
    + intros [Hl Ha]. destruct s as [|c s]; [right; reflexivity|left].
      cbn [String.length allChars] in *.
      apply andb_true_iff in Ha as [Hc Ha].
      exists (String c ""), s. split; [reflexivity|].
      split; [constructor; exact Hc|apply IH; split; [lia|exact Ha]].
Qed.

Lemma lastChar_snoc (mid : string) :
  forall c d, lastChar c (mid ++ String d "") = d.
Proof.
  induction mid as [|x mid IH]; intros c d; cbn [String.append lastChar];
    [reflexivity|apply IH].
Qed.

Lemma snoc_exists (rest : string) :
  forall c,
    rest <> "" ->
    exists mid, rest = (mid ++ String (lastChar c rest) "")%string.
Proof.
  induction rest as [|x rest IH]; intros c Hne; [contradiction|].
  cbn [lastChar]. destruct rest as [|y rest].
  - exists "". reflexivity.
  - destruct (IH x ltac:(discriminate)) as [mid Hm].
    exists (String x mid). cbn [String.append]. rewrite <- Hm. reflexivity.
Qed.

Lemma allChars_app (p : ascii -> bool) (a b : string) :
  allChars p (a ++ b) = allChars p a && allChars p b.
Proof.
  induction a as [|x a IH]; cbn [String.append allChars]; [reflexivity|].
  rewrite IH, andb_assoc. reflexivity.
Qed.

Lemma alnum_alnumHyphen (c : ascii) : alnum c = true -> alnumHyphen c = true.
Proof. unfold alnumHyphen. intros ->. reflexivity. Qed.

(** The pattern of a label matches the labels. *)
Lemma matches_labelRe (l : string) : matches labelRe l <-> isLabel l = true.
Proof.
  unfold labelRe, regexp.opt.
  rewrite matches_Seq. split.
  - intros (s1 & s2 & -> & H1 & H2).
    apply matches_Class in H1 as (c & -> & Hc).
    apply matches_Alt in H2 as [H2|H2].
    + apply matches_Seq in H2 as (mid & e & -> & Hm & He).
      apply matches_upto in Hm as [Hl Ha].
      apply matches_Class in He as (d & -> & Hd).
      cbn [String.append isLabel].
      rewrite lastChar_snoc, allChars_app, Hc, Hd, Ha.
      cbn [allChars andb]. rewrite (alnum_alnumHyphen d Hd).
      cbn [String.length andb]. rewrite length_append. cbn [String.length].
      apply Z.leb_le. lia.
    + apply matches_Eps in H2 as ->.
      cbn [String.append isLabel lastChar allChars String.length].
      rewrite Hc. reflexivity.
  - intros H. destruct l as [|c rest]; [discriminate|].
    cbn [isLabel] in H.
    apply andb_true_iff in H as [H Hlen].
    apply andb_true_iff in H as [H Hall].
    apply andb_true_iff in H as [Hc Hd].
    exists (String c ""), rest. split; [reflexivity|].
    split; [constructor; exact Hc|].
    destruct rest as [|x rest']; [apply MAltR; constructor|].
    apply MAltL.
    destruct (snoc_exists (String x rest') c ltac:(discriminate)) as [mid Hm].
    rewrite Hm in Hall, Hlen |- *.
    rewrite Hm in Hd at 1. rewrite lastChar_snoc in Hd.
    rewrite allChars_app in Hall. apply andb_true_iff in Hall as [Hmid _].
    cbn [String.length] in Hlen. rewrite length_append in Hlen.
    cbn [String.length] in Hlen. apply Z.leb_le in Hlen.
    apply MSeq; [|constructor; exact Hd].
    apply matches_upto. split; [lia|exact Hmid].
Qed.

Lemma matches_dotted_labels (t : string) :
  matches (regexp.Star (regexp.Seq (regexp.Class isDot) labelRe)) t
  <-> exists labels, forallb isLabel labels = true /\ t = dotJoin labels.
Proof.
  split.
  - intros H.
    remember (regexp.Star (regexp.Seq (regexp.Class isDot) labelRe)) as r
      eqn:Er.
    induction H as [| | | | | |a u t Hu _ Ht IHt]; try discriminate.
    + exists []. auto.
    + injection Er as ->. destruct (IHt eq_refl) as (labels & Hall & ->).
      apply matches_Seq in Hu as (s1 & l & -> & H1 & H2).
      apply matches_Class in H1 as (c & -> & Hc).
      unfold isDot in Hc. apply Ascii.eqb_eq in Hc. subst c.
      apply matches_labelRe in H2.
      exists (l :: labels). cbn [forallb dotJoin String.append].
      rewrite H2, Hall. auto.
  - intros (labels & Hall & ->).
    induction labels as [|l labels IH]; [constructor|].
    cbn [forallb] in Hall. apply andb_true_iff in Hall as [Hl Hall].
    cbn [dotJoin].
    change (String "." (l ++ dotJoin labels))
      with (String "." "" ++ (l ++ dotJoin labels))%string.
    rewrite <- append_assoc. apply MStarApp; [|exact (IH Hall)].
    apply MSeq; [constructor; reflexivity|apply matches_labelRe; exact Hl].
Qed.

Lemma allChars_hasByte (p : ascii -> bool) (c : ascii) (s : string) :
  p c = false -> allChars p s = true -> strings.hasByte c s = false.
Proof.
  intros Hc. induction s as [|x s IH]; cbn [allChars strings.hasByte];
    [reflexivity|].
  intros H. apply andb_true_iff in H as [Hx Hs]. rewrite (IH Hs).
  destruct (Ascii.eqb_spec c x) as [<-|_]; [congruence|reflexivity].
Qed.

Lemma isLabel_no_dot (l : string) :
  isLabel l = true -> strings.hasByte "." l = false.
Proof.
  destruct l as [|c rest]; [discriminate|]. cbn [isLabel]. intros H.
  apply andb_true_iff in H as [H _].
  apply andb_true_iff in H as [H Hall].
  apply andb_true_iff in H as [Hc _].
  apply (allChars_hasByte alnumHyphen); [reflexivity|].
  cbn [allChars]. rewrite (alnum_alnumHyphen c Hc), Hall. reflexivity.
Qed.

Lemma Split_dotJoin (labels : list string) :
  forall l,
    strings.hasByte "." l = false ->
    forallb isLabel labels = true ->
    strings.Split (l ++ dotJoin labels) "." = l :: labels.
Proof.
  induction labels as [|l' labels IH]; intros l Hl Hall; cbn [dotJoin].
  - rewrite append_nil_r. apply Split_plain. exact Hl.
  - cbn [forallb] in Hall. apply andb_true_iff in Hall as [Hl' Hall].
    rewrite (Split_app l _ "." Hl), (IH l' (isLabel_no_dot l' Hl') Hall).
    reflexivity.
Qed.

Lemma Split_parts (s : string) :
  exists l labels,
    strings.Split s "." = l :: labels /\ s = (l ++ dotJoin labels)%string.
Proof.
  induction s as [|c s (l & labels & Hs & Hj)]; cbn [strings.Split].
  - exists "", []. auto.
  - destruct (Ascii.eqb_spec c ".") as [->|Hc].
    + exists "", (l :: labels). rewrite Hs. cbn [dotJoin String.append].
      rewrite <- Hj. auto.
    + rewrite Hs. exists (String c l), labels. cbn [String.append].
      rewrite <- Hj. auto.
Qed.

(** X23. [ValidateDomainName] accepts exactly the strings of at most 253
    bytes that split at the dots into labels: each part 1 to 63 bytes long,
    of ASCII letters, digits and hyphens only, with no hyphen at either
    end.  The empty string, empty parts and a leading or trailing dot are
    refused. *)
Theorem ValidateDomainName_accepts_dotted_labels (domain : string) :
  ValidateDomainName domain
  = (Z.of_nat (String.length domain) <=? 253)
    && forallb isLabel (strings.Split domain ".").
Proof.
  unfold ValidateDomainName.
  destruct (Z.eqb_spec (Z.of_nat (String.length domain)) 0) as [H0|H0].
  { destruct domain; [reflexivity|cbn [String.length] in H0; lia]. }
  cbn [orb]. rewrite Z.gtb_ltb.
  destruct (Z.ltb_spec 253 (Z.of_nat (String.length domain))) as [Hbig|Hok].
  { destruct (Z.leb_spec (Z.of_nat (String.length domain)) 253) as [Hle|Hgt];
      [exfalso; lia|reflexivity]. }
  destruct (Z.leb_spec (Z.of_nat (String.length domain)) 253) as [Hle|Hgt];
    [|exfalso; lia].
  cbn [andb]. apply eq_true_iff_eq.
  rewrite MatchString_spec. unfold domainRe. rewrite matches_Seq. split.
  - intros (l & t & -> & Hl & Ht).
    apply matches_labelRe in Hl.
    apply matches_dotted_labels in Ht as (labels & Hall & ->).
    rewrite (Split_dotJoin labels l (isLabel_no_dot l Hl) Hall).
    cbn [forallb]. rewrite Hl, Hall. reflexivity.
  - intros Hall. destruct (Split_parts domain) as (l & labels & Hs & Hj).
    rewrite Hs in Hall. cbn [forallb] in Hall.
    apply andb_true_iff in Hall as [Hl Hall].
    exists l, (dotJoin labels). split; [exact Hj|].
    split; [apply matches_labelRe; exact Hl|].
    apply matches_dotted_labels. exists labels. auto.
Qed.

Lemma small_decimals_are_labels (n : nat) :
  (n < 256)%nat ->
  isLabel (strconv.Itoa (Z.of_nat n)) = true
  /\ (String.length (strconv.Itoa (Z.of_nat n)) <= 3)%nat.
Proof.
  intros Hn.
  assert (Hall : forallb (fun k =>
                   isLabel (strconv.Itoa (Z.of_nat k))
                   && (String.length (strconv.Itoa (Z.of_nat k)) <=? 3)%nat)
                   (seq 0 256) = true) by (vm_compute; reflexivity).
  rewrite forallb_forall in Hall.
  specialize (Hall n ltac:(apply in_seq; lia)).
  apply andb_true_iff in Hall as [H1 H2]. apply Nat.leb_le in H2. auto.
Qed.

(** X24. Every dotted-decimal IPv4 literal passes [ValidateDomainName]:
    its four numbers are labels of digits.  So the TLS configuration
    [scanSingleIP] builds for a target given by such a literal carries the
    literal as [ServerName]. *)
Theorem dotted_quads_pass_as_domain_names (ip : net.IP) :
  len ip = 4 ->
  ValidateDomainName (dotted ip) = true
  /\ ServerName (probeTLSConfig (dotted ip)) = dotted ip.
Proof.
  intros Hlen.
  assert (Hv : ValidateDomainName (dotted ip) = true).
  { destruct ip as [|a [|b [|c [|d [|e ip]]]]];
      try (unfold len in Hlen; cbn [List.length] in Hlen; lia).
    assert (Hb : forall x : byte,
               isLabel (strconv.Itoa (big.byte_val x)) = true
               /\ (String.length (strconv.Itoa (big.byte_val x)) <= 3)%nat).
    { intros x. pose proof (byte_val_range x) as Hr.
      rewrite <- (Z2Nat.id (big.byte_val x)) by lia.
      apply small_decimals_are_labels. lia. }
    destruct (Hb a) as [La Sa]. destruct (Hb b) as [Lb Sb].
    destruct (Hb c) as [Lc Sc]. destruct (Hb d) as [Ld Sd].
    unfold dotted. cbn [map]. rewrite !Join_cons2. cbn [strings.Join].
    set (A := strconv.Itoa (big.byte_val a)) in *.
    set (B := strconv.Itoa (big.byte_val b)) in *.
    set (C := strconv.Itoa (big.byte_val c)) in *.
    set (D := strconv.Itoa (big.byte_val d)) in *.
    assert (Hs : (A ++ "." ++ B ++ "." ++ C ++ "." ++ D)%string
                 = (A ++ dotJoin [B; C; D])%string).
    { cbn [dotJoin String.append]. rewrite append_nil_r. reflexivity. }
    unfold ValidateDomainName.
    assert (Hsize : (1 <= String.length (A ++ "." ++ B ++ "." ++ C ++ "." ++ D)
                    <= 15)%nat).
    { rewrite !length_append. cbn [String.length]. lia. }
    destruct (Z.eqb_spec (Z.of_nat (String.length
                (A ++ "." ++ B ++ "." ++ C ++ "." ++ D)%string)) 0);
      [exfalso; lia|].
    destruct (Z.gtb_spec (Z.of_nat (String.length
                (A ++ "." ++ B ++ "." ++ C ++ "." ++ D)%string)) 253);
      [exfalso; lia|].
    cbn [orb]. rewrite Hs. apply MatchString_spec. unfold domainRe.
    apply MSeq; [apply matches_labelRe; exact La|].
    apply matches_dotted_labels. exists [B; C; D].
    cbn [forallb]. rewrite Lb, Lc, Ld. auto. }
  split; [exact Hv|]. unfold probeTLSConfig. rewrite Hv. reflexivity.
Qed.

Lemma dotted_quads_pass_as_domain_names_witness :
  ValidateDomainName "192.0.2.7" = true.
Proof.
  exact (proj1 (dotted_quads_pass_as_domain_names (ip4 192 0 2 7) eq_refl)).
Defined.

(** ** The hosts of [IterateAddr] *)

Lemma NextIP_len (ip ip' : net.IP) (increment : bool) :
  NextIP ip increment = Some ip' ->
  len ip' = widthOf ip /\ widthOf ip' = widthOf ip.
Proof.
  intros H.
  assert (Hl : len ip' = widthOf ip).
  { destruct (Z_lt_le_dec (Z.abs (stepped ip increment)) (256 ^ widthOf ip))
      as [Hfit|Hbig].
    - destruct (NextIP_fits ip increment Hfit) as (x & Hx & Hl & _).
      congruence.
    - rewrite (NextIP_overflow ip increment Hbig) in H. discriminate. }
  split; [exact Hl|].
  destruct (widthOf_cases ip) as [[_ Hw]|[_ Hw]]; rewrite Hw in *;
    unfold widthOf; rewrite Hl; reflexivity.
Qed.

Lemma addrLoop_sends_valid (addr : string) (w : Z) (fuel : nat) :
  forall st,
    widthOf (lowIP st) = w -> widthOf (highIP st) = w ->
    Forall (fun h => Host_Type h = HostTypeIP /\ Host_Origin h = addr
                     /\ isValidIP (Host_IP h) = true
                     /\ len (Host_IP h) = w)
           (sentHosts (fst (fst (addrLoop fuel addr st)))).
Proof.
  induction fuel as [|fuel IH]; intros st Hlo Hhi; cbn [addrLoop];
    [constructor|].
  unfold addrStep.
  destruct (loop_i st <? MaxInt); [|constructor].
  destruct (loop_i st mod 2 =? 0).
  - destruct (NextIP (lowIP st) false) as [low|] eqn:Hn; [|constructor].
    apply NextIP_len in Hn as [Hl Hw]. rewrite Hlo in Hl, Hw.
    specialize (IH (mkAddrLoop (loop_i st + 1) low (highIP st)) Hw Hhi).
    destruct (addrLoop fuel addr _) as [[cs e] final].
    cbn [fst sentHosts] in *.
    destruct (isValidIP low) eqn:Hv; cbn [negb]; [|exact IH].
    constructor; [cbn; auto|exact IH].
  - destruct (NextIP (highIP st) true) as [high|] eqn:Hn; [|constructor].
    apply NextIP_len in Hn as [Hl Hw]. rewrite Hhi in Hl, Hw.
    specialize (IH (mkAddrLoop (loop_i st + 1) (lowIP st) high) Hlo Hw).
    destruct (addrLoop fuel addr _) as [[cs e] final].
    cbn [fst sentHosts] in *.
    destruct (isValidIP high) eqn:Hv; cbn [negb]; [|exact IH].
    constructor; [cbn; auto|exact IH].
Qed.

Lemma addrLoop_S (fuel : nat) (addr : string) (st : AddrLoop) :
  addrLoop (S fuel) addr st
  = match addrStep addr st with
    | StepExit => ([], Closed, st)
    | StepPanic => ([], Panicked, st)
    | StepNext st' candidate sent =>
        let '(cs, e, final) := addrLoop fuel addr st' in
        ((candidate, sent) :: cs, e, final)
    end.
Proof. reflexivity. Qed.

Lemma addrLoop_grows (addr : string) (fuel : nat) :
  forall st,
    exists more,
      sentHosts (fst (fst (addrLoop (S fuel) addr st)))
      = sentHosts (fst (fst (addrLoop fuel addr st))) ++ more.
Proof.
  induction fuel as [|fuel IH]; intros st.
  - eexists. reflexivity.
  - rewrite (addrLoop_S (S fuel) addr st), (addrLoop_S fuel addr st).
    destruct (addrStep addr st) as [| |st' c sent];
      try (exists []; reflexivity).
    destruct (IH st') as [more Hm].
    destruct (addrLoop (S fuel) addr st') as [[cs e] final].
    destruct (addrLoop fuel addr st') as [[cs0 e0] final0].
    cbn [fst sentHosts] in *. exists more.
    destruct sent as [h|]; [rewrite Hm; reflexivity|exact Hm].
Qed.

(** X25. [IterateAddr] sends nothing when the seed does not parse.
    Otherwise it sends the seed itself first, without testing it, and
    after it only IP targets that carry the seed string as origin, pass
    [isValidIP], and have the width [NextIP] gives the seed: 4 bytes for a
    4-byte seed and 16 bytes otherwise.  What has been sent after some
    iterations stays sent after one more. *)
Theorem IterateAddr_sends_valid_hosts (env : Env) (addr : string)
    (fuel : nat) :
  match ParseIP env addr with
  | None => IterateAddr env addr fuel = ([], Closed)
  | Some seed =>
      exists rest,
        fst (IterateAddr env addr fuel)
        = mkHost seed addr HostTypeIP :: rest
        /\ Forall (fun h => Host_Type h = HostTypeIP /\ Host_Origin h = addr
                            /\ isValidIP (Host_IP h) = true
                            /\ len (Host_IP h) = widthOf seed) rest
        /\ exists more,
             fst (IterateAddr env addr (S fuel))
             = fst (IterateAddr env addr fuel) ++ more
  end.
Proof.
  unfold IterateAddr.
  destruct (ParseIP env addr) as [seed|]; [|reflexivity].
  pose proof (addrLoop_sends_valid addr (widthOf seed) fuel
                (mkAddrLoop 0 seed seed) eq_refl eq_refl) as Hall.
  destruct (addrLoop_grows addr fuel (mkAddrLoop 0 seed seed)) as [more Hm].
  destruct (addrLoop (S fuel) addr (mkAddrLoop 0 seed seed))
    as [[cs' e'] final'].
  destruct (addrLoop fuel addr (mkAddrLoop 0 seed seed)) as [[cs e] final].
  cbn [fst] in *. eexists. split; [reflexivity|]. split; [exact Hall|].
  exists more. rewrite Hm. reflexivity.
Qed.

(** ** The rows [showResultsPaginated] prints *)

Lemma showRow_panics (i : Z) (result : list string) :
  showRow i result = None <-> len result < 11.
Proof.
  unfold len.
  do 11 (destruct result as [|? result];
         [split; [intros _; cbn [List.length]; lia|];
          intros _; unfold showRow; cbn [nth_error];
          try destruct (truncateString _ 25); reflexivity|]).
  unfold showRow, truncateString. cbn [nth_error List.length].
  split; [|lia].
  destruct (Z.of_nat (String.length s2) <=? 25); [discriminate|].
  change (25 - 3 <? 0) with false. cbv iota. discriminate.
Qed.

Lemma feasibleRecords_width (sink : Sink) (rs : list ScanResult) :
  forall k, Forall (fun row => len row = 13) (feasibleRecords sink k rs).
Proof.
  induction rs as [|r rs IH]; intros k; cbn [feasibleRecords];
    [constructor|].
  destruct (Feasible r); [constructor; [reflexivity|apply IH]|apply IH].
Qed.

(** X26. [loadFeasibleResults] keeps a row for having ten parts with the
    tenth equal to true, and [showResultsPaginated] then reads the eleventh
    part of every row: a row is printed without a panic exactly when it
    has at least eleven parts.  For a file of records written unquoted
    every row kept has its 13 parts.  But a result that is not feasible,
    with line feeds in the issuer name of its certificate, is written as a
    record from which the loader keeps a row of ten parts, on which the
    table panics. *)
Theorem showResultsPaginated_needs_eleven_parts :
  (forall content,
     Forall (fun row => 10 <= len row /\ nth 9 row "" = "true")
            (loadFeasibleResults content))
  /\ (forall i row, showRow i row = None <-> len row < 11)
  /\ (forall sink rs,
        Forall plainResult rs ->
        (forall k, plain (Now sink k)) ->
        Forall fitsScanner (writtenRecords sink 1 rs) ->
        Forall (fun row => forall i, showRow i row <> None)
               (loadFeasibleResults (file (writeAll sink NewCSVWriter 1 rs))))
  /\ (Feasible plantedResult = false
      /\ exists row,
           In row (loadFeasibleResults
                     (file (writeAll sampleSink NewCSVWriter 1
                              [plantedResult])))
           /\ len row = 10
           /\ showRow 0 row = None).
Proof.
  split; [|split; [|split]].
  - intros content. unfold loadFeasibleResults. apply Forall_forall.
    intros row Hin. apply filter_In in Hin as [_ H].
    apply andb_true_iff in H as [Hl Ht].
    rewrite Z.geb_leb in Hl. apply Z.leb_le in Hl.
    apply String.eqb_eq in Ht. auto.
  - exact showRow_panics.
  - intros sink rs Hrs Hnow Hfit.
    assert (Hload : loadFeasibleResults (file (writeAll sink NewCSVWriter 1 rs))
                    = feasibleRecords sink 1 rs).
    { rewrite writeAll_file by reflexivity.
      change (file NewCSVWriter
              ++ appendAll (map csv.Write (writtenRecords sink 1 rs)))%string
        with (fileOf (writtenRecords sink 1 rs)).
      rewrite load_plain_file.
      - apply keptByLoader_written.
      - apply writtenRecords_plain; assumption.
      - exact Hfit.
      - apply writtenRecords_nonempty. }
    rewrite Hload.
    eapply Forall_impl; [|apply feasibleRecords_width].
    cbv beta. intros row Hw i Hnone.
    apply showRow_panics in Hnone. lia.
  - split; [reflexivity|].
    exists ["1"; "2"; "3"; "4"; "5"; "6"; "7"; "8"; "9"; "true"].
    split; [vm_compute; auto|]. split; reflexivity.
Qed.

Lemma showResultsPaginated_needs_eleven_parts_witness :
  Forall (fun row => forall i, showRow i row <> None)
         (loadFeasibleResults
            (file (writeAll sampleSink NewCSVWriter 1
                     [goodResult; tls12Result]))).
Proof.
  apply (proj1 (proj2 (proj2 showResultsPaginated_needs_eleven_parts))).
  - repeat constructor.
  - intros k. reflexivity.
  - repeat constructor; unfold fitsScanner; vm_compute; discriminate.
Defined.

(** ** The questions of [main] *)

(** X27. Whatever is typed for the mask, building the scan target does not
    panic: [calculateNetworkAddress] is reached only behind [isValidMask].
    The target is the address with /24, or, for a mask of 0 to 32 bits and
    an IPv4 address, the network address [calculateNetworkAddress] rounds
    the address down to, followed by the mask as typed, with a slash put in
    front where it was missing. *)
Theorem main_scan_target (env : Env) (targetIP maskInput : string)
    (use24Subnet : bool) :
  exists target,
    scanTargetOf env targetIP use24Subnet maskInput = Some target
    /\ (target = (targetIP ++ "/24")%string
        \/ exists maskStr bits ip ip4 network,
             use24Subnet = false
             /\ (maskInput = maskStr \/ maskInput = String "/" maskStr)
             /\ conv.Atoi maskStr = Some bits /\ 0 <= bits <= 32
             /\ ParseIP env targetIP = Some ip /\ net.To4 ip = Some ip4
             /\ len network = 4
             /\ big.SetBytes network
                = big.SetBytes ip4 - big.SetBytes ip4 mod 2 ^ (32 - bits)
             /\ target = (IPString env network ++ String "/" maskStr)%string).
Proof.
  unfold scanTargetOf.
  destruct use24Subnet; [eexists; split; [reflexivity|left; reflexivity]|].
  destruct (String.eqb maskInput "");
    [eexists; split; [reflexivity|left; reflexivity]|].
  set (mask := if negb (str.HasPrefix maskInput "/")
               then ("/" ++ maskInput)%string else maskInput).
  destruct (isValidMask mask) eqn:Hv;
    [|eexists; split; [reflexivity|left; reflexivity]].
  pose proof Hv as Hv'. apply isValidMask_true in Hv'.
  destruct Hv' as (maskStr & bits & Hm & Ha & Hb).
  assert (Hin : maskInput = maskStr \/ maskInput = String "/" maskStr).
  { unfold mask in Hm. destruct (str.HasPrefix maskInput "/").
    - right. exact Hm.
    - left. cbn [negb String.append] in Hm. congruence. }
  destruct (CIDRMask_32 bits Hb) as (m & Hcm & Hlm & Hvm).
  unfold calculateNetworkAddress. rewrite Hm.
  destruct (ParseIP env targetIP) as [ip|] eqn:Hp;
    [|eexists; split; [reflexivity|left; reflexivity]].
  destruct (net.To4 ip) as [ip4|] eqn:H4;
    [|eexists; split; [reflexivity|left; reflexivity]].
  rewrite Ha, Hcm. eexists. split; [reflexivity|]. right.
  exists maskStr, bits, ip, ip4, (andBytes ip4 m).
  pose proof (To4_len ip ip4 H4) as Hl4.
  assert (Hlen : List.length ip4 = List.length m) by (unfold len in Hl4; lia).
  destruct (SetBytes_andBytes ip4 m Hlen) as [Hl Hval].
  pose proof (SetBytes_range ip4) as Hr. rewrite Hl4 in Hr.
  change (256 ^ 4) with (2 ^ 32) in Hr.
  repeat split; try assumption; try lia.
  rewrite Hval, Hvm. apply land_mask; lia.
Qed.

(** X28. The scan control [main] sets always gives [ProcessResults] a
    quota it keeps: stopping is switched on only with a quota of at least
    one, and then the number of feasible results counted never exceeds it;
    otherwise the quota is zero and the channel is drained. *)
Theorem main_quota_is_kept (stopAt10 pingDomain : bool) (maxStr : string)
    (sink : Sink) (targets : Z) (resultChan : list ScanResult) :
  let ctl := scanControlOf stopAt10 maxStr pingDomain in
  let run :=
    ProcessResults ctl sink (NewResultProcessorWithProgress targets)
      resultChan in
  PingDomain ctl = pingDomain
  /\ (StopOnMax ctl = true ->
      1 <= MaxResults ctl <= 2 ^ 63 - 1
      /\ (stopAt10 = true -> MaxResults ctl = 10)
      /\ feasibleCount (fst run) <= MaxResults ctl)
  /\ (StopOnMax ctl = false ->
      MaxResults ctl = 0 /\ snd run = []
      /\ totalCount (fst run) = len resultChan).
Proof.
  cbv zeta.
  set (ctl := scanControlOf stopAt10 maxStr pingDomain).
  assert (Hctl : PingDomain ctl = pingDomain
                 /\ (StopOnMax ctl = true ->
                     1 <= MaxResults ctl <= 2 ^ 63 - 1
                     /\ (stopAt10 = true -> MaxResults ctl = 10))
                 /\ (StopOnMax ctl = false -> MaxResults ctl = 0)).
  { unfold ctl, scanControlOf.
    destruct stopAt10; [cbn; repeat split; auto; lia|].
    destruct (String.eqb maxStr "");
      [cbn; repeat split; auto; discriminate|].
    destruct (conv.Atoi maxStr) as [max|] eqn:Ha;
      [|cbn; repeat split; auto; discriminate].
    destruct (Z.gtb_spec max 0) as [Hpos|Hneg];
      [|cbn; repeat split; auto; discriminate].
    cbn [PingDomain StopOnMax MaxResults].
    split; [reflexivity|]. split; [|discriminate]. intros _.
    split; [|discriminate]. split; [lia|].
    unfold conv.Atoi in Ha.
    destruct maxStr as [|c rest]; [discriminate|].
    destruct (if Ascii.eqb c "-" || Ascii.eqb c "+" then rest
              else String c rest); [discriminate|].
    destruct (conv.digitsVal _ 0) as [n|]; [|discriminate].
    match type of Ha with
    | (if ?b then _ else _) = _ => destruct b eqn:Hb; [|discriminate]
    end.
    injection Ha as <-. apply andb_true_iff in Hb as [_ Hb].
    apply Z.leb_le in Hb. exact Hb. }
  destruct Hctl as (Hp & Hon & Hoff).
  split; [exact Hp|]. split.
  - intros Hs. destruct (Hon Hs) as [Hm H10].
    split; [exact Hm|]. split; [exact H10|].
    apply ProcessResults_within_quota; [exact Hs|].
    cbn [NewResultProcessorWithProgress feasibleCount]. lia.
  - intros Hs. split; [exact (Hoff Hs)|].
    destruct (ProcessResults_drains ctl sink resultChan
                (NewResultProcessorWithProgress targets) Hs) as [H1 H2].
    split; [exact H1|]. rewrite H2.
    cbn [NewResultProcessorWithProgress totalCount]. lia.
Qed.

(** ** The server name indication of a probe *)

Lemma LastIndex_none (c : ascii) (s : string) :
  strings.hasByte c s = false -> strings.LastIndex s c = None.
Proof.
  induction s as [|a s IH]; cbn [strings.hasByte strings.LastIndex];
    [reflexivity|].
  intros H. apply orb_false_iff in H as [Ha Hs]. rewrite (IH Hs).
  rewrite Ascii.eqb_sym, Ha. reflexivity.
Qed.

Lemma lastByte_lastChar (rest : string) :
  forall c, tls.lastByte (String c rest) = Some (lastChar c rest).
Proof.
  induction rest as [|d rest IH]; intros c; [reflexivity|].
  change (tls.lastByte (String c (String d rest)))
    with (tls.lastByte (String d rest)).
  cbn [lastChar]. apply IH.
Qed.

Lemma lastByte_app (a b : string) :
  b <> "" -> tls.lastByte (a ++ b) = tls.lastByte b.
Proof.
  intros Hb. induction a as [|x a IH]; cbn [String.append]; [reflexivity|].
  rewrite <- IH.
  destruct (a ++ b)%string as [|y t] eqn:E; [|reflexivity].
  destruct a; cbn [String.append] in E; [contradiction|discriminate].
Qed.

Lemma isLabel_lastByte (l : string) :
  isLabel l = true -> exists d, tls.lastByte l = Some d /\ alnum d = true.
Proof.
  destruct l as [|c rest]; [discriminate|]. cbn [isLabel]. intros H.
  apply andb_true_iff in H as [H _].
  apply andb_true_iff in H as [H _].
  apply andb_true_iff in H as [_ Hd].
  exists (lastChar c rest). split; [apply lastByte_lastChar|exact Hd].
Qed.

Lemma dotJoin_lastByte (labels : list string) :
  forallb isLabel labels = true ->
  labels <> [] ->
  exists d, tls.lastByte (dotJoin labels) = Some d /\ alnum d = true.
Proof.
  induction labels as [|l labels IH]; intros Hall Hne; [contradiction|].
  cbn [forallb] in Hall. apply andb_true_iff in Hall as [Hl Hall].
  cbn [dotJoin]. destruct labels as [|l' labels'].
  - cbn [dotJoin]. rewrite append_nil_r.
    destruct (isLabel_lastByte l Hl) as (d & Hd & Ha).
    exists d. split; [|exact Ha].
    change (String "." l) with (String "." "" ++ l)%string.
    rewrite lastByte_app; [exact Hd|].
    intros ->. discriminate.
  - destruct (IH Hall ltac:(discriminate)) as (d & Hd & Ha).
    exists d. split; [|exact Ha].
    change (String "." (l ++ dotJoin (l' :: labels')))
      with (String "." "" ++ (l ++ dotJoin (l' :: labels')))%string.
    rewrite <- append_assoc.
    rewrite lastByte_app; [exact Hd|]. cbn [dotJoin]. discriminate.
Qed.

(** A name [ValidateDomainName] accepts ends with a letter or a digit. *)
Lemma ValidateDomainName_lastByte (s : string) :
  ValidateDomainName s = true ->
  exists d, tls.lastByte s = Some d /\ alnum d = true.
Proof.
  intros H. unfold ValidateDomainName in H.
  match type of H with (if ?b then _ else _) = _ => destruct b end;
    [discriminate|].
  apply MatchString_spec in H. unfold domainRe in H.
  apply matches_Seq in H as (l & t & -> & Hl & Ht).
  apply matches_labelRe in Hl.
  apply matches_dotted_labels in Ht as (labels & Hall & ->).
  destruct labels as [|l' labels].
  - cbn [dotJoin]. rewrite append_nil_r. apply isLabel_lastByte. exact Hl.
  - destruct (dotJoin_lastByte (l' :: labels) Hall ltac:(discriminate))
      as (d & Hd & Ha).
    exists d. split; [|exact Ha].
    rewrite lastByte_app; [exact Hd|]. cbn [dotJoin]. discriminate.
Qed.

(** A name [ValidateDomainName] accepts has no byte the pattern has no
    class for. *)
Lemma ValidateDomainName_avoids (c : ascii) (s : string) :
  avoids c domainRe = true ->
  ValidateDomainName s = true ->
  strings.hasByte c s = false.
Proof.
  intros Ha Hv. destruct (strings.hasByte c s) eqn:Hb; [|reflexivity].
  exfalso. unfold ValidateDomainName in Hv.
  match type of Hv with (if ?b then _ else _) = _ => destruct b end;
    [discriminate|].
  rewrite (MatchString_avoided c s domainRe Ha Hb) in Hv. discriminate.
Qed.

Lemma hostnameInSNI_empty (P : string -> option net.IP) :
  tls.hostnameInSNI P "" = "".
Proof.
  unfold tls.hostnameInSNI. cbn [strings.LastIndex]. cbv zeta.
  destruct (P ""); reflexivity.
Qed.

(** On a name without square bracket and percent sign that does not end
    with a dot, [hostnameInSNI] only asks whether it is an IP address. *)
Lemma hostnameInSNI_plain (P : string -> option net.IP) (s : string) :
  strings.hasByte "[" s = false ->
  strings.hasByte "%" s = false ->
  (exists d, tls.lastByte s = Some d /\ d <> "."%char) ->
  tls.hostnameInSNI P s = match P s with Some _ => "" | None => s end.
Proof.
  intros Hb Hp (d & Hd & Hne). unfold tls.hostnameInSNI.
  destruct s as [|c rest]; [discriminate|].
  cbn [strings.hasByte] in Hb. apply orb_false_iff in Hb as [Hc _].
  rewrite (Ascii.eqb_sym c "["), Hc. cbn [andb]. cbv zeta.
  rewrite (LastIndex_none "%" _ Hp).
  destruct (P (String c rest)); [reflexivity|].
  cbn [String.length tls.trimDots]. rewrite Hd.
  destruct (Ascii.eqb_spec d "."); [contradiction|reflexivity].
Qed.

(** What [crypto/tls] sends for a name [ValidateDomainName] accepts. *)
Lemma hostnameInSNI_valid (P : string -> option net.IP) (s : string) :
  ValidateDomainName s = true ->
  tls.hostnameInSNI P s = match P s with Some _ => "" | None => s end.
Proof.
  intros Hv. apply hostnameInSNI_plain.
  - apply ValidateDomainName_avoids; [vm_compute; reflexivity|exact Hv].
  - apply ValidateDomainName_avoids; [vm_compute; reflexivity|exact Hv].
  - destruct (ValidateDomainName_lastByte s Hv) as (d & Hd & Ha).
    exists d. split; [exact Hd|]. intros ->. discriminate.
Qed.

Lemma scanEach_handshake_config (env : Env) (cfg : Config)
    (ctl : ScanControl) (origin : string) (geo : Geo) (ips : list net.IP) :
  forall a c,
    In (EvHandshake a c) (snd (scanEach env cfg ctl ips origin geo)) ->
    c = probeTLSConfig origin.
Proof.
  induction ips as [|ip ips IH]; cbn [scanEach]; intros a c Hin.
  - destruct Hin.
  - unfold bind, ret in Hin.
    pose proof (proj2 (scanSingleIP_handshake_event env cfg ctl ip origin geo))
      as H1.
    destruct (scanSingleIP env cfg ctl ip origin geo) as [r t1].
    destruct (scanEach env cfg ctl ips origin geo) as [rs t2].
    cbn [snd] in *. rewrite !in_app_iff in Hin.
    destruct Hin as [H|[H|[]]]; [exact (H1 a c H)|exact (IH a c H)].
Qed.

Lemma ScanTLS_handshake_config (env : Env) (cfg : Config)
    (ctl : ScanControl) (host : Host) (geo : Geo) :
  forall a c,
    In (EvHandshake a c) (snd (ScanTLS env cfg ctl host geo)) ->
    c = probeTLSConfig (Host_Origin host).
Proof.
  intros a c Hin. unfold ScanTLS in Hin. destruct (Host_Type host).
  - exact (scanEach_handshake_config env cfg ctl _ geo _ a c Hin).
  - destruct Hin.
  - unfold ResolveDomain, bind, tell, ret in Hin.
    pose proof (scanEach_handshake_config env cfg ctl (Host_Origin host) geo)
      as He.
    destruct (LookupIP env (Host_Origin host)) as [found|e].
    + destruct (len (filter _ found) =? 0).
      * cbn in Hin. destruct Hin as [H|[]]. discriminate.
      * match type of Hin with
        | context [scanEach env cfg ctl ?ips (Host_Origin host) geo] =>
            specialize (He ips);
            destruct (scanEach env cfg ctl ips (Host_Origin host) geo)
              as [rs t2]
        end.
        cbn [snd app] in Hin, He.
        destruct Hin as [H|H]; [discriminate|exact (He a c H)].
    + cbn in Hin. destruct Hin as [H|[]]. discriminate.
Qed.

(** The targets the program scans: an IP target has an origin that parses
    as an address or as a network, a Domain target an origin that does not
    parse as an address and that [ValidateDomainName] accepts. *)
Lemma scannedHost_shape (env : Env) (host : Host) :
  scannedHost env host ->
  (Host_Type host = HostTypeIP
   /\ (ParseIP env (Host_Origin host) <> None
       \/ ParseCIDR env (Host_Origin host) <> None))
  \/ (Host_Type host = HostTypeDomain
      /\ ParseIP env (Host_Origin host) = None
      /\ ValidateDomainName (Host_Origin host) = true).
Proof.
  intros [(addr & fuel & run & Hrun & Hin)|(content & Hin)].
  - unfold scanAddressHosts, ParseHost in Hrun.
    destruct (ParseIP env (str.TrimSpace addr)) as [ip|] eqn:Hip.
    + cbn [Host_Type] in Hrun. injection Hrun as <-.
      unfold IterateAddr in Hin.
      destruct (ParseIP env addr) as [s|] eqn:Hs; [|destruct Hin].
      pose proof (addrLoop_sends_valid addr (widthOf s) fuel
                    (mkAddrLoop 0 s s) eq_refl eq_refl) as Hall.
      destruct (addrLoop fuel addr (mkAddrLoop 0 s s)) as [[cs e] final].
      cbn [fst] in *. left. destruct Hin as [<-|Hin].
      * cbn [Host_Type Host_Origin]. rewrite Hs.
        split; [reflexivity|left; discriminate].
      * rewrite Forall_forall in Hall.
        destruct (Hall host Hin) as (Ht & Ho & _). rewrite Ho, Hs.
        split; [exact Ht|left; discriminate].
    + destruct (ParseCIDR env (str.TrimSpace addr)) as [n|] eqn:Hc.
      * cbn [Host_Type] in Hrun.
        destruct (ParseCIDR env addr) as [n'|] eqn:Hc2; [|discriminate].
        injection Hrun as <-.
        destruct (IterateCIDR_details env addr) as (_ & _ & Hh & _).
        destruct (Hh host Hin) as (ipNet & Hp & _ & Ho & Ht).
        left. rewrite Ho, Hp. split; [exact Ht|right; discriminate].
      * destruct (ValidateDomainName (str.TrimSpace addr)) eqn:Hv;
          [|discriminate].
        cbn [Host_Type] in Hrun. injection Hrun as <-.
        destruct Hin as [<-|[]]. right. cbn [Host_Type Host_Origin]. auto.
  - unfold Iterate in Hin.
    pose proof (iterateLines_hosts env (bufio.ScanLines content)) as Hall.
    rewrite Forall_forall in Hall.
    destruct (Hall host Hin) as (text & _ & Hs).
    unfold sentFor in Hs. cbv zeta in Hs.
    destruct Hs as (_ & _ & _ & [(Ht & Hp)|[(Ht & _ & ipNet & Hp & _)
                                           |(Ht & _ & Hp & _ & Hv)]]).
    + left. split; [exact Ht|left; rewrite Hp; discriminate].
    + left. split; [exact Ht|right; rewrite Hp; discriminate].
    + right. auto.
Qed.

(** C3. For every target the program scans and every handshake [ScanTLS]
    makes for it, the server name indication the handshake sends, which is
    what [crypto/tls] makes of the [ServerName] of the configuration, is
    the origin of the target when its kind is Domain and is empty when its
    kind is IP.  [scanSingleIP] sets [ServerName] by [ValidateDomainName]
    and not by the kind of the target, so for an IP target given as a
    dotted quad the field holds the literal; [crypto/tls] sends no name
    for it.  An origin that is a network has a slash, as [net.ParseCIDR]
    requires, and is refused by [ValidateDomainName]. *)
Theorem handshake_server_name_indication
    (env : Env) (cfg : Config) (ctl : ScanControl) (geo : Geo) (host : Host) :
  (forall s ipNet,
     ParseCIDR env s = Some ipNet -> strings.hasByte "/" s = true) ->
  scannedHost env host ->
  forall a c,
    In (EvHandshake a c) (snd (ScanTLS env cfg ctl host geo)) ->
    (Host_Type host = HostTypeDomain ->
     serverNameIndication env c = Host_Origin host)
    /\ (Host_Type host = HostTypeIP -> serverNameIndication env c = "").
Proof.
  intros Hslash Hhost a c Hin.
  rewrite (ScanTLS_handshake_config env cfg ctl host geo a c Hin).
  unfold serverNameIndication, probeTLSConfig. cbn [ServerName].
  destruct (scannedHost_shape env host Hhost)
    as [(Ht & Hparse)|(Ht & Hp & Hv)].
  - split; [rewrite Ht; discriminate|]. intros _.
    destruct (ValidateDomainName (Host_Origin host)) eqn:Hv;
      [|apply hostnameInSNI_empty].
    rewrite (hostnameInSNI_valid _ _ Hv).
    destruct (ParseIP env (Host_Origin host)) as [ip|] eqn:Hp;
      [reflexivity|].
    exfalso. destruct Hparse as [H|H]; [exact (H eq_refl)|].
    destruct (ParseCIDR env (Host_Origin host)) as [ipNet|] eqn:Hc;
      [|exact (H eq_refl)].
    pose proof (Hslash _ _ Hc) as Hs.
    rewrite (ValidateDomainName_avoids "/" _ ltac:(vm_compute; reflexivity) Hv)
      in Hs.
    discriminate.
  - split; [|rewrite Ht; discriminate]. intros _.
    rewrite Hv, (hostnameInSNI_valid _ _ Hv), Hp. reflexivity.
Qed.

Lemma handshake_server_name_indication_witness :
  exists a c,
    In (EvHandshake a c)
       (snd (ScanTLS quadEnv config (mkScanControl 0 false false)
               (mkHost (net.v4InV6Prefix ++ ip4 1 2 3 4) "1.2.3.4" HostTypeIP)
               None))
    /\ ServerName c = "1.2.3.4"
    /\ serverNameIndication quadEnv c = "".
Proof.
  exists (addressOf quadEnv config (net.v4InV6Prefix ++ ip4 1 2 3 4)),
         (probeTLSConfig "1.2.3.4").
  assert (Hin : In (EvHandshake
                      (addressOf quadEnv config
                         (net.v4InV6Prefix ++ ip4 1 2 3 4))
                      (probeTLSConfig "1.2.3.4"))
                   (snd (ScanTLS quadEnv config (mkScanControl 0 false false)
                           (mkHost (net.v4InV6Prefix ++ ip4 1 2 3 4)
                                   "1.2.3.4" HostTypeIP) None))).
  { vm_compute. right. left. reflexivity. }
  split; [exact Hin|]. split; [vm_compute; reflexivity|].
  assert (Hhost : scannedHost quadEnv
                    (mkHost (net.v4InV6Prefix ++ ip4 1 2 3 4) "1.2.3.4"
                            HostTypeIP)).
  { left. exists "1.2.3.4", 0%nat. eexists. split; [reflexivity|].
    left. reflexivity. }
  apply (handshake_server_name_indication quadEnv config
           (mkScanControl 0 false false) None _
           ltac:(intros s ipNet H; discriminate) Hhost _ _ Hin).
  reflexivity.
Defined.
